(** * Orchestration core of the multi-agent analysis pipeline

    A shallow embedding of [project/adk_helper.py], the [execute] methods of
    the six agents under [project/agents/] and [run_pipeline] of
    [project/main.py], followed by the properties of the orchestration
    engine: the retrying invoker, the task contract, the phase scheduler
    and the pipeline orchestrator.

    Conventions of the embedding.
    - Python coroutines are computations in the monad [Py]: they read an
      environment [Env] (the clock, the random source, the external model
      service and the third-party libraries), thread a [World] (the object
      heap and the observable effects) and either return or raise.
    - A Python float is the rational it stands for ([Q]). The arithmetic
      the code itself does on floats, the backoff delay of [safe_call_adk],
      is rounded as IEEE 754 doubles are and overflows as Python's does;
      the numbers that come out of the clock and of the libraries are
      taken as they are.
    - A Python [str] is the [string] of its code points, which are taken
      to be below 256.
    - pandas, scikit-learn, matplotlib and reportlab are collaborators of
      the code, not part of it: their functions are fields of [Env], each
      one fallible where the library can raise. *)

From Stdlib Require Import ZArith QArith Qabs Lqa Lia Bool Ascii String.
From stdpp Require Import base option list strings pretty sorting.

Local Open Scope string_scope.
Local Open Scope list_scope.

(** ** Exceptions *)

(** The exceptions that matter to the control flow. Everything a library
    raises is a [Fault] carrying its description, [str(e)]. *)
Inductive Exn : Type :=
| NameError (name : string)
| AttributeError (msg : string)
| Fault (msg : string).

(** [str(e)] *)
Definition str_exn (e : Exn) : string :=
  match e with
  | NameError name => "name '" +:+ name +:+ "' is not defined"
  | AttributeError msg => msg
  | Fault msg => msg
  end.

Inductive Outcome (A : Type) : Type :=
| Returned (a : A)
| Raised (e : Exn).
Arguments Returned {A} a.
Arguments Raised {A} e.

(** ** Data frames and the object heap *)

(** A column is numeric or of object dtype; a missing cell is [None]. *)
Inductive Series : Type :=
| NumSeries (cells : list (option Q))
| ObjSeries (cells : list (option string)).

(** A frame: its columns in order, each with its label. *)
Definition DataFrame : Type := list (string * Series).

(** A reference to a frame object. *)
Definition Ref : Type := nat.

(** ** Frame operations of pandas that the code relies on structurally *)

Definition series_len (s : Series) : nat :=
  match s with
  | NumSeries cells => length cells
  | ObjSeries cells => length cells
  end.

(** [df.shape] *)
Definition shape (df : DataFrame) : nat * nat :=
  (match df with [] => 0 | (_, s) :: _ => series_len s end, length df).

(** [df.columns] *)
Definition columns (df : DataFrame) : list string := map fst df.

(** [s.isnull().sum()] *)
Definition null_count (s : Series) : nat :=
  match s with
  | NumSeries cells => length (filter (fun c => c = None) cells)
  | ObjSeries cells => length (filter (fun c => c = None) cells)
  end.

(** [df.isnull().sum().to_dict()] *)
Definition isnull_sum (df : DataFrame) : list (string * nat) :=
  map (fun '(col, s) => (col, null_count s)) df.

Definition is_numeric (s : Series) : bool :=
  match s with NumSeries _ => true | ObjSeries _ => false end.

(** [df.select_dtypes(include=[np.number])] *)
Definition select_numeric (df : DataFrame) : DataFrame :=
  filter (fun cs => is_numeric cs.2 = true) df.

(** [df.select_dtypes(include=['object', 'category'])] *)
Definition select_object (df : DataFrame) : DataFrame :=
  filter (fun cs => is_numeric cs.2 = false) df.

(** [df[col]]: the first column with that label. *)
Fixpoint getitem (df : DataFrame) (col : string) : option Series :=
  match df with
  | [] => None
  | (c, s) :: rest => if String.eqb c col then Some s else getitem rest col
  end.

(** The frame after [df[col] = s]: the column is replaced where it stands,
    or added last. *)
Fixpoint with_column (df : DataFrame) (col : string) (s : Series) : DataFrame :=
  match df with
  | [] => [(col, s)]
  | (c, s0) :: rest =>
      if String.eqb c col then (c, s) :: rest
      else (c, s0) :: with_column rest col s
  end.

(** [df.drop(columns=[col])] *)
Definition drop_column (df : DataFrame) (col : string) : DataFrame :=
  filter (fun cs => String.eqb cs.1 col = false) df.

(** [s.fillna(v)] on a numeric column; [v] is [None] when it is NaN, and
    then nothing is filled. *)
Definition fillna_num (cells : list (option Q)) (v : option Q) : list (option Q) :=
  map (fun c => match c with Some x => Some x | None => v end) cells.

(** [s.fillna(v)] on an object column *)
Definition fillna_obj (cells : list (option string)) (v : string) : list (option string) :=
  map (fun c => match c with Some x => Some x | None => Some v end) cells.

(** [df.fillna(0)] (numeric columns; object columns keep their cells) *)
Definition fillna_zero (df : DataFrame) : DataFrame :=
  map (fun '(col, s) =>
         (col, match s with
               | NumSeries cells => NumSeries (fillna_num cells (Some 0%Q))
               | ObjSeries cells => ObjSeries cells
               end)) df.

(** ** Payloads: the dictionaries the agents return as [data] *)

Inductive Recommendations : Type :=
| ParsedJson (j : string)     (* json.loads(adk_resp) *)
| RawText (s : string).       (* str(adk_resp) *)

Module CleaningReport.
Record t : Type := mk {
  original_shape : nat * nat;
  missing_values_before : list (string * nat);
  operations : list string;
  adk_recommendations : option Recommendations;
  cleaned_shape : nat * nat;
  missing_values_after : list (string * nat)
}.
End CleaningReport.

Module EdaReport.
Record t : Type := mk {
  basic_stats : string;
  data_types : list (string * string);
  correlations : option string;
  visualizations : list (string * string);     (* type, base64 data *)
  adk_insights : option string
}.
End EdaReport.

Record Outliers : Type := mkOutliers {
  count : nat;
  percentage : Q;
  lower_bound : Q;
  upper_bound : Q;
  values : list Q
}.

Module AnomalyReport.
Record t : Type := mk {
  outliers_by_column : list (string * Outliers);
  anomaly_summary : list string;
  total_anomalies : nat;
  adk_insights : option string
}.
End AnomalyReport.

Module MlResult.
Record t : Type := mk {
  model_type : string;
  feature_importance : list (string * Q);
  target : option string;
  insights : list string;
  adk_insights : option string
}.
End MlResult.

Module Insights.
Record t : Type := mk {
  executive_summary : string;
  key_findings : list string;
  recommendations : list string;
  adk_insights : string;
  adk_insights_structured : string * list string * list string
}.
End Insights.

Inductive Payload : Type :=
| CleaningData (cleaned_df : Ref) (report : CleaningReport.t)
| EdaData (eda_report : EdaReport.t)
| AnomalyData (report : AnomalyReport.t)
| MlData (result : MlResult.t)
| InsightsData (insights : Insights.t)
| ReportData (pdf_path : string).

(** The keys of the dictionary. *)
Definition payload_keys (p : Payload) : list string :=
  match p with
  | CleaningData _ _ => ["cleaned_df"; "report"]
  | EdaData _ =>
      ["basic_stats"; "data_types"; "correlations"; "visualizations"; "adk_insights"]
  | AnomalyData _ =>
      ["outliers_by_column"; "anomaly_summary"; "total_anomalies"; "adk_insights"]
  | MlData _ => ["model_type"; "feature_importance"; "target"; "insights"; "adk_insights"]
  | InsightsData _ =>
      ["executive_summary"; "key_findings"; "recommendations"; "adk_insights";
       "adk_insights_structured"]
  | ReportData _ => ["pdf_path"]
  end.

(** ** The result envelope *)

(** The [AgentResult] dataclass, declared alike in each agent module; the
    object that [run_pipeline] builds with [type('R', (), {...})()] has the
    same five attributes. *)
Record AgentResult : Type := mkAgentResult {
  agent_name : string;
  status : string;
  data : option Payload;
  execution_time : Q;
  error : option string
}.

(** A dictionary with string keys, in insertion order. *)
Abbreviation Dict V := (list (string * V)).

Fixpoint dict_get {V} (d : Dict V) (k : string) : option V :=
  match d with
  | [] => None
  | (k', v) :: rest => if String.eqb k' k then Some v else dict_get rest k
  end.

(** [d[k] = v]: an existing key keeps its place, a new one goes last. *)
Fixpoint dict_set {V} (d : Dict V) (k : string) (v : V) : Dict V :=
  match d with
  | [] => [(k, v)]
  | (k', v') :: rest =>
      if String.eqb k' k then (k', v) :: rest else (k', v') :: dict_set rest k v
  end.

Definition dict_keys {V} (d : Dict V) : list string := map fst d.

(** The context dictionaries handed to [call_adk]. *)
Inductive Context : Type :=
| CtxSummary (shape : nat * nat) (dtypes : list (string * string))
    (missing : list (string * nat)) (duplicates : nat)
| CtxStats (numeric_columns : nat) (statistics : string)
| CtxOutliers (outliers_by_column : list (string * Outliers))
| CtxImportance (sorted_imp : list (string * Q))
| CtxResults (context : Dict (option Payload)).

(** [bool(context)]: a dictionary is true when it has a key. *)
Definition context_truthy (c : Context) : bool :=
  match c with
  | CtxSummary _ _ _ _ => true
  | CtxStats _ _ => true
  | CtxOutliers o => negb (Nat.eqb (length o) 0)
  | CtxImportance i => negb (Nat.eqb (length i) 0)
  | CtxResults r => negb (Nat.eqb (length r) 0)
  end.

(** The description of an agent in the report: the text the model service
    wrote, or one of the five fixed texts of [_get_fallback_description]. *)
Inductive Description : Type :=
| Generated (text : string)
| FallbackCleaning
| FallbackEda
| FallbackAnomaly
| FallbackMl
| NotAvailable.

(** ** The world *)

(** Lines written to standard output by [print]. *)
Inductive Line : Type :=
| LineText (s : string)
| LineRetrying (delay : Q)
| LineLoaded (rows cols : nat)
| LineStatus (agent_name status : string) (execution_time : Q)
| LineTotal (total_time : Q)
| LinePdf (pdf_path : option string)
| LineAdkError (e : string)
| LineDescriptionError (agent_name e : string).

Record World : Type := mkWorld {
  heap : list DataFrame;      (* frame objects, addressed by position *)
  clock_reads : nat;          (* time.time() calls made so far *)
  random_reads : nat;         (* random.random() calls made so far *)
  adk_calls : nat;            (* call_adk coroutines awaited so far (a counter
                                 of the model, not of the program) *)
  adk_requests : nat;         (* generate_content requests sent so far *)
  slept : list Q;             (* delays given to asyncio.sleep, oldest first *)
  stdout : list Line          (* printed lines, oldest first *)
}.

(** A response object of the model service; [resp_text] is its [text]
    attribute. *)
Record Response : Type := mkResponse { resp_text : option string }.

(** The third-party libraries and the outside world. *)
Record Env : Type := mkEnv {
  (* the outside world *)
  clock : nat -> Q;                        (* the n-th time.time() reading *)
  random : nat -> Q;                       (* the n-th random.random() draw *)
  adk_available : bool;                    (* ADK_AVAILABLE: google.genai imported *)
  generate_content : nat -> string -> Exn + Response;
                                           (* the n-th request to the service *)
  completion : list nat;                   (* the event loop's choices: which of the
                                              pending tasks completes next *)
  (* files, chardet, os *)
  read_bytes : string -> Exn + string;
  chardet_detect : string -> option string;
  read_csv : string -> string -> Exn + DataFrame;
  os_makedirs : string -> Exn + unit;
  (* number and object formatting *)
  str_float : option Q -> string;          (* str(x) of a float; None is NaN *)
  format_float : nat -> Q -> string;       (* f"{x:.nf}" *)
  (* json *)
  json_dumps : Context -> Exn + string;
  json_loads : string -> Exn + string;
  (* pandas *)
  describe_all : DataFrame -> Exn + string;
  describe : DataFrame -> Exn + string;
  duplicated_sum : DataFrame -> Exn + nat;
  drop_duplicates : DataFrame -> Exn + DataFrame;
  median : list (option Q) -> Exn + option Q;
                                           (* None is NaN: no value in the column *)
  mode : list (option string) -> Exn + list string;
  quantile : list (option Q) -> Q -> Exn + Q;
  corr : DataFrame -> Exn + string;
  nunique : Series -> nat;
  dtype_name : Series -> string;           (* str(s.dtype) *)
  dtype_kind_iu : Series -> bool;
  (* matplotlib *)
  plot_heatmap : string -> Exn + string;
  plot_hist : string -> Series -> Exn + string;
  (* scikit-learn *)
  label_encode : Series -> Exn + Series;
  fit_importances : bool -> DataFrame -> Series -> Exn + list Q;
  (* re and reportlab *)
  clean_text : string -> string;
  build_pdf : string -> Dict AgentResult -> AgentResult -> list Description -> Exn + string
}.

(** [df.dtypes.astype(str).to_dict()] *)
Definition dtypes (env : Env) (df : DataFrame) : list (string * string) :=
  map (fun '(col, s) => (col, dtype_name env s)) df.

(** ** The monad of coroutines *)

Definition Py (A : Type) : Type := Env -> World -> Outcome A * World.

Definition ret {A} (a : A) : Py A := fun _ w => (Returned a, w).

Definition raise {A} (e : Exn) : Py A := fun _ w => (Raised e, w).

Definition bind {A B} (c : Py A) (k : A -> Py B) : Py B :=
  fun env w =>
    match c env w with
    | (Returned a, w') => k a env w'
    | (Raised e, w') => (Raised e, w')
    end.

(** [try: c except Exception as e: h e] *)
Definition try_except {A} (c : Py A) (h : Exn -> Py A) : Py A :=
  fun env w =>
    match c env w with
    | (Returned a, w') => (Returned a, w')
    | (Raised e, w') => h e env w'
    end.

Declare Scope py_scope.
Delimit Scope py_scope with py.
Notation "x <- c1 ;; c2" := (bind c1 (fun x => c2))
  (at level 100, c1 at next level, right associativity) : py_scope.
Notation "c1 ;; c2" := (bind c1 (fun _ => c2))
  (at level 100, right associativity) : py_scope.
Local Open Scope py_scope.

(** A library call: returns its value or raises what the library raised. *)
Definition lib {A} (f : Env -> Exn + A) : Py A :=
  fun env w =>
    match f env with
    | inr a => (Returned a, w)
    | inl e => (Raised e, w)
    end.

(** [for x in xs: body x], where the body may [return] from the enclosing
    function: [Some r] is an early return of [r]. *)
Fixpoint for_return {A R} (xs : list A) (body : A -> Py (option R)) : Py (option R) :=
  match xs with
  | [] => ret None
  | x :: rest =>
      r <- body x ;;
      match r with
      | Some v => ret (Some v)
      | None => for_return rest body
      end
  end.

(** [for x in xs: acc = body acc x] *)
Fixpoint for_fold {A S} (xs : list A) (acc : S) (body : S -> A -> Py S) : Py S :=
  match xs with
  | [] => ret acc
  | x :: rest => acc' <- body acc x ;; for_fold rest acc' body
  end.

(** [range(n)] *)
Definition range (n : Z) : list Z := map Z.of_nat (seq 0 (Z.to_nat n)).

(** ** Primitive effects *)

Definition time_time : Py Q :=
  fun env w =>
    (Returned (clock env (clock_reads w)),
     mkWorld (heap w) (S (clock_reads w)) (random_reads w) (adk_calls w)
             (adk_requests w) (slept w) (stdout w)).

Definition random_random : Py Q :=
  fun env w =>
    (Returned (random env (random_reads w)),
     mkWorld (heap w) (clock_reads w) (S (random_reads w)) (adk_calls w)
             (adk_requests w) (slept w) (stdout w)).

Definition asyncio_sleep (delay : Q) : Py unit :=
  fun _ w =>
    (Returned tt,
     mkWorld (heap w) (clock_reads w) (random_reads w) (adk_calls w)
             (adk_requests w) (slept w ++ [delay]) (stdout w)).

Definition print (l : Line) : Py unit :=
  fun _ w =>
    (Returned tt,
     mkWorld (heap w) (clock_reads w) (random_reads w) (adk_calls w)
             (adk_requests w) (slept w) (stdout w ++ [l])).

(** Entering a [call_adk] coroutine. *)
Definition enter_call_adk : Py unit :=
  fun _ w =>
    (Returned tt,
     mkWorld (heap w) (clock_reads w) (random_reads w) (S (adk_calls w))
             (adk_requests w) (slept w) (stdout w)).

(** [client.models.generate_content(...)], run in the executor. *)
Definition models_generate_content (full_prompt : string) : Py Response :=
  fun env w =>
    let w' := mkWorld (heap w) (clock_reads w) (random_reads w) (adk_calls w)
                      (S (adk_requests w)) (slept w) (stdout w) in
    match generate_content env (adk_requests w) full_prompt with
    | inr r => (Returned r, w')
    | inl e => (Raised e, w')
    end.

(** ** adk_helper.py *)

(** The one thing [safe_call_adk] asks of its [agent] argument: a
    [call_adk(prompt, context)] coroutine. [context] is [None] or the
    context dictionary. *)
Class HasCallAdk (A : Type) : Type :=
  call_adk : A -> string -> option Context -> Py (option string).

(** Floats. A finite double is the rational it stands for. [round_float]
    rounds a rational to the nearest double, ties to the even significand
    (IEEE 754 binary64: 53 bits of significand, exponents from that of the
    subnormals up); what it gives can lie beyond the largest double, and
    [float_of_int] tells. *)

(** [2 ** c] *)
Definition Qpow2 (c : Z) : Q :=
  if (0 <=? c)%Z then inject_Z (2 ^ c) else (1 # Z.to_pos (2 ^ (- c))).

(** The exponent [e] of a positive rational: [2^e <= q < 2^(e+1)]. *)
Definition ilog2 (q : Q) : Z :=
  let e := (Z.log2 (Qnum q) - Z.log2 (Z.pos (Qden q)))%Z in
  if Qle_bool (Qpow2 e) q then e else (e - 1)%Z.

(** The exponent of the last place of the double nearest to [q]. *)
Definition float_exponent (q : Q) : Z :=
  (Z.max (ilog2 (Qabs q)) (-1022) - 52)%Z.

(** [q / 2^c] as a numerator and a positive denominator. *)
Definition scaled (q : Q) (c : Z) : Z * Z :=
  if (0 <=? c)%Z then (Qnum q, Z.pos (Qden q) * 2 ^ c)%Z
  else (Qnum q * 2 ^ (- c), Z.pos (Qden q))%Z.

(** The integer nearest to [n / d], the even one of two. *)
Definition round_half_even (n d : Z) : Z :=
  let f := (n / d)%Z in
  match (2 * (n mod d) ?= d)%Z with
  | Lt => f
  | Gt => (f + 1)%Z
  | Eq => if Z.even f then f else (f + 1)%Z
  end.

Definition round_float (q : Q) : Q :=
  if Qeq_bool q 0 then 0%Q
  else
    let c := float_exponent q in
    let '(n, d) := scaled q c in
    Qred (inject_Z (round_half_even n d) * Qpow2 c).

(** The conversion of an [int] operand of float arithmetic, which raises
    OverflowError beyond the doubles. *)
Definition float_of_int (n : Z) : Exn + Q :=
  let x := round_float (inject_Z n) in
  if Qle_bool (Qpow2 1024) (Qabs x) then inl (Fault "int too large to convert to float")
  else inr x.

(** [base_delay * (2 ** attempt) + jitter], for an [int] [base_delay], as
    the default and every caller have it: the product is an [int], exact,
    and the sum with the float converts it. [jitter] is in [0, 1), where
    the sum of two doubles stays a double. *)
Definition backoff (base_delay : Z) (attempt : Z) (jitter : Q) : Exn + Q :=
  match float_of_int (base_delay * 2 ^ attempt) with
  | inl e => inl e
  | inr x => inr (round_float (x + jitter))
  end.

(** One turn of the loop of [safe_call_adk]: [Some r] when the turn ends in
    [return r]. *)
Definition attempt_once {A} `{HasCallAdk A} (agent : A) (prompt : string)
    (context : option Context) (base_delay : Z) (attempt : Z) :
    Py (option (option string)) :=
  result <- call_adk agent prompt context ;;
  match result with
  | Some text => ret (Some (Some text))
  | None =>
      jitter <- random_random ;;
      delay <- lib (fun _ => backoff base_delay attempt jitter) ;;
      print (LineRetrying delay) ;;
      asyncio_sleep delay ;;
      ret None
  end.

(** What follows the loop. *)
Definition after_attempts (r : option (option string)) : Py (option string) :=
  match r with
  | Some result => ret result
  | None => print (LineText "ADK call failed after retries.") ;; ret None
  end.

Definition safe_call_adk {A} `{HasCallAdk A} (agent : A) (prompt : string)
    (context : option Context) (retries : Z) (base_delay : Z) : Py (option string) :=
  r <- for_return (range retries) (attempt_once agent prompt context base_delay) ;;
  after_attempts r.

(** ** Objects on the heap *)

Definition set_heap (w : World) (h : list DataFrame) : World :=
  mkWorld h (clock_reads w) (random_reads w) (adk_calls w) (adk_requests w)
          (slept w) (stdout w).

(** Reading the frame a reference points to. A reference of the program
    always points to an object; the other branch makes the function total. *)
Definition get_frame (r : Ref) : Py DataFrame :=
  fun _ w =>
    match heap w !! r with
    | Some f => (Returned f, w)
    | None => (Raised (Fault "invalid reference"), w)
    end.

(** A new frame object. *)
Definition new_frame (f : DataFrame) : Py Ref :=
  fun _ w => (Returned (length (heap w)), set_heap w (heap w ++ [f])).

(** [df.copy()]: a new object with the same contents. *)
Definition copy (r : Ref) : Py Ref :=
  f <- get_frame r ;; new_frame f.

(** [df[col] = s]: the object [df] refers to is changed in place. *)
Definition setitem (r : Ref) (col : string) (s : Series) : Py unit :=
  f <- get_frame r ;;
  fun _ w => (Returned tt, set_heap w (<[r := with_column f col s]> (heap w))).

(** ** Names and clients *)

Definition ask : Py Env := fun env w => (Returned env, w).

(** Evaluating a global name of a module: [NameError] when the module
    neither defines nor imports it. *)
Definition lookup_global (globals : list string) (name : string) : Py unit :=
  if bool_decide (name ∈ globals) then ret tt else raise (NameError name).

(** A [genai.Client]. *)
Record Client : Type := mkClient { api_key : string }.

Definition nl : string := String "010"%char EmptyString.

(** The body that the six [call_adk] methods share: no request without the
    SDK or without a client; otherwise one request, whose [text] is the
    answer; any exception gives [None], after [on_error]. The sampling
    parameters (temperature, token limit) are the service's business. *)
Definition call_adk_with (adk_client : option Client) (on_error : Exn -> Py unit)
    (prompt : string) (context : option Context) : Py (option string) :=
  enter_call_adk ;;
  env <- ask ;;
  if negb (adk_available env) || negb (bool_decide (is_Some adk_client)) then ret None
  else
    try_except
      (full_prompt <-
         match context with
         | Some c =>
             if context_truthy c then
               dumped <- lib (fun env => json_dumps env c) ;;
               ret ("Context:" +:+ nl +:+ dumped +:+ nl +:+ nl +:+ prompt)
             else ret prompt
         | None => ret prompt
         end ;;
       response <- models_generate_content full_prompt ;;
       ret (resp_text response))
      (fun e => on_error e ;; ret None).

(** ** agents/data_cleaning.py *)

Module data_cleaning.

Definition globals : list string :=
  ["os"; "json"; "pd"; "np"; "time"; "dataclass"; "safe_call_adk"; "genai"; "types";
   "ADK_AVAILABLE"; "AgentResult"; "DataCleaningAgent"].

Record DataCleaningAgent : Type := mk {
  name : string;
  adk_client : option Client;
  adk_model_id : option string
}.

(** [DataCleaningAgent(adk_client=..., adk_model_id=...)] *)
Definition init (adk_client : option Client) (adk_model_id : option string) :
    DataCleaningAgent :=
  mk "Data Cleaning Agent" adk_client adk_model_id.

#[global] Instance call_adk_cleaning : HasCallAdk DataCleaningAgent :=
  fun self prompt context => call_adk_with (adk_client self) (fun _ => ret tt) prompt context.

(** The loop over the numeric columns of [cleaned_df]. *)
Definition fill_numeric (cleaned_df : Ref) (numeric_cols : list string)
    (operations : list string) : Py (list string) :=
  for_fold numeric_cols operations (fun operations col =>
    frame <- get_frame cleaned_df ;;
    match getitem frame col with
    | Some (NumSeries cells) =>
        if (0 <? null_count (NumSeries cells))%nat then
          median_val <- lib (fun env => median env cells) ;;
          setitem cleaned_df col (NumSeries (fillna_num cells median_val)) ;;
          env <- ask ;;
          ret (operations ++
               ["Filled " +:+ col +:+ " nulls with median: " +:+ str_float env median_val])
        else ret operations
    | _ => ret operations
    end).

(** The loop over the object columns of [cleaned_df]. *)
Definition fill_categorical (cleaned_df : Ref) (categorical_cols : list string)
    (operations : list string) : Py (list string) :=
  for_fold categorical_cols operations (fun operations col =>
    frame <- get_frame cleaned_df ;;
    match getitem frame col with
    | Some (ObjSeries cells) =>
        if (0 <? null_count (ObjSeries cells))%nat then
          modes <- lib (fun env => mode env cells) ;;
          let mode_val := match modes with m :: _ => m | [] => "Unknown" end in
          setitem cleaned_df col (ObjSeries (fillna_obj cells mode_val)) ;;
          ret (operations ++ ["Filled " +:+ col +:+ " nulls with mode: " +:+ mode_val])
        else ret operations
    | _ => ret operations
    end).

(** The body of the [try] block of [execute]. *)
Definition execute_body (self : DataCleaningAgent) (df : Ref) (start : Q) :
    Py AgentResult :=
  frame <- get_frame df ;;
  duplicates <- lib (fun env => duplicated_sum env frame) ;;
  env <- ask ;;
  let data_summary :=
    CtxSummary (shape frame) (dtypes env frame) (isnull_sum frame) duplicates in
  adk_resp <-
    (if bool_decide (is_Some (adk_client self)) then
       lookup_global globals "safe_call_adk" ;;
       safe_call_adk self "Provide a JSON cleaning strategy for this dataset."
                     (Some data_summary) 5 5
     else ret None) ;;
  cleaned_df <- copy df ;;
  frame <- get_frame df ;;
  let original_shape := shape frame in
  let missing_values_before := isnull_sum frame in
  adk_recommendations <-
    match adk_resp with
    | Some text =>
        if negb (String.eqb text "") then
          try_except
            (j <- lib (fun env => json_loads env text) ;; ret (Some (ParsedJson j)))
            (fun _ => ret (Some (RawText text)))
        else ret None
    | None => ret None
    end ;;
  cleaned <- get_frame cleaned_df ;;
  operations <- fill_numeric cleaned_df (columns (select_numeric cleaned)) [] ;;
  cleaned <- get_frame cleaned_df ;;
  operations <- fill_categorical cleaned_df (columns (select_object cleaned)) operations ;;
  cleaned <- get_frame cleaned_df ;;
  duplicates <- lib (fun env => duplicated_sum env cleaned) ;;
  deduplicated <-
    (if (0 <? duplicates)%nat then
       unique <- lib (fun env => drop_duplicates env cleaned) ;;
       cleaned_df <- new_frame unique ;;
       ret (cleaned_df,
            operations ++ ["Removed " +:+ pretty duplicates +:+ " duplicate rows"])
     else ret (cleaned_df, operations)) ;;
  let '(cleaned_df, operations) := deduplicated in
  cleaned <- get_frame cleaned_df ;;
  let cleaning_report :=
    CleaningReport.mk original_shape missing_values_before operations
                      adk_recommendations (shape cleaned) (isnull_sum cleaned) in
  now <- time_time ;;
  let exec_time := (now - start)%Q in
  ret (mkAgentResult (name self) "success" (Some (CleaningData cleaned_df cleaning_report))
                     exec_time None).

Definition execute (self : DataCleaningAgent) (df : Ref) : Py AgentResult :=
  start <- time_time ;;
  try_except (execute_body self df start)
    (fun e =>
       now <- time_time ;;
       let exec_time := (now - start)%Q in
       ret (mkAgentResult (name self) "error" None exec_time (Some (str_exn e)))).

End data_cleaning.

(** ** agents/eda.py *)

Module eda.

Record EDAAgent : Type := mk {
  name : string;
  charts_dir : string;
  adk_client : option Client;
  adk_model_id : option string
}.

(** [EDAAgent(adk_client=..., adk_model_id=...)]: the constructor creates
    the charts directory. *)
Definition init (adk_client : option Client) (adk_model_id : option string) :
    Py EDAAgent :=
  let charts_dir := "project/charts" in
  lib (fun env => os_makedirs env charts_dir) ;;
  ret (mk "EDA Agent" charts_dir adk_client adk_model_id).

#[global] Instance call_adk_eda : HasCallAdk EDAAgent :=
  fun self prompt context => call_adk_with (adk_client self) (fun _ => ret tt) prompt context.

(** The body of the [try] block of [execute]. An empty [correlations]
    dictionary is [None]. *)
Definition execute_body (self : EDAAgent) (df : Ref) (start_time : Q) : Py AgentResult :=
  frame <- get_frame df ;;
  basic_stats <- lib (fun env => describe_all env frame) ;;
  env <- ask ;;
  let data_types := dtypes env frame in
  let numeric_df := select_numeric frame in
  heat <-
    (if (1 <? length (columns numeric_df))%nat then
       corr_matrix <- lib (fun env => corr env numeric_df) ;;
       png <- lib (fun env => plot_heatmap env corr_matrix) ;;
       ret (Some corr_matrix, [("correlation_heatmap", png)])
     else ret (None, [])) ;;
  let '(correlations, visualizations) := heat in
  visualizations <-
    for_fold (take 3 numeric_df) visualizations (fun visualizations cs =>
      let '(col, s) := cs in
      png <- lib (fun env => plot_hist env col s) ;;
      ret (visualizations ++ [("distribution_" +:+ col, png)])) ;;
  adk_insights <-
    (if bool_decide (is_Some (adk_client self)) then
       try_except
         (statistics <- lib (fun env => describe env frame) ;;
          let stats_summary := CtxStats (length (columns numeric_df)) statistics in
          call_adk self "Provide 3 key insights from this dataset." (Some stats_summary))
         (fun _ => ret None)
     else ret None) ;;
  now <- time_time ;;
  let execution_time := (now - start_time)%Q in
  let eda_report :=
    EdaReport.mk basic_stats data_types correlations visualizations adk_insights in
  ret (mkAgentResult (name self) "success" (Some (EdaData eda_report)) execution_time None).

Definition execute (self : EDAAgent) (df : Ref) : Py AgentResult :=
  start_time <- time_time ;;
  try_except (execute_body self df start_time)
    (fun e =>
       now <- time_time ;;
       let execution_time := (now - start_time)%Q in
       ret (mkAgentResult (name self) "error" None execution_time (Some (str_exn e)))).

End eda.

(** ** agents/anomaly.py *)

Module anomaly.

(** What the module imports and defines. [safe_call_adk] is not among
    them: the module has no [from adk_helper import safe_call_adk]. *)
Definition globals : list string :=
  ["time"; "json"; "np"; "pd"; "dataclass"; "genai"; "types"; "ADK_AVAILABLE";
   "AgentResult"; "AnomalyAgent"].

Record AnomalyAgent : Type := mk {
  name : string;
  adk_client : option Client;
  adk_model_id : option string
}.

Definition init (adk_client : option Client) (adk_model_id : option string) :
    AnomalyAgent :=
  mk "Anomaly Detection Agent" adk_client adk_model_id.

#[global] Instance call_adk_anomaly : HasCallAdk AnomalyAgent :=
  fun self prompt context => call_adk_with (adk_client self) (fun _ => ret tt) prompt context.

(** [x < y] on floats *)
Definition Qlt_bool (x y : Q) : bool := negb (Qle_bool y x).

(** The cells outside [[lower_bound, upper_bound]]; a missing cell
    compares false. *)
Definition outlier_values (cells : list (option Q)) (lower_bound upper_bound : Q) : list Q :=
  omap (fun c =>
          match c with
          | Some x => if Qlt_bool x lower_bound || Qlt_bool upper_bound x then Some x else None
          | None => None
          end) cells.

(** The loop over the numeric columns: the three entries of [report] that
    it fills. The column labels of a frame are taken to be distinct. *)
Definition detect (frame : DataFrame) :
    Py (list (string * Outliers) * list string * nat) :=
  for_fold (select_numeric frame) ([], [], 0%nat) (fun acc cs =>
    let '(outliers_by_column, anomaly_summary, total_anomalies) := acc in
    let '(col, s) := cs in
    match s with
    | ObjSeries _ => ret acc
    | NumSeries cells =>
        q1 <- lib (fun env => quantile env cells (1#4)) ;;
        q3 <- lib (fun env => quantile env cells (3#4)) ;;
        let iqr := (q3 - q1)%Q in
        let lower_bound := (q1 - (3#2) * iqr)%Q in
        let upper_bound := (q3 + (3#2) * iqr)%Q in
        let outliers := outlier_values cells lower_bound upper_bound in
        if (0 <? length outliers)%nat then
          env <- ask ;;
          let pct := (inject_Z (Z.of_nat (length outliers))
                      / inject_Z (Z.of_nat (shape frame).1) * 100)%Q in
          ret (dict_set outliers_by_column col
                 (mkOutliers (length outliers) pct lower_bound upper_bound
                             (take 10 outliers)),
               anomaly_summary ++
                 [col +:+ ": " +:+ pretty (length outliers) +:+ " outliers ("
                  +:+ format_float env 2 pct +:+ "%)"],
               (total_anomalies + length outliers)%nat)
        else ret acc
    end).

(** The body of the [try] block of [execute]. *)
Definition execute_body (self : AnomalyAgent) (df : Ref) (start_time : Q) :
    Py AgentResult :=
  frame <- get_frame df ;;
  detected <- detect frame ;;
  let '(outliers_by_column, anomaly_summary, total_anomalies) := detected in
  adk_insights <-
    (if bool_decide (is_Some (adk_client self)) then
       try_except
         (let adk_prompt :=
            "Provide a concise business-oriented summary and recommendations "
            +:+ "based on the detected anomalies." in
          lookup_global globals "safe_call_adk" ;;
          safe_call_adk self adk_prompt (Some (CtxOutliers outliers_by_column)) 5 5)
         (fun _ => ret None)
     else ret None) ;;
  now <- time_time ;;
  let execution_time := (now - start_time)%Q in
  let report :=
    AnomalyReport.mk outliers_by_column anomaly_summary total_anomalies adk_insights in
  ret (mkAgentResult (name self) "success" (Some (AnomalyData report)) execution_time None).

Definition execute (self : AnomalyAgent) (df : Ref) : Py AgentResult :=
  start_time <- time_time ;;
  try_except (execute_body self df start_time)
    (fun e =>
       now <- time_time ;;
       let execution_time := (now - start_time)%Q in
       ret (mkAgentResult (name self) "error" None execution_time (Some (str_exn e)))).

End anomaly.

(** ** agents/ml_model.py *)

Module ml_model.

Record MLAgent : Type := mk {
  name : string;
  adk_client : option Client;
  adk_model_id : option string
}.

Definition init (adk_client : option Client) (adk_model_id : option string) : MLAgent :=
  mk "ML Agent" adk_client adk_model_id.

#[global] Instance call_adk_ml : HasCallAdk MLAgent :=
  fun self prompt context => call_adk_with (adk_client self) (fun _ => ret tt) prompt context.

(** One step of [sorted(..., key=score, reverse=True)]: the sort is stable. *)
Fixpoint insert_desc (x : string * Q) (l : list (string * Q)) : list (string * Q) :=
  match l with
  | [] => [x]
  | y :: rest =>
      if Qle_bool y.2 x.2 then x :: y :: rest else y :: insert_desc x rest
  end.

Definition sorted_desc (l : list (string * Q)) : list (string * Q) :=
  foldr insert_desc [] l.

(** The loop that encodes the object columns of [X_pre] in place. *)
Definition encode_categorical (X_pre : Ref) (cols : list string) : Py unit :=
  for_fold cols tt (fun _ col =>
    frame <- get_frame X_pre ;;
    match getitem frame col with
    | Some s =>
        encoded <- lib (fun env => label_encode env s) ;;
        setitem X_pre col encoded
    | None => raise (Fault col)
    end).

(** The body of the [try] block of [execute]. *)
Definition execute_body (self : MLAgent) (df : Ref) (target : option string)
    (start_time : Q) : Py AgentResult :=
  frame <- get_frame df ;;
  let numeric_df := select_numeric frame in
  let result0 := MlResult.mk "feature_importance" [] None [] None in
  chosen <-
    match target with
    | Some t => ret (inr t)
    | None =>
        if ((shape numeric_df).2 <? 2)%nat then
          now <- time_time ;;
          ret (inl (mkAgentResult (name self) "success" (Some (MlData result0))
                                  (now - start_time)%Q None))
        else
          match columns numeric_df with
          | c :: _ => ret (inr c)
          | [] => raise (Fault "index 0 is out of bounds for axis 0 with size 0")
          end
    end ;;
  match chosen with
  | inl early => ret early
  | inr target =>
      if negb (bool_decide (target ∈ columns frame)) then
        now <- time_time ;;
        ret (mkAgentResult (name self) "error" None (now - start_time)%Q
               (Some ("Target column " +:+ target +:+ " not in dataframe")))
      else
        let X := drop_column frame target in
        y <- match getitem frame target with
             | Some y => ret y
             | None => raise (Fault target)
             end ;;
        X_pre <- new_frame X ;;
        encode_categorical X_pre (columns (select_object X)) ;;
        encoded <- get_frame X_pre ;;
        env <- ask ;;
        let classifier := dtype_kind_iu env y && (nunique env y <=? 10)%nat in
        feature_importances <-
          lib (fun env => fit_importances env classifier (fillna_zero encoded) y) ;;
        let importances := zip (columns encoded) feature_importances in
        let sorted_imp := sorted_desc importances in
        let insights :=
          map (fun '(feat, score) =>
                 feat +:+ " important (score=" +:+ format_float env 3 score +:+ ")")
              (take 3 sorted_imp) in
        adk_insights <-
          (if bool_decide (is_Some (adk_client self)) then
             try_except
               (let adk_prompt :=
                  "Provide business-relevant insights based on the top features and model importance." in
                call_adk self adk_prompt (Some (CtxImportance sorted_imp)))
               (fun _ => ret None)
           else ret None) ;;
        now <- time_time ;;
        let execution_time := (now - start_time)%Q in
        let result :=
          MlResult.mk "feature_importance" sorted_imp (Some target) insights adk_insights in
        ret (mkAgentResult (name self) "success" (Some (MlData result)) execution_time None)
  end.

Definition execute (self : MLAgent) (df : Ref) (target : option string) : Py AgentResult :=
  start_time <- time_time ;;
  try_except (execute_body self df target start_time)
    (fun e =>
       now <- time_time ;;
       let execution_time := (now - start_time)%Q in
       ret (mkAgentResult (name self) "error" None execution_time (Some (str_exn e)))).

End ml_model.

(** ** String methods used by the agents *)

(** Whitespace as [str.strip] sees it, among the code points below 256:
    tab to carriage return, the separators FS to US, the space, NEL and the
    no-break space. *)
Definition is_space (c : ascii) : bool :=
  let n := nat_of_ascii c in
  ((9 <=? n) && (n <=? 13) || (28 <=? n) && (n <=? 32) || (n =? 133) || (n =? 160))%nat.

Fixpoint lstrip (cs : list ascii) : list ascii :=
  match cs with
  | [] => []
  | c :: rest => if is_space c then lstrip rest else cs
  end.

(** [s.strip()] *)
Definition strip (s : string) : string :=
  string_of_list_ascii (rev (lstrip (rev (lstrip (list_ascii_of_string s))))).

Fixpoint split_newline (cs : list ascii) : list (list ascii) :=
  match cs with
  | [] => [[]]
  | c :: rest =>
      if Ascii.eqb c "010"%char then [] :: split_newline rest
      else match split_newline rest with
           | l :: ls => (c :: l) :: ls
           | [] => [[c]]
           end
  end.

(** [s.split("\n")] *)
Definition split_lines (s : string) : list string :=
  map string_of_list_ascii (split_newline (list_ascii_of_string s)).

(** [[line.strip() for line in s.split("\n") if line.strip()]] *)
Definition stripped_lines (s : string) : list string :=
  filter (fun l => l ≠ "") (map strip (split_lines s)).

(** ["\n".join(lines)] *)
Fixpoint join_lines (lines : list string) : string :=
  match lines with
  | [] => ""
  | [l] => l
  | l :: rest => l +:+ nl +:+ join_lines rest
  end.

Definition map_ascii (f : ascii -> ascii) (s : string) : string :=
  string_of_list_ascii (map f (list_ascii_of_string s)).

(** [s.lower()] and [s.upper()], on ASCII *)
Definition lower (s : string) : string :=
  map_ascii (fun c =>
    let n := nat_of_ascii c in
    if ((65 <=? n) && (n <=? 90))%nat then ascii_of_nat (n + 32) else c) s.

Definition upper (s : string) : string :=
  map_ascii (fun c =>
    let n := nat_of_ascii c in
    if ((97 <=? n) && (n <=? 122))%nat then ascii_of_nat (n - 32) else c) s.

(** [s.replace(c, '')] for a one-character [c] *)
Definition remove_char (c : ascii) (s : string) : string :=
  string_of_list_ascii (filter (fun x => x ≠ c) (list_ascii_of_string s)).

(** The exception of [None.get(...)]. *)
Definition none_has_no_get : Exn :=
  AttributeError "'NoneType' object has no attribute 'get'".

(** ** agents/insights.py *)

Module insights.

Record BusinessInsightsAgent : Type := mk {
  name : string;
  adk_client : option Client;
  adk_model_id : option string
}.

Definition init (adk_client : option Client) (adk_model_id : option string) :
    BusinessInsightsAgent :=
  mk "Business Insights Agent" adk_client adk_model_id.

#[global] Instance call_adk_insights : HasCallAdk BusinessInsightsAgent :=
  fun self prompt context => call_adk_with (adk_client self) (fun _ => ret tt) prompt context.

(** [k in all_results and all_results[k].status == 'success'] *)
Definition succeeded (all_results : Dict AgentResult) (k : string) : option AgentResult :=
  match dict_get all_results k with
  | Some v => if String.eqb (status v) "success" then Some v else None
  | None => None
  end.

(** [v.data.get('report', {}).get('original_shape', [0, 0])] *)
Definition get_original_shape (v : AgentResult) : Py (nat * nat) :=
  match data v with
  | None => raise none_has_no_get
  | Some (CleaningData _ cr) => ret (CleaningReport.original_shape cr)
  | Some _ => ret (0, 0)%nat
  end.

(** [v.data.get('total_anomalies', 0)] *)
Definition get_total_anomalies (v : AgentResult) : Py nat :=
  match data v with
  | None => raise none_has_no_get
  | Some (AnomalyData an) => ret (AnomalyReport.total_anomalies an)
  | Some _ => ret 0%nat
  end.

(** [v.data.get('insights', [])] *)
Definition get_insights (v : AgentResult) : Py (list string) :=
  match data v with
  | None => raise none_has_no_get
  | Some (MlData ml) => ret (MlResult.insights ml)
  | Some _ => ret []
  end.

(** The body of the [try] block of [execute]. *)
Definition execute_body (self : BusinessInsightsAgent) (all_results : Dict AgentResult)
    (start_time : Q) : Py AgentResult :=
  let context :=
    map (fun '(k, v) => (k, if String.eqb (status v) "success" then data v else None))
        all_results in
  from_adk <-
    (if bool_decide (is_Some (adk_client self)) then
       let prompt :=
         "Generate a concise executive summary, top key findings, "
         +:+ "and actionable recommendations based on the dataset analysis results." in
       adk_text <- call_adk self prompt (Some (CtxResults context)) ;;
       match adk_text with
       | Some text =>
           match stripped_lines text with
           | first :: rest => ret (first, take 5 rest, take 5 (drop 6 (first :: rest)))
           | [] => ret ("", [], [])
           end
       | None => ret ("", [], [])
       end
     else ret ("", [], [])) ;;
  let '(executive_summary, key_findings, recommendations) := from_adk in
  executive_summary <-
    (if String.eqb executive_summary "" then
       match succeeded all_results "cleaning" with
       | Some v =>
           rc <- get_original_shape v ;;
           let '(rows, cols) := rc in
           ret ("Processed dataset with " +:+ pretty rows +:+ " rows and "
                +:+ pretty cols +:+ " columns.")
       | None => ret executive_summary
       end
     else ret executive_summary) ;;
  with_anomaly <-
    match succeeded all_results "anomaly" with
    | Some v =>
        total_anomalies <- get_total_anomalies v ;;
        if (0 <? total_anomalies)%nat then
          ret (key_findings ++
                 ["Detected " +:+ pretty total_anomalies
                  +:+ " anomalies across numeric columns."],
               recommendations ++
                 ["Investigate outliers for data quality or business trends."])
        else ret (key_findings, recommendations)
    | None => ret (key_findings, recommendations)
    end ;;
  let '(key_findings, recommendations) := with_anomaly in
  with_ml <-
    match succeeded all_results "ml" with
    | Some v =>
        ml_insights <- get_insights v ;;
        match ml_insights with
        | [] => ret (key_findings, recommendations)
        | _ =>
            ret (key_findings ++ take 5 ml_insights,
                 recommendations ++
                   ["Leverage top features to improve predictive modeling and decision-making."])
        end
    | None => ret (key_findings, recommendations)
    end ;;
  let '(key_findings, recommendations) := with_ml in
  let executive_summary :=
    if String.eqb executive_summary "" then
      "No major findings detected. Dataset appears structured normally."
    else executive_summary in
  let combined_lines := [executive_summary] ++ key_findings ++ recommendations in
  let adk_insights := join_lines (filter (fun l => l ≠ "") combined_lines) in
  let insights :=
    Insights.mk executive_summary key_findings recommendations adk_insights
                (executive_summary, key_findings, recommendations) in
  now <- time_time ;;
  let execution_time := (now - start_time)%Q in
  ret (mkAgentResult (name self) "success" (Some (InsightsData insights)) execution_time None).

Definition execute (self : BusinessInsightsAgent) (all_results : Dict AgentResult) :
    Py AgentResult :=
  start_time <- time_time ;;
  try_except (execute_body self all_results start_time)
    (fun e =>
       now <- time_time ;;
       ret (mkAgentResult (name self) "error" None (now - start_time)%Q (Some (str_exn e)))).

End insights.

(** ** agents/report.py *)

Module report.

Record ReportAgent : Type := mk {
  name : string;
  output_pdf_dir : string;
  adk_client : option Client;
  adk_model_id : option string
}.

Definition init (output_pdf_dir : string) (adk_client : option Client)
    (adk_model_id : option string) : ReportAgent :=
  mk "Report Generation Agent" output_pdf_dir adk_client adk_model_id.

(** This [call_adk] prints the exception before it gives [None]. *)
#[global] Instance call_adk_report : HasCallAdk ReportAgent :=
  fun self prompt context =>
    call_adk_with (adk_client self) (fun e => print (LineAdkError (str_exn e)))
                  prompt context.

(** [_clean_text]: the regular expressions are [re]'s. *)
Definition _clean_text (text : string) : Py string :=
  if String.eqb text "" then ret ""
  else env <- ask ;; ret (strip (clean_text env text)).

(** [agent_context.get(agent_key.lower(), default)]: purpose, tasks, output *)
Definition agent_context (agent_key : string) : string * string * string :=
  let k := lower agent_key in
  if String.eqb k "cleaning" then
    ("data preparation and quality assurance",
     "handles missing values, resolves inconsistent formats, removes duplicates, standardizes data types",
     "clean, reliable dataset ready for analysis")
  else if String.eqb k "eda" then
    ("exploratory data analysis and pattern discovery",
     "generates statistical summaries, creates visualizations, identifies trends, correlations, and distributions",
     "insights about data structure, relationships, and quality issues")
  else if String.eqb k "anomaly" then
    ("outlier detection and data quality monitoring",
     "identifies unusual patterns using IQR-based statistical methods, flags potential errors or special events",
     "summary of anomalies with affected features and counts")
  else if String.eqb k "ml" then
    ("predictive modeling and feature analysis",
     "trains baseline models, calculates feature importance scores, identifies key predictive patterns",
     "ranked features showing what drives the target outcome")
  else ("data analysis", "performs analysis tasks", "analysis results").

(** The head of the prompt of [_generate_agent_description]; the fixed
    requirements and the example that follow in the template are left to
    the service. *)
Definition description_prompt (agent_name : string) (context : string * string * string) :
    string :=
  let '(purpose, tasks, output) := context in
  "Generate a concise, professional description for the " +:+ agent_name
  +:+ " in a data analysis pipeline." +:+ nl +:+ nl
  +:+ "Agent Details:" +:+ nl
  +:+ "- Purpose: " +:+ purpose +:+ nl
  +:+ "- Key Tasks: " +:+ tasks +:+ nl
  +:+ "- Output: " +:+ output.

(** [_get_fallback_description] *)
Definition _get_fallback_description (agent_key : string) : Description :=
  let k := lower agent_key in
  if String.eqb k "cleaning" then FallbackCleaning
  else if String.eqb k "eda" then FallbackEda
  else if String.eqb k "anomaly" then FallbackAnomaly
  else if String.eqb k "ml" then FallbackMl
  else NotAvailable.

Definition _generate_agent_description (self : ReportAgent) (agent_name agent_key : string) :
    Py Description :=
  let context := agent_context agent_key in
  generated <-
    (if bool_decide (is_Some (adk_client self)) then
       try_except
         (response <- call_adk self (description_prompt agent_name context) None ;;
          match response with
          | Some text =>
              if String.eqb text "" then ret None
              else
                description <- _clean_text text ;;
                ret (Some (remove_char "#"%char (remove_char "*"%char description)))
          | None => ret None
          end)
         (fun e => print (LineDescriptionError agent_name (str_exn e)) ;; ret None)
     else ret None) ;;
  match generated with
  | Some description => ret (Generated description)
  | None => ret (_get_fallback_description agent_key)
  end.

(** [_generate_pdf_report]. The story is reportlab's. Its flowables are
    made before, between and after the requests for the descriptions, and
    making one can raise: [build_pdf env dir results insights ds] stands for
    what reportlab does once the descriptions [ds] are there and until the
    next one is asked for. With no description yet that is the head of the
    story, the summary table and the heading of the first section; with
    some, the rest of the section just described and the heading of the
    next one; with all of them, the rest of the last section and
    [doc.build], and what it gives is the file name. *)
Definition _generate_pdf_report (self : ReportAgent) (all_results : Dict AgentResult)
    (business_insights : AgentResult) : Py string :=
  lib (fun env => os_makedirs env (output_pdf_dir self)) ;;
  descriptions <-
    for_fold all_results [] (fun descriptions kv =>
      let '(key, result) := kv in
      lib (fun env => build_pdf env (output_pdf_dir self) all_results business_insights
                                descriptions) ;;
      description <- _generate_agent_description self (agent_name result) key ;;
      ret (descriptions ++ [description])) ;;
  lib (fun env => build_pdf env (output_pdf_dir self) all_results business_insights
                            descriptions).

(** The body of the [try] block of [execute]. *)
Definition execute_body (self : ReportAgent) (all_results : Dict AgentResult)
    (business_insights : AgentResult) (start_time : Q) : Py AgentResult :=
  pdf_path <- _generate_pdf_report self all_results business_insights ;;
  now <- time_time ;;
  let exec_time := (now - start_time)%Q in
  ret (mkAgentResult (name self) "success" (Some (ReportData pdf_path)) exec_time None).

Definition execute (self : ReportAgent) (all_results : Dict AgentResult)
    (business_insights : AgentResult) : Py AgentResult :=
  start_time <- time_time ;;
  try_except (execute_body self all_results business_insights start_time)
    (fun e =>
       now <- time_time ;;
       ret (mkAgentResult (name self) "error" None (now - start_time)%Q (Some (str_exn e)))).

End report.

(** ** asyncio.gather *)

(** The order in which the tasks of a phase complete. At each step one of
    the pending tasks completes: the one the next choice designates, modulo
    the number of pending tasks (the first one when the choices run out). *)
Fixpoint completion_order (n : nat) (choices : list nat) (pending : list nat) : list nat :=
  match n with
  | O => []
  | S n' =>
      let i := (hd 0%nat choices `mod` length pending)%nat in
      match pending !! i with
      | Some t => t :: completion_order n' (tl choices) (delete i pending)
      | None => []
      end
  end.

(** What [asyncio.gather(..., return_exceptions=True)] stores for an
    awaitable: the value it returned, the [Exception] it raised, or an
    exception object of another kind: a [BaseException] that is not an
    [Exception], such as the [CancelledError] of a task that was cancelled.
    The awaitables of the model end by returning or by raising an
    [Exception]; the third case is there for the code that reads the
    list. *)
Inductive Gathered (A : Type) : Type :=
| Value (a : A)
| ExceptionObject (e : Exn)
| OtherObject (type_name : string).
Arguments Value {A} a.
Arguments ExceptionObject {A} e.
Arguments OtherObject {A} type_name.

(** Running one awaitable to completion, its exception kept as a value. *)
Definition settle {A} (aw : Py A) : Py (Gathered A) :=
  fun env w =>
    match aw env w with
    | (Returned a, w') => (Returned (Value a), w')
    | (Raised e, w') => (Returned (ExceptionObject e), w')
    end.

(** [asyncio.gather] with [return_exceptions=True]: the awaitables
    complete in the order the event loop decides; the result of the i-th
    one lands in the i-th slot whenever it completes, and an exception is
    stored in place of a result. Each awaitable is run in one piece. *)
Definition gather {A} (aws : list (Py A)) : Py (list (Gathered A)) :=
  env <- ask ;;
  let order := completion_order (length aws) (completion env) (seq 0 (length aws)) in
  slots <-
    for_fold order (replicate (length aws) None) (fun slots i =>
      match aws !! i with
      | Some aw => res <- settle aw ;; ret (<[i := Some res]> slots)
      | None => ret slots
      end) ;;
  ret (omap id slots).

(** ** main.py *)

Module main.

Definition load_csv_with_fallback (path : string) : Py Ref :=
  raw <- lib (fun env => read_bytes env path) ;;
  env <- ask ;;
  let enc :=
    match chardet_detect env raw with
    | Some e => if String.eqb e "" then "latin1" else e
    | None => "latin1"
    end in
  try_except
    (frame <- lib (fun env => read_csv env path enc) ;; new_frame frame)
    (fun _ => frame <- lib (fun env => read_csv env path "latin1") ;; new_frame frame).

(** The object [type('R', (), {...})()] that stands in for the result of a
    task that raised. *)
Definition R (k : string) (res : Exn) : AgentResult :=
  mkAgentResult k "error" None 0 (Some (str_exn res)).

(** The end of a turn of the loop that fills [results]: the status line
    of [results[k]]. The lookup follows the assignment and finds the
    envelope. *)
Definition print_status (results : Dict AgentResult) (k : string) : Py (Dict AgentResult) :=
  match dict_get results k with
  | Some r =>
      let status := if String.eqb (status r) "success" then "SUCCESS" else "ERROR" in
      print (LineStatus (agent_name r) status (execution_time r)) ;;
      ret results
  | None => raise (Fault k)
  end.

(** One turn of the loop that fills [results]. An [Exception] is replaced
    by the object [R]; anything else is stored as it is, and an exception
    object that is not an [Exception] has no [status] to print. *)
Definition record_result (results : Dict AgentResult)
    (kres : string * Gathered AgentResult) : Py (Dict AgentResult) :=
  let '(k, res) := kres in
  match res with
  | ExceptionObject e => print_status (dict_set results k (R k e)) k
  | Value r => print_status (dict_set results k r) k
  | OtherObject type_name =>
      raise (AttributeError ("'" +:+ type_name +:+ "' object has no attribute 'status'"))
  end.

(** Phase 1 of [run_pipeline], from [keys = list(tasks.keys())] to the end
    of the loop that fills [results]. *)
Definition run_phase (tasks : Dict (Py AgentResult)) : Py (Dict AgentResult) :=
  let keys := dict_keys tasks in
  completed <- gather (map snd tasks) ;;
  for_fold (zip keys completed) [] record_result.

(** The dictionary [run_pipeline] returns. *)
Record Results : Type := mkResults {
  agent_results : Dict AgentResult;
  insights : AgentResult;
  report : AgentResult
}.

Definition rule : string := "============================================================".

(** [run_pipeline], given the module globals [ADK_CLIENT] and [ADK_MODEL]. *)
Definition run_pipeline (ADK_CLIENT : option Client) (ADK_MODEL : option string)
    (csv_path : string) (target : option string) : Py Results :=
  start_total <- time_time ;;
  print (LineText (nl +:+ rule)) ;;
  print (LineText "Multi-Agent Pipeline Starting") ;;
  print (LineText rule) ;;
  df <- load_csv_with_fallback csv_path ;;
  frame <- get_frame df ;;
  print (LineLoaded (shape frame).1 (shape frame).2) ;;
  let cleaning_agent := data_cleaning.init ADK_CLIENT ADK_MODEL in
  eda_agent <- eda.init ADK_CLIENT ADK_MODEL ;;
  let anomaly_agent := anomaly.init ADK_CLIENT ADK_MODEL in
  let ml_agent := ml_model.init ADK_CLIENT ADK_MODEL in
  let insights_agent := insights.init ADK_CLIENT ADK_MODEL in
  let report_agent := report.init "project" ADK_CLIENT ADK_MODEL in
  let tasks :=
    [("cleaning", data_cleaning.execute cleaning_agent df);
     ("eda", eda.execute eda_agent df);
     ("anomaly", anomaly.execute anomaly_agent df);
     ("ml", ml_model.execute ml_agent df target)] in
  results <- run_phase tasks ;;
  insights <- insights.execute insights_agent results ;;
  print (LineStatus (agent_name insights) (upper (status insights))
                    (execution_time insights)) ;;
  report <- report.execute report_agent results insights ;;
  print (LineStatus (agent_name report) (upper (status report)) (execution_time report)) ;;
  now <- time_time ;;
  let total_time := (now - start_total)%Q in
  print (LineText rule) ;;
  print (LineTotal total_time) ;;
  pdf_path <-
    match data report with
    | None => raise none_has_no_get
    | Some (ReportData pdf_path) => ret (Some pdf_path)
    | Some _ => ret None
    end ;;
  print (LinePdf pdf_path) ;;
  ret (mkResults results insights report).

End main.

(** ** webapp/app.py *)

(** [s.endswith(suffix)] *)
Definition endswith (s suffix : string) : bool :=
  bool_decide (list_ascii_of_string suffix `suffix_of` list_ascii_of_string s).

(** [sep.join(parts)] *)
Fixpoint join (sep : string) (parts : list string) : string :=
  match parts with
  | [] => ""
  | [p] => p
  | p :: rest => p +:+ sep +:+ join sep rest
  end.

Module app.

(** An uploaded file: a werkzeug [FileStorage]. *)
Record FileStorage : Type := mkFileStorage {
  filename : option string;
  stream : string
}.

(** The parts of [request] the handlers read. *)
Record Request : Type := mkRequest {
  files : Dict FileStorage;
  form : Dict string;
  args : Dict string
}.

(** A template with the values it is rendered with. *)
Inductive Page : Type :=
| IndexPage
| ResultsPage (pdf_path : option string) (results : Dict AgentResult)
    (insights : AgentResult) (target_column : option string) (dataset_shape : nat * nat).

Inductive Response : Type :=
| Redirect (location : string)
| Html (body : string)
| Attachment (path : string).

(** What Flask, the file system, pandas and the pipeline's environment do
    for a handler. *)
Record Host : Type := mkHost {
  uuid4 : string;                              (* str(uuid.uuid4()) *)
  flash_session : Exn + unit;                  (* storing a message in the session *)
  render_template : Page -> Exn + string;
  file_save : FileStorage -> string -> Exn + unit;
  pd_read_csv : string -> Exn + DataFrame;     (* pd.read_csv(path) *)
  dtype_name : Series -> string;               (* the name the dtype compares equal to *)
  os_remove : nat -> string -> Exn + unit;     (* the n-th os.remove *)
  os_path_exists : string -> bool;
  send_file : string -> Exn + unit;
  pipeline_env : Env
}.

(** The state a handler works on. [remove_calls] and [runs] are counters
    of the model: the calls of [os.remove] so far, and the arguments of the
    calls of [run_pipeline]. *)
Record Server : Type := mkServer {
  flashed : list (string * string);            (* message, category *)
  saved : list string;                         (* the paths files were saved to *)
  removed : list string;                       (* the paths that were removed *)
  remove_calls : nat;
  runs : list (string * option string);
  world : World
}.

(** The handlers' monad: the host is read, the server state is threaded,
    an exception ends the handler. *)
Definition Web (A : Type) : Type := Host -> Server -> Outcome A * Server.

Definition wret {A} (a : A) : Web A := fun _ s => (Returned a, s).

Definition wraise {A} (e : Exn) : Web A := fun _ s => (Raised e, s).

Definition wbind {A B} (c : Web A) (k : A -> Web B) : Web B :=
  fun host s =>
    match c host s with
    | (Returned a, s') => k a host s'
    | (Raised e, s') => (Raised e, s')
    end.

Definition wtry {A} (c : Web A) (h : Exn -> Web A) : Web A :=
  fun host s =>
    match c host s with
    | (Returned a, s') => (Returned a, s')
    | (Raised e, s') => h e host s'
    end.

Declare Scope web_scope.
Delimit Scope web_scope with web.
Notation "x <- c1 ;; c2" := (wbind c1 (fun x => c2))
  (at level 100, c1 at next level, right associativity) : web_scope.
Notation "c1 ;; c2" := (wbind c1 (fun _ => c2))
  (at level 100, right associativity) : web_scope.
Local Open Scope web_scope.

(** The host of the request. *)
Definition wask : Web Host := fun host s => (Returned host, s).

(** A call that does not change the server state. *)
Definition host_call {A} (f : Host -> Exn + A) : Web A :=
  fun host s =>
    match f host with
    | inr a => (Returned a, s)
    | inl e => (Raised e, s)
    end.

(** [flash(message, category)] *)
Definition flash (message category : string) : Web unit :=
  fun host s =>
    match flash_session host with
    | inr _ =>
        (Returned tt,
         mkServer (flashed s ++ [(message, category)]) (saved s) (removed s)
                  (remove_calls s) (runs s) (world s))
    | inl e => (Raised e, s)
    end.

(** [file.save(path)] *)
Definition save (file : FileStorage) (path : string) : Web unit :=
  fun host s =>
    match file_save host file path with
    | inr _ =>
        (Returned tt,
         mkServer (flashed s) (saved s ++ [path]) (removed s) (remove_calls s) (runs s)
                  (world s))
    | inl e => (Raised e, s)
    end.

(** [os.remove(path)] *)
Definition remove (path : string) : Web unit :=
  fun host s =>
    match os_remove host (remove_calls s) path with
    | inr _ =>
        (Returned tt,
         mkServer (flashed s) (saved s) (removed s ++ [path]) (S (remove_calls s)) (runs s)
                  (world s))
    | inl e =>
        (Raised e,
         mkServer (flashed s) (saved s) (removed s) (S (remove_calls s)) (runs s) (world s))
    end.

(** [asyncio.run(run_pipeline(path, target))]: the coroutine runs on the
    world of the server. *)
Definition asyncio_run_pipeline (ADK_CLIENT : option Client) (ADK_MODEL : option string)
    (path : string) (target : option string) : Web main.Results :=
  fun host s =>
    let '(o, w') :=
      main.run_pipeline ADK_CLIENT ADK_MODEL path target (pipeline_env host) (world s) in
    (o, mkServer (flashed s) (saved s) (removed s) (remove_calls s)
                 (runs s ++ [(path, target)]) w').

(** [home] *)
Definition home : Web Response :=
  body <- host_call (fun host => render_template host IndexPage) ;;
  wret (Html body).

(** [request.form.get("target", "").strip() or None] *)
Definition form_target (request : Request) : option string :=
  let t := strip (default "" (dict_get (form request) "target")) in
  if String.eqb t "" then None else Some t.

(** [os.path.join(UPLOAD_FOLDER, f"{file_id}.csv")] *)
Definition upload_path (file_id : string) : string :=
  "uploads/" +:+ file_id +:+ ".csv".

(** The first [try] block of [analyze]: [inl] is the response of an early
    [return], [inr] the frame the block leaves in [df]. *)
Definition validate (filepath : string) (target : option string) :
    Web (Response + DataFrame) :=
  wtry
    (df <- host_call (fun host => pd_read_csv host filepath) ;;
     match target with
     | Some t =>
         if bool_decide (t ∉ columns df) then
           flash ("Target column '" +:+ t +:+ "' not found in CSV. Available columns: "
                  +:+ join ", " (columns df)) "error" ;;
           remove filepath ;;
           wret (inl (Redirect "/"))
         else
           match getitem df t with
           | Some s =>
               host <- wask ;;
               (if bool_decide (dtype_name host s ∉ ["int64"; "float64"]) then
                  flash ("Warning: Target column '" +:+ t
                         +:+ "' is not numeric. ML predictions may not work as expected.")
                        "warning"
                else wret tt) ;;
               wret (inr df)
           | None => wraise (Fault t)
           end
     | None => wret (inr df)
     end)
    (fun e =>
       flash ("Error reading CSV file: " +:+ str_exn e) "error" ;;
       remove filepath ;;
       wret (inl (Redirect "/"))).

(** The second [try] block of [analyze]. *)
Definition run_and_render (ADK_CLIENT : option Client) (ADK_MODEL : option string)
    (filepath : string) (target : option string) (df : DataFrame) : Web Response :=
  wtry
    (results <- asyncio_run_pipeline ADK_CLIENT ADK_MODEL filepath target ;;
     pdf_path <-
       match data (main.report results) with
       | None => wraise none_has_no_get
       | Some (ReportData pdf_path) => wret (Some pdf_path)
       | Some _ => wret None
       end ;;
     body <- host_call (fun host =>
               render_template host
                 (ResultsPage pdf_path (main.agent_results results) (main.insights results)
                              target (shape df))) ;;
     wret (Html body))
    (fun e =>
       flash ("Error during analysis: " +:+ str_exn e) "error" ;;
       host <- wask ;;
       (if os_path_exists host filepath then remove filepath else wret tt) ;;
       wret (Redirect "/")).

(** [analyze], given the globals [ADK_CLIENT] and [ADK_MODEL] of [main]. *)
Definition analyze (ADK_CLIENT : option Client) (ADK_MODEL : option string)
    (request : Request) : Web Response :=
  match dict_get (files request) "file" with
  | None => flash "No file uploaded." "error" ;; wret (Redirect "/")
  | Some file =>
      let target := form_target request in
      match filename file with
      | None => wraise (AttributeError "'NoneType' object has no attribute 'endswith'")
      | Some name =>
          if String.eqb name "" then
            flash "No file selected." "error" ;; wret (Redirect "/")
          else if negb (endswith name ".csv") then
            flash "Please upload a CSV file." "error" ;; wret (Redirect "/")
          else
            host <- wask ;;
            let file_id := uuid4 host in
            let filepath := upload_path file_id in
            save file filepath ;;
            checked <- validate filepath target ;;
            match checked with
            | inl response => wret response
            | inr df => run_and_render ADK_CLIENT ADK_MODEL filepath target df
            end
      end
  end.

(** [download] *)
Definition download (request : Request) : Web Response :=
  let not_found := (flash "File not found." "error" ;; wret (Redirect "/")) in
  match dict_get (args request) "path" with
  | Some path =>
      if String.eqb path "" then not_found
      else
        host <- wask ;;
        if os_path_exists host path then
          host_call (fun host => send_file host path) ;;
          wret (Attachment path)
        else not_found
  | None => not_found
  end.

End app.

(** ** Vocabulary of the properties *)

(** The operation given to [safe_call_adk] counts its own calls in
    [adk_calls], as every [call_adk] built on [call_adk_with] does. *)
Definition counts_calls {A} `{HasCallAdk A} (env : Env) (agent : A) : Prop :=
  ∀ prompt context w,
    adk_calls (call_adk agent prompt context env w).2 = S (adk_calls w).

(** The operation always returns an empty result. *)
Definition always_empty {A} `{HasCallAdk A} (env : Env) (agent : A) : Prop :=
  ∀ prompt context w, (call_adk agent prompt context env w).1 = Returned None.

(** The operation does not sleep by itself. *)
Definition never_sleeps {A} `{HasCallAdk A} (env : Env) (agent : A) : Prop :=
  ∀ prompt context w, slept (call_adk agent prompt context env w).2 = slept w.

(** The world after the backoff that follows an empty answer: the jitter
    drawn, the line printed and [delay] slept. *)
Definition backed_off (delay : Q) (w : World) : World :=
  mkWorld (heap w) (clock_reads w) (S (random_reads w)) (adk_calls w) (adk_requests w)
          (slept w ++ [delay]) (stdout w ++ [LineRetrying delay]).

(** [empty_attempts agent prompt context base_delay env attempt w delays w']:
    from the world [w], the attempts numbered [attempt], [attempt + 1], ...
    get an empty answer each, as many of them as there are [delays]; each
    is followed by its backoff, which computes and sleeps its delay, and
    [w'] is the world after the last one. *)
Inductive empty_attempts {A} `{HasCallAdk A} (agent : A) (prompt : string)
    (context : option Context) (base_delay : Z) (env : Env) :
    nat -> World -> list Q -> World -> Prop :=
| no_attempt attempt w : empty_attempts agent prompt context base_delay env attempt w [] w
| empty_attempt attempt w w1 delay delays w' :
    call_adk agent prompt context env w = (Returned None, w1) ->
    backoff base_delay (Z.of_nat attempt) (random env (random_reads w1)) = inr delay ->
    empty_attempts agent prompt context base_delay env (S attempt) (backed_off delay w1)
                   delays w' ->
    empty_attempts agent prompt context base_delay env attempt w (delay :: delays) w'.

(** The delays of the attempts below [retries] are within the doubles: the
    conversion of [base_delay * 2 ** attempt] does not overflow. *)
Definition delays_in_range (base_delay : Z) (retries : Z) : Prop :=
  ∀ attempt, (0 <= attempt < retries)%Z →
    ∃ x, float_of_int (base_delay * 2 ^ attempt) = inr x.

(** The six task implementations, each with the arguments of its
    [execute]. *)
Inductive Task : Type :=
| CleaningTask (self : data_cleaning.DataCleaningAgent) (df : Ref)
| EdaTask (self : eda.EDAAgent) (df : Ref)
| AnomalyTask (self : anomaly.AnomalyAgent) (df : Ref)
| MlTask (self : ml_model.MLAgent) (df : Ref) (target : option string)
| InsightsTask (self : insights.BusinessInsightsAgent) (all_results : Dict AgentResult)
| ReportTask (self : report.ReportAgent) (all_results : Dict AgentResult)
    (business_insights : AgentResult).

Definition task_execute (t : Task) : Py AgentResult :=
  match t with
  | CleaningTask self df => data_cleaning.execute self df
  | EdaTask self df => eda.execute self df
  | AnomalyTask self df => anomaly.execute self df
  | MlTask self df target => ml_model.execute self df target
  | InsightsTask self all_results => insights.execute self all_results
  | ReportTask self all_results business_insights =>
      report.execute self all_results business_insights
  end.

(** What the task runs inside its [try], given the start time. *)
Definition task_body (t : Task) (start : Q) : Py AgentResult :=
  match t with
  | CleaningTask self df => data_cleaning.execute_body self df start
  | EdaTask self df => eda.execute_body self df start
  | AnomalyTask self df => anomaly.execute_body self df start
  | MlTask self df target => ml_model.execute_body self df target start
  | InsightsTask self all_results => insights.execute_body self all_results start
  | ReportTask self all_results business_insights =>
      report.execute_body self all_results business_insights start
  end.

Definition task_name (t : Task) : string :=
  match t with
  | CleaningTask self _ => data_cleaning.name self
  | EdaTask self _ => eda.name self
  | AnomalyTask self _ => anomaly.name self
  | MlTask self _ _ => ml_model.name self
  | InsightsTask self _ => insights.name self
  | ReportTask self _ _ => report.name self
  end.

(** The world after one more reading of the clock. *)
Definition tick (w : World) : World :=
  mkWorld (heap w) (S (clock_reads w)) (random_reads w) (adk_calls w) (adk_requests w)
          (slept w) (stdout w).

(** The shape of a result envelope as the code builds it: a success carries
    a payload with at least one key and no error, a failure carries no
    payload and an error description, which is a string. *)
Definition envelope_shape (r : AgentResult) : Prop :=
  (status r = "success" ∧ (∃ p, data r = Some p ∧ payload_keys p ≠ []) ∧ error r = None)
  ∨ (status r = "error" ∧ data r = None ∧ ∃ description, error r = Some description).

(** The shape with the requirement that the description of a failure is
    not empty. *)
Definition envelope_shape_nonempty (r : AgentResult) : Prop :=
  (status r = "success" ∧ (∃ p, data r = Some p ∧ payload_keys p ≠ []) ∧ error r = None)
  ∨ (status r = "error" ∧ data r = None
     ∧ ∃ description, error r = Some description ∧ description ≠ "").

(** [c] leaves the objects of [h0] as they are, and what it returns
    satisfies [Φ]. *)
Definition keeps {A} (h0 : list DataFrame) (c : Py A) (Φ : A → Prop) : Prop :=
  ∀ env w, h0 `prefix_of` heap w →
    h0 `prefix_of` heap (c env w).2 ∧ ∀ a, (c env w).1 = Returned a → Φ a.

(** A computation that does not touch the heap. *)
Definition heap_blind {A} (c : Py A) : Prop := ∀ env w, heap (c env w).2 = heap w.

(** A computation without effect on the world. *)
Definition world_blind {A} (c : Py A) : Prop := ∀ env w, (c env w).2 = w.

(** Every [execute] is its body under the same guard. *)
Definition guarded (name : string) (body : Q → Py AgentResult) : Py AgentResult :=
  start <- time_time ;;
  try_except (body start)
    (fun e =>
       now <- time_time ;;
       ret (mkAgentResult name "error" None (now - start)%Q (Some (str_exn e)))).

(** The result of an awaitable as [gather] stores it. *)
Definition as_value {A} (o : Outcome A) : Exn + A :=
  match o with
  | Returned a => inr a
  | Raised e => inl e
  end.

(** What [gather] stores for an outcome. *)
Definition gathered {A} (res : Exn + A) : Gathered A :=
  match res with
  | inl e => ExceptionObject e
  | inr a => Value a
  end.

(** The world in which the [i]-th awaitable starts when the awaitables
    complete in the order [order], the first of them starting in [w]: each
    one runs in the world that the one before it left. *)
Fixpoint start_world {A} (aws : list (Py A)) (env : Env) (order : list nat) (w : World)
    (i : nat) : option World :=
  match order with
  | [] => None
  | j :: rest =>
      if bool_decide (j = i) then Some w
      else match aws !! j with
           | Some aw => start_world aws env rest (aw env w).2 i
           | None => start_world aws env rest w i
           end
  end.

(** The order in which [n] awaitables complete in [env]. *)
Definition completion_of (env : Env) (n : nat) : list nat :=
  completion_order n (completion env) (seq 0 n).

(** [res] is what the [i]-th awaitable gave in the run of the awaitables
    that completes in the order [order] from [w]. *)
Definition ran {A} (aws : list (Py A)) (env : Env) (order : list nat) (w : World)
    (i : nat) (res : Exn + A) : Prop :=
  ∃ aw wi,
    aws !! i = Some aw ∧ start_world aws env order w i = Some wi
    ∧ res = as_value (aw env wi).1.

(** The envelope that phase 1 records for a task, given what [gather]
    stored for it. *)
Definition envelope_of (k : string) (res : Exn + AgentResult) : AgentResult :=
  match res with
  | inl e => main.R k e
  | inr r => r
  end.

(** [c] awaits [call_adk] at most [calls] times, sends at most [calls]
    requests to the model service and sleeps at most [sleeps] times. *)
Definition uses {A} (calls sleeps : nat) (c : Py A) : Prop :=
  ∀ env w,
    (adk_calls (c env w).2 ≤ adk_calls w + calls)%nat
    ∧ (adk_requests (c env w).2 ≤ adk_requests w + calls)%nat
    ∧ (length (slept (c env w).2) ≤ length (slept w) + sleeps)%nat.

(** [c] returns in every environment and world. *)
Definition never_raises {A} (c : Py A) : Prop :=
  ∀ env w, ∃ a w', c env w = (Returned a, w').

(** The text the model service gives to its n-th request: [None] when the
    request fails or the response has no text. *)
Definition answer (env : Env) (n : nat) (full_prompt : string) : option string :=
  match generate_content env n full_prompt with
  | inr response => resp_text response
  | inl _ => None
  end.

(** [sum(delays)] *)
Definition total_delay (delays : list Q) : Q := foldr Qplus 0%Q delays.

(** The agent of a task, as far as [call_adk] goes: its client and its
    [call_adk] method. *)
Definition task_client (t : Task) : option Client :=
  match t with
  | CleaningTask self _ => data_cleaning.adk_client self
  | EdaTask self _ => eda.adk_client self
  | AnomalyTask self _ => anomaly.adk_client self
  | MlTask self _ _ => ml_model.adk_client self
  | InsightsTask self _ => insights.adk_client self
  | ReportTask self _ _ => report.adk_client self
  end.

Definition task_call_adk (t : Task) (prompt : string) (context : option Context) :
    Py (option string) :=
  match t with
  | CleaningTask self _ => call_adk self prompt context
  | EdaTask self _ => call_adk self prompt context
  | AnomalyTask self _ => call_adk self prompt context
  | MlTask self _ _ => call_adk self prompt context
  | InsightsTask self _ => call_adk self prompt context
  | ReportTask self _ _ => call_adk self prompt context
  end.

(** The world after one call of [call_adk] that sent a request. *)
Definition requested (w : World) : World :=
  mkWorld (heap w) (clock_reads w) (random_reads w) (S (adk_calls w))
          (S (adk_requests w)) (slept w) (stdout w).

(** What a task may spend: calls of [call_adk] and sleeps. The cleaning
    task retries up to five times; the anomaly task never gets to call; the
    report task asks for one description per result. *)
Definition task_budget (t : Task) : nat * nat :=
  match t with
  | CleaningTask _ _ => (5, 5)
  | EdaTask _ _ => (1, 0)
  | AnomalyTask _ _ => (0, 0)
  | MlTask _ _ _ => (1, 0)
  | InsightsTask _ _ => (1, 0)
  | ReportTask _ all_results _ => (length all_results, 0)
  end%nat.



(** An entry of [outliers_by_column] as the anomaly task writes it, for a
    frame of [rows] rows: at least one outlier, the first ten of them kept,
    each outside the bounds, and the share they make of the rows. *)
Definition outliers_entry (rows : nat) (o : Outliers) : Prop :=
  (1 ≤ count o)%nat
  ∧ length (values o) = (10 `min` count o)%nat
  ∧ Forall (λ v, anomaly.Qlt_bool v (lower_bound o) = true
                 ∨ anomaly.Qlt_bool (upper_bound o) v = true) (values o)
  ∧ percentage o = (inject_Z (Z.of_nat (count o)) / inject_Z (Z.of_nat rows) * 100)%Q.

(** What [detect] has recorded: well-formed entries, for columns seen so
    far only, one summary line per entry, and the total of the counts. *)
Definition detected (rows : nat) (seen : list string)
    (acc : list (string * Outliers) * list string * nat) : Prop :=
  let '(outliers_by_column, anomaly_summary, total_anomalies) := acc in
  Forall (λ kv, outliers_entry rows kv.2) outliers_by_column
  ∧ dict_keys outliers_by_column ⊆ seen
  ∧ length anomaly_summary = length outliers_by_column
  ∧ total_anomalies = sum_list_with (λ kv, count kv.2) outliers_by_column.

(** A description is either the fallback for the key or a generated text
    free of markup. *)
Definition plain_description (agent_key : string) (d : Description) : Prop :=
  d = report._get_fallback_description agent_key
  ∨ ∃ text, d = Generated text
      ∧ ("*"%char ∉ list_ascii_of_string text) ∧ ("#"%char ∉ list_ascii_of_string text).

(** The encoding [load_csv_with_fallback] tries first:
    [chardet.detect(raw)["encoding"] or "latin1"]. *)
Definition detected_encoding (env : Env) (raw : string) : string :=
  match chardet_detect env raw with
  | Some e => if String.eqb e "" then "latin1" else e
  | None => "latin1"
  end.

(** The file at [path] loads as [loaded]: it can be read, and parses under
    the detected encoding, or under latin1 after that parse raised. *)
Definition loads (env : Env) (path : string) (loaded : DataFrame) : Prop :=
  ∃ raw,
    read_bytes env path = inr raw
    ∧ (read_csv env path (detected_encoding env raw) = inr loaded
       ∨ (∃ e, read_csv env path (detected_encoding env raw) = inl e)
         ∧ read_csv env path "latin1" = inr loaded).

(** What stops [run_pipeline] before any agent runs: the file cannot be
    read, it parses neither under the detected encoding nor under latin1,
    or the charts directory of the EDA agent cannot be made. [e] is the
    exception. *)
Definition setup_fails (env : Env) (csv_path : string) (e : Exn) : Prop :=
  read_bytes env csv_path = inl e
  ∨ (∃ raw e0,
       read_bytes env csv_path = inr raw
       ∧ read_csv env csv_path (detected_encoding env raw) = inl e0
       ∧ read_csv env csv_path "latin1" = inl e)
  ∨ (∃ loaded, loads env csv_path loaded ∧ os_makedirs env "project/charts" = inl e).

(** The cells of [s'] are those of [s] wherever [s] has a value; the two
    columns have the same dtype and length. *)
Definition fills_series (s s' : Series) : Prop :=
  match s, s' with
  | NumSeries a, NumSeries b => Forall2 (λ x y, x = None ∨ y = x) a b
  | ObjSeries a, ObjSeries b => Forall2 (λ x y, x = None ∨ y = x) a b
  | _, _ => False
  end.

(** [filled] is [frame] with some of its missing cells filled: the same
    columns in the same order, and every value of [frame] where it was. *)
Definition fills (frame filled : DataFrame) : Prop :=
  Forall2 (λ cs cs', cs.1 = cs'.1 ∧ fills_series cs.2 cs'.2) frame filled.

(** No object column of [f] has a missing cell. *)
Definition text_complete (f : DataFrame) : Prop :=
  ∀ col cells, (col, ObjSeries cells) ∈ f → None ∉ cells.

(** What a filling loop does to the heap: the object [ref] gets some of its
    missing cells filled, the other objects stay as they are. *)
Definition refilled (ref : Ref) (f : DataFrame) (w w' : World) (f' : DataFrame) : Prop :=
  heap w' !! ref = Some f' ∧ fills f f'
  ∧ length (heap w') = length (heap w)
  ∧ ∀ r, r ≠ ref → heap w' !! r = heap w !! r.

(** The upload of [request] passes every check of [analyze]: there is a
    file whose name ends in [.csv], it can be saved and parsed as [df], and
    the target, when one is given, is a column of [df]. *)
Definition accepted (host : app.Host) (request : app.Request) (df : DataFrame) : Prop :=
  ∃ file name,
    dict_get (app.files request) "file" = Some file
    ∧ app.filename file = Some name ∧ name ≠ "" ∧ endswith name ".csv" = true
    ∧ app.file_save host file (app.upload_path (app.uuid4 host)) = inr tt
    ∧ app.pd_read_csv host (app.upload_path (app.uuid4 host)) = inr df
    ∧ ∀ t, app.form_target request = Some t → t ∈ columns df.

(** The upload of [request] fails one of the checks that [analyze] makes
    before it saves anything. *)
Definition bad_upload (request : app.Request) : Prop :=
  match dict_get (app.files request) "file" with
  | None => True
  | Some file =>
      ∃ name, app.filename file = Some name ∧ (name = "" ∨ endswith name ".csv" = false)
  end.

(** ** Concrete inputs *)

(** A frame with a numeric column that has a missing cell and an object
    column. *)
Definition sample_frame : DataFrame :=
  [("price", NumSeries [Some 1%Q; None; Some 3%Q]);
   ("city", ObjSeries [Some "Oslo"; Some "Rome"; None]);
   ("profit", NumSeries [Some 2%Q; Some 4%Q; Some 6%Q])].

(** An environment in which every library call succeeds, given what the
    model service answers, what reportlab does and how the tasks of a
    phase complete. *)
Definition sample_env (service : nat -> string -> Exn + Response)
    (pdf : Exn + string) (choices : list nat) : Env :=
  {| clock := fun n => inject_Z (Z.of_nat n);
     random := fun _ => 1 # 2;
     adk_available := true;
     generate_content := service;
     completion := choices;
     read_bytes := fun _ => inr "price,city,profit";
     chardet_detect := fun _ => Some "utf-8";
     read_csv := fun _ _ => inr sample_frame;
     os_makedirs := fun _ => inr tt;
     str_float := fun _ => "2.0";
     format_float := fun _ _ => "0.00";
     json_dumps := fun _ => inr "{}";
     json_loads := fun _ => inl (Fault "Expecting value: line 1 column 1 (char 0)");
     describe_all := fun _ => inr "{}";
     describe := fun _ => inr "{}";
     duplicated_sum := fun _ => inr 0%nat;
     drop_duplicates := fun frame => inr frame;
     median := fun _ => inr (Some 2%Q);
     mode := fun _ => inr ["Oslo"];
     quantile := fun _ q => inr q;
     corr := fun _ => inr "{}";
     nunique := fun _ => 3%nat;
     dtype_name :=
       fun s => match s with NumSeries _ => "float64" | ObjSeries _ => "object" end;
     dtype_kind_iu := fun _ => false;
     plot_heatmap := fun _ => inr "iVBORw0KGgo=";
     plot_hist := fun _ _ => inr "iVBORw0KGgo=";
     label_encode := fun s => inr (NumSeries (replicate (series_len s) (Some 0%Q)));
     fit_importances := fun _ X _ => inr (replicate (length X) (1 # 2));
     clean_text := fun s => s;
     build_pdf := fun _ _ _ _ => pdf |}.

(** A service that never answers: every response has [text = None]. *)
Definition silent_service : nat -> string -> Exn + Response :=
  fun _ _ => inr (mkResponse None).

(** A service that gives no text to its first three requests and answers
    from the fourth on. *)
Definition slow_service : nat -> string -> Exn + Response :=
  fun n _ =>
    if (n <? 3)%nat then inr (mkResponse None)
    else inr (mkResponse (Some "Drop the duplicate rows.")).

(** A service whose answers are present but empty. *)
Definition empty_service : nat -> string -> Exn + Response :=
  fun _ _ => inr (mkResponse (Some "")).

Definition sample_client : option Client := Some (mkClient "key").

Definition sample_model : option string := Some "gemini-2.0-flash".

Definition empty_world : World := mkWorld [] 0 0 0 0 [] [].

(** A world in which the sample frame is the only object. *)
Definition sample_world : World := mkWorld [sample_frame] 0 0 0 0 [] [].

Definition sample_pdf : Exn + string := inr "project/analysis_report_20250101_120000.pdf".

(** The four tasks of phase 1 over the sample frame, without a client. *)
Definition sample_tasks : Dict (Py AgentResult) :=
  [("cleaning", data_cleaning.execute (data_cleaning.init None None) 0);
   ("eda", eda.execute (eda.mk "EDA Agent" "project/charts" None None) 0);
   ("anomaly", anomaly.execute (anomaly.init None None) 0);
   ("ml", ml_model.execute (ml_model.init None None) 0 (Some "profit"))].

(** A phase of four tasks of which the second lets a fault escape. *)
Definition faulty_tasks : Dict (Py AgentResult) :=
  [("cleaning", data_cleaning.execute (data_cleaning.init None None) 0);
   ("eda", raise (Fault "charts directory is gone"));
   ("anomaly", anomaly.execute (anomaly.init None None) 0);
   ("ml", ml_model.execute (ml_model.init None None) 0 (Some "profit"))].

(** Reportlab failing on the story. *)
Definition failing_pdf : Exn + string := inl (Fault "paragraph text has unclosed tags").

(** [env] with other files behind it. *)
Definition with_files (env : Env) (bytes : string -> Exn + string)
    (makedirs : string -> Exn + unit) : Env :=
  {| clock := clock env;
     random := random env;
     adk_available := adk_available env;
     generate_content := generate_content env;
     completion := completion env;
     read_bytes := bytes;
     chardet_detect := chardet_detect env;
     read_csv := read_csv env;
     os_makedirs := makedirs;
     str_float := str_float env;
     format_float := format_float env;
     json_dumps := json_dumps env;
     json_loads := json_loads env;
     describe_all := describe_all env;
     describe := describe env;
     duplicated_sum := duplicated_sum env;
     drop_duplicates := drop_duplicates env;
     median := median env;
     mode := mode env;
     quantile := quantile env;
     corr := corr env;
     nunique := nunique env;
     dtype_name := dtype_name env;
     dtype_kind_iu := dtype_kind_iu env;
     plot_heatmap := plot_heatmap env;
     plot_hist := plot_hist env;
     label_encode := label_encode env;
     fit_importances := fit_importances env;
     clean_text := clean_text env;
     build_pdf := build_pdf env |}.

(** The sample environment without the CSV file. *)
Definition missing_file_env : Env :=
  with_files (sample_env silent_service sample_pdf [])
             (fun _ => inl (Fault "[Errno 2] No such file or directory"))
             (fun _ => inr tt).

(** A host on which everything works, around a pipeline environment. *)
Definition sample_host (env : Env) : app.Host :=
  {| app.uuid4 := "0b0e7a52-6c1f-4d43-9a55-2f6f3c1d9e10";
     app.flash_session := inr tt;
     app.render_template := fun _ => inr "<html></html>";
     app.file_save := fun _ _ => inr tt;
     app.pd_read_csv := fun _ => inr sample_frame;
     app.dtype_name :=
       fun s => match s with NumSeries _ => "float64" | ObjSeries _ => "object" end;
     app.os_remove := fun _ _ => inr tt;
     app.os_path_exists := fun _ => true;
     app.send_file := fun _ => inr tt;
     app.pipeline_env := env |}.

(** The session error of Flask. *)
Definition no_session : Exn :=
  Fault "The session is unavailable because no secret key was set.  Set the secret_key on the application to something unique and secret.".

(** The host as the application configures it: without a secret key there
    is no session, and [flash] raises. *)
Definition no_session_host (env : Env) : app.Host :=
  {| app.uuid4 := app.uuid4 (sample_host env);
     app.flash_session := inl no_session;
     app.render_template := app.render_template (sample_host env);
     app.file_save := app.file_save (sample_host env);
     app.pd_read_csv := app.pd_read_csv (sample_host env);
     app.dtype_name := app.dtype_name (sample_host env);
     app.os_remove := app.os_remove (sample_host env);
     app.os_path_exists := app.os_path_exists (sample_host env);
     app.send_file := app.send_file (sample_host env);
     app.pipeline_env := env |}.

(** An upload of the sample file with the target [profit]. *)
Definition sample_request : app.Request :=
  app.mkRequest [("file", app.mkFileStorage (Some "sales.csv") "price,city,profit")]
                [("target", " profit ")] [].

(** An upload that is not a CSV file. *)
Definition bad_request : app.Request :=
  app.mkRequest [("file", app.mkFileStorage (Some "sales.xlsx") "")] [] [].

Definition empty_server : app.Server := app.mkServer [] [] [] 0 [] empty_world.

(** * Properties *)

(** ** The arithmetic of doubles *)

Lemma Qpow2_pos c : (0 < Qpow2 c)%Q.
Proof.
  unfold Qpow2. destruct (0 <=? c)%Z eqn:E.
  - apply Z.leb_le in E. unfold Qlt. cbn. pose proof (Z.pow_pos_nonneg 2 c). lia.
  - reflexivity.
Qed.

Lemma Qpow2_nonneg c : (0 <= c)%Z → Qpow2 c = inject_Z (2 ^ c).
Proof. intros Hc. unfold Qpow2. apply Z.leb_le in Hc. by rewrite Hc. Qed.

Lemma Qpow2_neg c : (c < 0)%Z → Qpow2 c = (1 # Z.to_pos (2 ^ (- c))).
Proof. intros Hc. unfold Qpow2. apply Z.leb_gt in Hc. by rewrite Hc. Qed.

Lemma ilog2_lower (q : Q) : (0 < q)%Q → (Qpow2 (ilog2 q) <= q)%Q.
Proof.
  destruct q as [a b]. unfold Qlt. cbn. intros Ha. unfold ilog2. cbn [Qnum Qden].
  set (e := (Z.log2 a - Z.log2 (Z.pos b))%Z).
  destruct (Qle_bool (Qpow2 e) (a # b)) eqn:E; [by apply Qle_bool_iff in E|].
  assert (0 < a)%Z as Ha' by lia.
  destruct (Z.log2_spec a Ha') as [Hla _].
  destruct (Z.log2_spec (Z.pos b) ltac:(lia)) as [_ Hlb].
  pose proof (Z.log2_nonneg a) as Hla0. pose proof (Z.log2_nonneg (Z.pos b)) as Hlb0.
  destruct (Z_lt_le_dec (e - 1) 0%Z) as [Hneg|Hpos].
  - rewrite Qpow2_neg by done. unfold Qle. cbn [Qnum Qden].
    assert (0 < 2 ^ (- (e - 1)))%Z as Hp by (apply Z.pow_pos_nonneg; lia).
    rewrite Z2Pos.id by done.
    assert (2 ^ Z.log2 a * 2 ^ (- (e - 1)) = 2 ^ Z.succ (Z.log2 (Z.pos b)))%Z as Heq.
    { rewrite <- Z.pow_add_r by lia. f_equal. lia. }
    nia.
  - rewrite Qpow2_nonneg by done. unfold Qle. cbn [Qnum Qden inject_Z].
    assert (0 < 2 ^ (e - 1))%Z as Hp by (apply Z.pow_pos_nonneg; lia).
    assert (2 ^ (e - 1) * 2 ^ Z.succ (Z.log2 (Z.pos b)) = 2 ^ Z.log2 a)%Z as Heq.
    { rewrite <- Z.pow_add_r by lia. f_equal. lia. }
    nia.
Qed.

Lemma round_half_even_floor n d : (n / d <= round_half_even n d)%Z.
Proof.
  unfold round_half_even. destruct (2 * (n mod d) ?= d)%Z; [destruct (Z.even _)| |]; lia.
Qed.

Lemma round_half_even_exact n : round_half_even n 1 = n.
Proof. unfold round_half_even. rewrite Z.mod_1_r, Z.div_1_r. reflexivity. Qed.

Lemma Qred_inject_Z n : Qred (inject_Z n) = inject_Z n.
Proof.
  unfold inject_Z, Qred.
  pose proof (Z.ggcd_gcd n 1) as Hg. pose proof (Z.ggcd_correct_divisors n 1) as Hd.
  destruct (Z.ggcd n 1) as [g [r1 r2]]. cbn in *.
  rewrite Z.gcd_1_r in Hg. subst g. destruct Hd as [-> Hr2].
  assert (r2 = 1%Z) as -> by lia. f_equal. lia.
Qed.

Lemma ilog2_inject_Z n : (0 < n)%Z → ilog2 (inject_Z n) = Z.log2 n.
Proof.
  intros Hn. unfold ilog2. cbn [inject_Z Qnum Qden]. change (Z.log2 1) with 0%Z.
  rewrite Z.sub_0_r. pose proof (Z.log2_nonneg n) as H0.
  rewrite Qpow2_nonneg by done.
  destruct (Z.log2_spec n Hn) as [Hl _].
  assert (Qle_bool (inject_Z (2 ^ Z.log2 n)) (inject_Z n) = true) as ->; [|done].
  apply Qle_bool_iff. unfold Qle. cbn. lia.
Qed.

(** Rounding does not go below an integer of 53 bits that the rational is
    not below. *)
Lemma round_float_lower (n : Z) (q : Q) :
  (0 <= n <= 2 ^ 53)%Z → (inject_Z n <= q)%Q → (inject_Z n <= round_float q)%Q.
Proof.
  intros Hn Hq. unfold round_float. destruct (Qeq_bool q 0) eqn:E0.
  - apply Qeq_bool_iff in E0. rewrite E0 in Hq. exact Hq.
  - assert (0 < q)%Q as Hpos.
    { apply Qeq_bool_neq in E0. assert (0 <= inject_Z n)%Q by (unfold Qle; cbn; lia).
      apply Qle_lt_or_eq in Hq as [Hq|Hq]; [lra|]. rewrite <- Hq.
      apply Qle_lt_or_eq in H as [H|H]; [done|]. rewrite <- H in Hq. by symmetry in Hq. }
    pose proof (ilog2_lower q Hpos) as Hlow.
    destruct q as [a b]. assert (0 < a)%Z as Ha by (unfold Qlt in Hpos; cbn in Hpos; lia).
    unfold float_exponent. replace (Qabs (a # b)) with (a # b)
      by (unfold Qabs; f_equal; lia).
    set (e := ilog2 (a # b)) in *. set (c := (Z.max e (-1022) - 52)%Z).
    unfold Qle in Hq. cbn in Hq. unfold scaled. cbn [Qnum Qden].
    destruct (0 <=? c)%Z eqn:Ec.
    + apply Z.leb_le in Ec. rewrite Qred_correct. rewrite Qpow2_nonneg by done.
      rewrite <- inject_Z_mult. rewrite <- Zle_Qle.
      assert (0 < 2 ^ c)%Z as Hp by (apply Z.pow_pos_nonneg; lia).
      pose proof (round_half_even_floor a (Z.pos b * 2 ^ c)) as Hr.
      destruct (Z.eq_dec c 0%Z) as [Hc0|Hc0].
      * rewrite Hc0 in *. rewrite Z.pow_0_r, !Z.mul_1_r in *.
        assert (n <= a / Z.pos b)%Z by (apply Z.div_le_lower_bound; lia). lia.
      * assert (e = c + 52)%Z as He by lia.
        rewrite Qpow2_nonneg in Hlow by lia. unfold Qle in Hlow. cbn in Hlow.
        assert (2 ^ e = 2 ^ 52 * 2 ^ c)%Z as Hsplit.
        { rewrite He, Z.pow_add_r by lia. lia. }
        assert (2 ^ 52 <= a / (Z.pos b * 2 ^ c))%Z.
        { apply Z.div_le_lower_bound; [lia|]. rewrite Hsplit in Hlow. lia. }
        assert (2 ^ 53 <= 2 ^ 52 * 2 ^ c)%Z.
        { replace (2 ^ 53)%Z with (2 ^ 52 * 2 ^ 1)%Z by reflexivity.
          apply Z.mul_le_mono_nonneg_l; [lia|]. apply Z.pow_le_mono_r; lia. }
        nia.
    + apply Z.leb_gt in Ec. rewrite Qred_correct. rewrite Qpow2_neg by done.
      assert (0 < 2 ^ (- c))%Z as Hp by (apply Z.pow_pos_nonneg; lia).
      pose proof (round_half_even_floor (a * 2 ^ (- c)) (Z.pos b)) as Hr.
      assert (n * 2 ^ (- c) <= a * 2 ^ (- c) / Z.pos b)%Z by (apply Z.div_le_lower_bound; nia).
      unfold Qle. cbn [Qnum Qden inject_Z Qmult]. rewrite Pos.mul_1_l, Z2Pos.id by done. lia.
Qed.

(** An integer of at most 53 bits is a double. *)
Lemma round_float_exact (n : Z) :
  (0 <= n <= 2 ^ 53)%Z → round_float (inject_Z n) = inject_Z n.
Proof.
  intros Hn. destruct (Z.eq_dec n 0%Z) as [->|Hn0]; [reflexivity|].
  unfold round_float. replace (Qeq_bool (inject_Z n) 0) with false
    by (symmetry; apply not_true_is_false; intros E; apply Qeq_bool_iff in E;
        unfold Qeq in E; cbn in E; lia).
  unfold float_exponent. replace (Qabs (inject_Z n)) with (inject_Z n)
    by (unfold Qabs, inject_Z; f_equal; lia).
  rewrite ilog2_inject_Z by lia.
  assert (0 <= Z.log2 n <= 53)%Z as Hl.
  { split; [apply Z.log2_nonneg|]. change 53%Z with (Z.log2 (2 ^ 53)).
    apply Z.log2_le_mono. lia. }
  rewrite Z.max_l by lia. set (c := (Z.log2 n - 52)%Z).
  rewrite <- (Qred_inject_Z n) at 2. unfold scaled. cbn [inject_Z Qnum Qden].
  destruct (0 <=? c)%Z eqn:Ec.
  - apply Z.leb_le in Ec. apply Qred_complete. rewrite Qpow2_nonneg by done.
    rewrite <- inject_Z_mult. apply inject_Z_injective.
    destruct (Z.eq_dec c 0%Z) as [Hc0|Hc0].
    + rewrite Hc0. cbn. rewrite round_half_even_exact. lia.
    + assert (Z.log2 n = 53%Z) as Hl53 by lia.
      destruct (Z.log2_spec n ltac:(lia)) as [Hlow _]. rewrite Hl53 in Hlow.
      assert (n = 2 ^ 53)%Z as -> by lia. subst c. rewrite Hl53. reflexivity.
  - apply Z.leb_gt in Ec. apply Qred_complete. rewrite Qpow2_neg by done.
    rewrite round_half_even_exact.
    assert (0 < 2 ^ (- c))%Z as Hp by (apply Z.pow_pos_nonneg; lia).
    unfold Qeq. cbn [Qnum Qden inject_Z Qmult]. rewrite Pos.mul_1_l, Z2Pos.id by done. lia.
Qed.

Lemma float_of_int_exact (n : Z) :
  (0 <= n <= 2 ^ 53)%Z → float_of_int n = inr (inject_Z n).
Proof.
  intros Hn. unfold float_of_int. rewrite round_float_exact by done.
  assert (Qle_bool (Qpow2 1024) (Qabs (inject_Z n)) = false) as ->; [|done].
  apply not_true_is_false. intros E. apply Qle_bool_iff in E.
  rewrite Qpow2_nonneg in E by lia. unfold Qle in E. cbn [Qnum Qden inject_Z Qabs] in E.
  assert (2 ^ 53 < 2 ^ 1024)%Z by (apply Z.pow_lt_mono_r; lia). lia.
Qed.

Lemma round_half_even_ceil n d : (round_half_even n d <= n / d + 1)%Z.
Proof.
  unfold round_half_even. destruct (2 * (n mod d) ?= d)%Z; [destruct (Z.even _)| |]; lia.
Qed.

Lemma round_half_even_down n d : (2 * (n mod d) < d)%Z → round_half_even n d = (n / d)%Z.
Proof. intros Hlt. unfold round_half_even. apply Z.compare_lt_iff in Hlt. by rewrite Hlt. Qed.

(** The integers that convert to a double: those below the middle of the
    largest double and [2^1024]. *)
Lemma float_of_int_in_range (n : Z) :
  (0 <= n < 2 ^ 1024 - 2 ^ 970)%Z → float_of_int n = inr (round_float (inject_Z n)).
Proof.
  intros Hn. unfold float_of_int.
  assert (Qle_bool (Qpow2 1024) (Qabs (round_float (inject_Z n))) = false) as ->; [|done].
  apply not_true_is_false. intros E. apply Qle_bool_iff in E.
  rewrite Qpow2_nonneg in E by lia.
  assert (2 ^ 53 < 2 ^ 1024)%Z as H53 by (apply Z.pow_lt_mono_r; lia).
  destruct (Z_le_gt_dec n (2 ^ 53)) as [Hsmall|Hbig].
  { rewrite round_float_exact in E by lia. unfold Qle in E. cbn in E. lia. }
  revert E. unfold round_float.
  replace (Qeq_bool (inject_Z n) 0) with false
    by (symmetry; apply not_true_is_false; intros E; apply Qeq_bool_iff in E;
        unfold Qeq in E; cbn in E; lia).
  unfold float_exponent. replace (Qabs (inject_Z n)) with (inject_Z n)
    by (unfold Qabs, inject_Z; f_equal; lia).
  rewrite ilog2_inject_Z by lia.
  destruct (Z.log2_spec n ltac:(lia)) as [Hlow Hhigh].
  assert (53 <= Z.log2 n <= 1023)%Z as Hl.
  { split.
    - change 53%Z with (Z.log2 (2 ^ 53)). apply Z.log2_le_mono. lia.
    - apply Z.lt_succ_r. change (Z.succ 1023) with (Z.log2 (2 ^ 1024)).
      apply Z.log2_lt_pow2; [lia|]. rewrite Z.log2_pow2 by lia. 
      assert (0 < 2 ^ 970)%Z by (apply Z.pow_pos_nonneg; lia). lia. }
  rewrite Z.max_l by lia. set (c := (Z.log2 n - 52)%Z).
  unfold scaled. cbn [inject_Z Qnum Qden].
  assert ((0 <=? c)%Z = true) as -> by (apply Z.leb_le; lia).
  rewrite Z.mul_1_l, Qpow2_nonneg by lia. rewrite Qred_correct, <- inject_Z_mult.
  set (P := (2 ^ 970)%Z) in *.
  assert (0 < P)%Z as HP by (apply Z.pow_pos_nonneg; lia).
  assert (2 ^ 1024 = 2 ^ 54 * P)%Z as H1024 by (unfold P; by rewrite <- Z.pow_add_r).
  assert (0 < 2 ^ c)%Z as HD by (apply Z.pow_pos_nonneg; lia).
  pose proof (Z.div_mod n (2 ^ c) ltac:(lia)) as Hdm.
  pose proof (Z.mod_pos_bound n (2 ^ c) HD) as Hr.
  pose proof (round_half_even_ceil n (2 ^ c)) as Hceil.
  assert (round_half_even n (2 ^ c) * 2 ^ c < 2 ^ 54 * P)%Z as Hlt.
  { destruct (Z_le_gt_dec (Z.log2 n) 1022) as [He|He].
    - assert (2 ^ c <= P)%Z as HDP by (apply Z.pow_le_mono_r; lia).
      assert (2 ^ Z.succ (Z.log2 n) <= 2 ^ 53 * P)%Z as Hn'.
      { unfold P. rewrite <- Z.pow_add_r by lia. apply Z.pow_le_mono_r; lia. }
      nia.
    - assert (2 ^ c = 2 * P)%Z as HDP.
      { unfold P, c. replace (Z.log2 n - 52)%Z with (1 + 970)%Z by lia.
        by rewrite Z.pow_add_r. }
      rewrite HDP in *.
      destruct (Z_le_gt_dec (n / (2 * P)) (2 ^ 53 - 2)) as [Hf|Hf]; [nia|].
      rewrite round_half_even_down by nia. nia. }
  intros E. rewrite <- H1024 in Hlt.
  assert (0 <= round_half_even n (2 ^ c) * 2 ^ c)%Z as Hnn.
  { pose proof (round_half_even_floor n (2 ^ c)) as Hfl.
    pose proof (Z.div_pos n (2 ^ c) ltac:(lia) HD). nia. }
  unfold Qle in E. cbn [Qnum Qden inject_Z Qabs] in E. lia.
Qed.

Lemma backoff_in_range base_delay attempt jitter x :
  float_of_int (base_delay * 2 ^ attempt) = inr x →
  backoff base_delay attempt jitter = inr (round_float (x + jitter)).
Proof. intros Hx. unfold backoff. by rewrite Hx. Qed.

Lemma backoff_inv base_delay attempt jitter delay :
  backoff base_delay attempt jitter = inr delay →
  ∃ x, float_of_int (base_delay * 2 ^ attempt) = inr x ∧ delay = round_float (x + jitter).
Proof.
  unfold backoff. destruct (float_of_int _) as [e|x]; [discriminate|].
  intros [= <-]. by exists x.
Qed.

(** A delay of at most 53 bits is not rounded below [base_delay * 2^attempt]. *)
Lemma backoff_lower_bound base_delay attempt jitter delay :
  (0 <= jitter)%Q → (0 <= base_delay * 2 ^ attempt <= 2 ^ 53)%Z →
  backoff base_delay attempt jitter = inr delay →
  (inject_Z (base_delay * 2 ^ attempt) <= delay)%Q.
Proof.
  intros Hj Hn. unfold backoff. rewrite float_of_int_exact by done. intros [= <-].
  apply round_float_lower; [done|]. lra.
Qed.

(** ** The retrying invoker *)

(** The four ways a turn of the loop can go. *)
Lemma attempt_once_answer {A} `{HasCallAdk A} (agent : A) prompt context base_delay attempt
    env w text w1 :
  call_adk agent prompt context env w = (Returned (Some text), w1) →
  attempt_once agent prompt context base_delay attempt env w = (Returned (Some (Some text)), w1).
Proof. intros Hcall. unfold attempt_once, bind. by rewrite Hcall. Qed.

Lemma attempt_once_raises {A} `{HasCallAdk A} (agent : A) prompt context base_delay attempt
    env w e w1 :
  call_adk agent prompt context env w = (Raised e, w1) →
  attempt_once agent prompt context base_delay attempt env w = (Raised e, w1).
Proof. intros Hcall. unfold attempt_once, bind. by rewrite Hcall. Qed.

Lemma attempt_once_empty {A} `{HasCallAdk A} (agent : A) prompt context base_delay attempt
    env w w1 delay :
  call_adk agent prompt context env w = (Returned None, w1) →
  backoff base_delay attempt (random env (random_reads w1)) = inr delay →
  attempt_once agent prompt context base_delay attempt env w
  = (Returned None, backed_off delay w1).
Proof.
  intros Hcall Hdelay. unfold attempt_once, bind. rewrite Hcall. cbn. unfold lib.
  by rewrite Hdelay.
Qed.

Lemma attempt_once_overflows {A} `{HasCallAdk A} (agent : A) prompt context base_delay attempt
    env w w1 e :
  call_adk agent prompt context env w = (Returned None, w1) →
  backoff base_delay attempt (random env (random_reads w1)) = inl e →
  ∃ w2, attempt_once agent prompt context base_delay attempt env w = (Raised e, w2)
        ∧ adk_calls w2 = adk_calls w1 ∧ adk_requests w2 = adk_requests w1
        ∧ slept w2 = slept w1.
Proof.
  intros Hcall Hdelay. unfold attempt_once, bind. rewrite Hcall. cbn. unfold lib.
  rewrite Hdelay. by eexists.
Qed.

Lemma delays_in_range_attempt base_delay (a n k : nat) :
  (∀ k, (a ≤ k < a + n)%nat → ∃ x, float_of_int (base_delay * 2 ^ Z.of_nat k) = inr x) →
  ∀ k, (S a ≤ k < S a + (n - 1))%nat →
    ∃ x, float_of_int (base_delay * 2 ^ Z.of_nat k) = inr x.
Proof. intros Hrange k' Hk. apply Hrange. lia. Qed.

Lemma delays_in_range_from_zero base_delay retries :
  delays_in_range base_delay retries →
  ∀ k, (0 ≤ k < 0 + Z.to_nat retries)%nat →
    ∃ x, float_of_int (base_delay * 2 ^ Z.of_nat k) = inr x.
Proof. intros Hrange k Hk. apply Hrange. lia. Qed.

(** The loop goes through the empty attempts and goes on from the world
    they leave. *)
Lemma attempts_after_empty {A} `{HasCallAdk A} (agent : A) prompt context base_delay env
    a w delays wk :
  empty_attempts agent prompt context base_delay env a w delays wk →
  ∀ n,
    for_return (map Z.of_nat (seq a (length delays + n)))
               (attempt_once agent prompt context base_delay) env w
    = for_return (map Z.of_nat (seq (a + length delays) n))
                 (attempt_once agent prompt context base_delay) env wk.
Proof.
  induction 1 as [a w|a w w1 delay delays w' Hcall Hdelay _ IH]; intros n.
  - cbn [length]. by rewrite Nat.add_0_r.
  - cbn [length Nat.add seq map for_return]. unfold bind at 1.
    rewrite (attempt_once_empty _ _ _ _ _ _ _ _ _ Hcall Hdelay). cbn [fst snd].
    rewrite IH. do 3 f_equal. lia.
Qed.

Lemma empty_attempts_slept {A} `{HasCallAdk A} (agent : A) prompt context base_delay env
    a w delays wk :
  never_sleeps env agent →
  empty_attempts agent prompt context base_delay env a w delays wk →
  slept wk = slept w ++ delays.
Proof.
  intros Hquiet. induction 1 as [a w|a w w1 delay delays w' Hcall Hdelay _ IH].
  - by rewrite app_nil_r.
  - rewrite IH. cbn [backed_off slept]. specialize (Hquiet prompt context w).
    rewrite Hcall in Hquiet. cbn in Hquiet. rewrite Hquiet. by rewrite <- app_assoc.
Qed.

Lemma empty_attempts_calls {A} `{HasCallAdk A} (agent : A) prompt context base_delay env
    a w delays wk :
  counts_calls env agent →
  empty_attempts agent prompt context base_delay env a w delays wk →
  adk_calls wk = (adk_calls w + length delays)%nat.
Proof.
  intros Hcount. induction 1 as [a w|a w w1 delay delays w' Hcall Hdelay _ IH].
  - cbn. lia.
  - rewrite IH. cbn [backed_off adk_calls length]. specialize (Hcount prompt context w).
    rewrite Hcall in Hcount. cbn in Hcount. lia.
Qed.

Lemma empty_attempts_delays {A} `{HasCallAdk A} (agent : A) prompt context base_delay env
    a w delays wk :
  (∀ n, (0 <= random env n)%Q) →
  empty_attempts agent prompt context base_delay env a w delays wk →
  ∀ k d, delays !! k = Some d →
    ∃ jitter, (0 <= jitter)%Q ∧ backoff base_delay (Z.of_nat (a + k)) jitter = inr d.
Proof.
  intros Hrand. induction 1 as [a w|a w w1 delay delays w' Hcall Hdelay _ IH]; intros k d Hk.
  - by rewrite lookup_nil in Hk.
  - destruct k as [|k]; cbn in Hk.
    + injection Hk as <-. rewrite Nat.add_0_r. by eexists.
    + destruct (IH k d Hk) as (j & Hj & Hd). exists j. split; [done|].
      by replace (a + S k)%nat with (S a + k)%nat by lia.
Qed.

(** An operation that always answers empty is attempted as long as the
    delays are within the doubles. *)
Lemma always_empty_attempts {A} `{HasCallAdk A} (agent : A) prompt context base_delay env :
  always_empty env agent →
  ∀ n a w,
    (∀ k, (a ≤ k < a + n)%nat → ∃ x, float_of_int (base_delay * 2 ^ Z.of_nat k) = inr x) →
    ∃ delays wk,
      empty_attempts agent prompt context base_delay env a w delays wk ∧ length delays = n.
Proof.
  intros Hempty. induction n as [|n IH]; intros a w Hrange.
  - exists [], w. split; [constructor | reflexivity].
  - specialize (Hempty prompt context w).
    destruct (call_adk agent prompt context env w) as [o w1] eqn:Hcall. cbn in Hempty.
    subst o. destruct (Hrange a ltac:(lia)) as [x Hx].
    pose proof (backoff_in_range base_delay (Z.of_nat a) (random env (random_reads w1)) x Hx)
      as Hdelay.
    destruct (IH (S a) (backed_off (round_float (x + random env (random_reads w1))) w1))
      as (delays & wk & Hrest & Hlen).
    { intros k Hk. apply Hrange. lia. }
    eexists (_ :: delays), wk. split; [by econstructor|]. cbn. by rewrite Hlen.
Qed.

Lemma attempts_all_empty {A} `{HasCallAdk A} (agent : A) prompt context base_delay env :
  counts_calls env agent → always_empty env agent →
  ∀ n a w,
    (∀ k, (a ≤ k < a + n)%nat → ∃ x, float_of_int (base_delay * 2 ^ Z.of_nat k) = inr x) →
    ∃ w',
      for_return (map Z.of_nat (seq a n)) (attempt_once agent prompt context base_delay) env w
        = (Returned None, w')
      ∧ adk_calls w' = (adk_calls w + n)%nat.
Proof.
  intros Hcount Hempty n a w Hrange.
  destruct (always_empty_attempts agent prompt context base_delay env Hempty n a w Hrange)
    as (delays & wk & Hrun & Hlen).
  exists wk. pose proof (attempts_after_empty _ _ _ _ _ _ _ _ _ Hrun 0%nat) as Hgo.
  rewrite Nat.add_0_r, Hlen in Hgo. rewrite Hgo. split; [reflexivity|].
  rewrite (empty_attempts_calls _ _ _ _ _ _ _ _ _ Hcount Hrun). by rewrite Hlen.
Qed.

(** C3, amended: an operation that always returns an empty result is called
    exactly [retries] times by [safe_call_adk], which then returns [None]
    and does not raise, provided the delays of the attempts below
    [retries] are within the doubles. *)
Theorem safe_call_adk_exhausts_retries {A} `{HasCallAdk A} (agent : A) prompt context
    (retries : Z) base_delay env w :
  counts_calls env agent → always_empty env agent → (0 <= retries)%Z →
  delays_in_range base_delay retries →
  (safe_call_adk agent prompt context retries base_delay env w).1 = Returned None
  ∧ (Z.of_nat (adk_calls (safe_call_adk agent prompt context retries base_delay env w).2)
     = Z.of_nat (adk_calls w) + retries)%Z.
Proof.
  intros Hcount Hempty Hpos Hrange. unfold safe_call_adk, range, bind.
  destruct (attempts_all_empty agent prompt context base_delay env Hcount Hempty
              (Z.to_nat retries) 0%nat w (delays_in_range_from_zero _ _ Hrange))
    as (w' & Hrun & Hcalls).
  rewrite Hrun. cbn. split; [reflexivity | lia].
Qed.

(** C4, amended: whenever the operation yields anything other than [None],
    the empty string included, at the first attempt or after any number of
    empty answers below [retries], each of them backed off, [safe_call_adk]
    returns that answer at once: the world it ends in is the one the
    operation left, with no backoff and no further attempt. *)
Theorem safe_call_adk_returns_first_answer {A} `{HasCallAdk A} (agent : A) prompt context
    (retries : Z) base_delay env w delays wk text w1 :
  empty_attempts agent prompt context base_delay env 0 w delays wk →
  (Z.of_nat (length delays) < retries)%Z →
  call_adk agent prompt context env wk = (Returned (Some text), w1) →
  safe_call_adk agent prompt context retries base_delay env w = (Returned (Some text), w1).
Proof.
  intros Hempty Hlt Hcall. unfold safe_call_adk, range. unfold bind at 1.
  replace (Z.to_nat retries) with (length delays + S (Z.to_nat retries - length delays - 1))%nat
    by lia.
  rewrite (attempts_after_empty _ _ _ _ _ _ _ _ _ Hempty). cbn [seq map for_return].
  unfold bind at 1. rewrite (attempt_once_answer _ _ _ _ _ _ _ _ _ Hcall). reflexivity.
Qed.

Lemma attempts_sleep_more {A} `{HasCallAdk A} (agent : A) prompt context base_delay env :
  never_sleeps env agent →
  ∀ n a w, ∃ later,
    slept (for_return (map Z.of_nat (seq a n))
             (attempt_once agent prompt context base_delay) env w).2 = slept w ++ later.
Proof.
  intros Hquiet. induction n as [|n IH]; intros a w.
  - exists []. by rewrite app_nil_r.
  - cbn [seq map for_return]. unfold bind at 1.
    pose proof (Hquiet prompt context w) as Hq.
    destruct (call_adk agent prompt context env w) as [[[text|]|e] w1] eqn:Hcall; cbn in Hq.
    + rewrite (attempt_once_answer _ _ _ _ _ _ _ _ _ Hcall). exists []. cbn.
      by rewrite app_nil_r.
    + destruct (backoff base_delay (Z.of_nat a) (random env (random_reads w1)))
        as [e|delay] eqn:Hdelay.
      * destruct (attempt_once_overflows _ _ _ _ _ _ _ _ _ Hcall Hdelay)
          as (w2 & -> & _ & _ & Hs). exists []. cbn. by rewrite app_nil_r, Hs.
      * rewrite (attempt_once_empty _ _ _ _ _ _ _ _ _ Hcall Hdelay). cbn [fst snd].
        destruct (IH (S a) (backed_off delay w1)) as [later ->].
        exists (delay :: later). cbn [backed_off slept]. by rewrite Hq, <- app_assoc.
    + rewrite (attempt_once_raises _ _ _ _ _ _ _ _ _ Hcall). exists []. cbn.
      by rewrite app_nil_r.
Qed.

(** C5, amended: the empty answers of the attempts 0, 1, ... below [retries]
    are each followed by a sleep, before the next attempt is made in the
    world after it. The delay slept after attempt [k] is the double nearest
    to [float(base_delay * 2^k) + jitter], for a jitter that is not
    negative; it is at least [base_delay * 2^k] when that number is
    between 0 and [2^53]. *)
Theorem backoff_delay_at_least_exponential {A} `{HasCallAdk A} (agent : A) prompt context
    (retries : Z) base_delay env w delays wk :
  (∀ n, (0 <= random env n)%Q) → never_sleeps env agent →
  empty_attempts agent prompt context base_delay env 0 w delays wk →
  (Z.of_nat (length delays) <= retries)%Z →
  (∃ later,
     slept (safe_call_adk agent prompt context retries base_delay env w).2
     = slept w ++ delays ++ later)
  ∧ ∀ k d, delays !! k = Some d →
      (∃ x jitter,
         float_of_int (base_delay * 2 ^ Z.of_nat k) = inr x ∧ (0 <= jitter)%Q
         ∧ d = round_float (x + jitter))
      ∧ ((0 <= base_delay * 2 ^ Z.of_nat k <= 2 ^ 53)%Z →
         (inject_Z (base_delay * 2 ^ Z.of_nat k) <= d)%Q).
Proof.
  intros Hrand Hquiet Hempty Hle. split.
  - unfold safe_call_adk, range, bind.
    replace (Z.to_nat retries) with (length delays + (Z.to_nat retries - length delays))%nat
      by lia.
    rewrite (attempts_after_empty _ _ _ _ _ _ _ _ _ Hempty).
    destruct (attempts_sleep_more agent prompt context base_delay env Hquiet
                (Z.to_nat retries - length delays) (0 + length delays) wk) as [later Hlater].
    exists later. rewrite app_assoc, <- (empty_attempts_slept _ _ _ _ _ _ _ _ _ Hquiet Hempty).
    destruct (for_return _ _ env wk) as [[[r|]|e] w1]; cbn in Hlater |- *; done.
  - intros k d Hk.
    destruct (empty_attempts_delays _ _ _ _ _ _ _ _ _ Hrand Hempty k d Hk) as (j & Hj & Hd).
    cbn [Nat.add] in Hd. split.
    + destruct (backoff_inv _ _ _ _ Hd) as (x & Hx & ->). by exists x, j.
    + intros Hn. by apply (backoff_lower_bound base_delay (Z.of_nat k) j).
Qed.

(** The [call_adk] methods of the agents count their calls and do not
    sleep. *)
Lemma call_adk_with_counts client on_error prompt context env w :
  (∀ e w0, adk_calls (on_error e env w0).2 = adk_calls w0) →
  adk_calls (call_adk_with client on_error prompt context env w).2 = S (adk_calls w).
Proof.
  intros Hon. unfold call_adk_with, bind, enter_call_adk, ask, try_except, lib,
    models_generate_content, ret. cbn.
  destruct (negb (adk_available env) || negb (bool_decide (is_Some client))); [done|].
  destruct context as [c|]; [destruct (context_truthy c); [destruct (json_dumps env c)|]|];
    cbn; try destruct (generate_content env _ _); cbn;
    try (match goal with |- context [on_error ?e env ?w0] =>
           specialize (Hon e w0); destruct (on_error e env w0) as [[?|?] ?] end);
    cbn in *; congruence.
Qed.

Lemma call_adk_with_never_sleeps client on_error prompt context env w :
  (∀ e w0, slept (on_error e env w0).2 = slept w0) →
  slept (call_adk_with client on_error prompt context env w).2 = slept w.
Proof.
  intros Hon. unfold call_adk_with, bind, enter_call_adk, ask, try_except, lib,
    models_generate_content, ret. cbn.
  destruct (negb (adk_available env) || negb (bool_decide (is_Some client))); [done|].
  destruct context as [c|]; [destruct (context_truthy c); [destruct (json_dumps env c)|]|];
    cbn; try destruct (generate_content env _ _); cbn;
    try (match goal with |- context [on_error ?e env ?w0] =>
           specialize (Hon e w0); destruct (on_error e env w0) as [[?|?] ?] end);
    cbn in *; congruence.
Qed.

Lemma silent_service_always_empty client choices :
  always_empty (sample_env silent_service sample_pdf choices) (data_cleaning.init client None).
Proof.
  intros prompt context w. unfold call_adk, data_cleaning.call_adk_cleaning, call_adk_with.
  destruct client as [c|]; cbn; [|reflexivity].
  destruct context as [ctx|]; [destruct (context_truthy ctx)|]; reflexivity.
Qed.

Lemma default_delays_in_range : delays_in_range 5 5.
Proof.
  intros attempt Hattempt.
  assert (attempt = 0 ∨ attempt = 1 ∨ attempt = 2 ∨ attempt = 3 ∨ attempt = 4)%Z
    as [->|[->|[->|[->| ->]]]] by lia;
    eexists; vm_compute; reflexivity.
Defined.

Lemma safe_call_adk_exhausts_retries_witness :
  let env := sample_env silent_service sample_pdf [] in
  let agent := data_cleaning.init sample_client None in
  (safe_call_adk agent "Provide a JSON cleaning strategy for this dataset." None 5 5
                 env empty_world).1 = Returned None
  ∧ (Z.of_nat (adk_calls (safe_call_adk agent
        "Provide a JSON cleaning strategy for this dataset." None 5 5 env empty_world).2)
     = Z.of_nat (adk_calls empty_world) + 5)%Z.
Proof.
  intros env agent.
  apply (safe_call_adk_exhausts_retries agent _ None 5 5 env empty_world).
  - intros prompt context w. apply call_adk_with_counts. reflexivity.
  - apply silent_service_always_empty.
  - lia.
  - apply default_delays_in_range.
Defined.

(** C3, as stated, fails: the delay is a float, and the conversion of
    [base_delay * 2 ** attempt] raises OverflowError beyond the doubles.
    With the default [base_delay] of 5 and 1023 retries, the operation
    answering empty every time, [safe_call_adk] raises after the 1023rd
    call; with a [base_delay] of [2 ** 1024] it raises after the first. *)
Lemma safe_call_adk_raises_beyond_float_range :
  let env := sample_env silent_service sample_pdf [] in
  let agent := data_cleaning.init sample_client None in
  let late := safe_call_adk agent "Provide a JSON cleaning strategy for this dataset."
                            None 1023 5 env empty_world in
  let early := safe_call_adk agent "Provide a JSON cleaning strategy for this dataset."
                             None 5 (2 ^ 1024) env empty_world in
  always_empty env agent
  ∧ late.1 = Raised (Fault "int too large to convert to float")
  ∧ adk_calls late.2 = 1023%nat ∧ length (slept late.2) = 1022%nat
  ∧ early.1 = Raised (Fault "int too large to convert to float")
  ∧ adk_calls early.2 = 1%nat ∧ slept early.2 = [].
Proof.
  intros env agent late early. split; [apply silent_service_always_empty|].
  vm_compute. repeat split.
Qed.

(** C4, as stated, fails: an operation that answers with the empty string is
    not retried; the empty string is returned after one call and no
    backoff. *)
Lemma empty_string_is_returned_not_retried :
  let env := sample_env empty_service sample_pdf [] in
  let agent := data_cleaning.init sample_client sample_model in
  let run := safe_call_adk agent "Provide a JSON cleaning strategy for this dataset."
                           None 5 5 env empty_world in
  call_adk agent "Provide a JSON cleaning strategy for this dataset." None env empty_world
    = (Returned (Some ""), mkWorld [] 0 0 1 1 [] [])
  ∧ run.1 = Returned (Some "") ∧ adk_calls run.2 = 1%nat ∧ slept run.2 = [].
Proof. vm_compute. repeat split. Qed.

Lemma safe_call_adk_returns_first_answer_witness :
  let env := sample_env slow_service sample_pdf [] in
  let agent := data_cleaning.init sample_client sample_model in
  let prompt := "Provide a JSON cleaning strategy for this dataset." in
  let delays := [11 # 2; 21 # 2; 41 # 2] in
  let wk := mkWorld [] 0 3 3 3 delays (map LineRetrying delays) in
  let w1 := mkWorld [] 0 3 4 4 delays (map LineRetrying delays) in
  empty_attempts agent prompt None 5 env 0 empty_world delays wk
  ∧ (Z.of_nat (length delays) < 5)%Z
  ∧ call_adk agent prompt None env wk = (Returned (Some "Drop the duplicate rows."), w1)
  ∧ safe_call_adk agent prompt None 5 5 env empty_world
    = (Returned (Some "Drop the duplicate rows."), w1).
Proof.
  intros env agent prompt delays wk w1.
  assert (empty_attempts agent prompt None 5 env 0 empty_world delays wk) as Hempty.
  { do 3 (eapply empty_attempt; [vm_compute; reflexivity | vm_compute; reflexivity |]).
    apply no_attempt. }
  assert (Z.of_nat (length delays) < 5)%Z as Hlt by (cbn; lia).
  assert (call_adk agent prompt None env wk
          = (Returned (Some "Drop the duplicate rows."), w1)) as Hcall
    by (vm_compute; reflexivity).
  do 3 (split; [assumption|]).
  exact (safe_call_adk_returns_first_answer agent prompt None 5 5 env empty_world delays wk
           "Drop the duplicate rows." w1 Hempty Hlt Hcall).
Defined.

(** C5, as stated, fails: the delay is the double nearest to the sum, which
    can be below [base_delay * 2^k]. With a [base_delay] of [2 ** 53 + 1]
    and a jitter of one half, the delay slept after attempt 0 is
    [2 ** 53]. *)
Lemma backoff_delay_rounds_below_exponential :
  let env := sample_env silent_service sample_pdf [] in
  let agent := data_cleaning.init sample_client None in
  let run := safe_call_adk agent "Provide a JSON cleaning strategy for this dataset."
                           None 1 (2 ^ 53 + 1) env empty_world in
  random env 0 = (1 # 2)%Q
  ∧ run.1 = Returned None
  ∧ slept run.2 = [inject_Z (2 ^ 53)]
  ∧ (inject_Z (2 ^ 53) < inject_Z ((2 ^ 53 + 1) * 2 ^ 0))%Q.
Proof. vm_compute. repeat split. Qed.

Lemma backoff_delay_at_least_exponential_witness :
  let env := sample_env silent_service sample_pdf [] in
  let agent := data_cleaning.init sample_client None in
  let delays := [11 # 2; 21 # 2; 41 # 2] in
  let wk := mkWorld [] 0 3 3 3 delays (map LineRetrying delays) in
  (∀ n, (0 <= random env n)%Q)
  ∧ never_sleeps env agent
  ∧ empty_attempts agent "p" None 5 env 0 empty_world delays wk
  ∧ (Z.of_nat (length delays) <= 5)%Z
  ∧ (∃ later,
       slept (safe_call_adk agent "p" None 5 5 env empty_world).2
       = slept empty_world ++ delays ++ later)
  ∧ ∀ k d, delays !! k = Some d →
      (∃ x jitter,
         float_of_int (5 * 2 ^ Z.of_nat k) = inr x ∧ (0 <= jitter)%Q
         ∧ d = round_float (x + jitter))
      ∧ ((0 <= 5 * 2 ^ Z.of_nat k <= 2 ^ 53)%Z → (inject_Z (5 * 2 ^ Z.of_nat k) <= d)%Q).
Proof.
  intros env agent delays wk.
  assert (∀ n, (0 <= random env n)%Q) as Hrand by (intros n; cbn; lra).
  assert (never_sleeps env agent) as Hquiet.
  { intros prompt context w. apply call_adk_with_never_sleeps. reflexivity. }
  assert (empty_attempts agent "p" None 5 env 0 empty_world delays wk) as Hempty.
  { do 3 (eapply empty_attempt; [vm_compute; reflexivity | vm_compute; reflexivity |]).
    apply no_attempt. }
  assert (Z.of_nat (length delays) <= 5)%Z as Hle by (cbn; lia).
  do 4 (split; [assumption|]).
  exact (backoff_delay_at_least_exponential agent "p" None 5 5 env empty_world delays wk
           Hrand Hquiet Hempty Hle).
Defined.

(** ** A small program logic for [keeps] *)

Lemma keeps_weaken {A} h0 (c : Py A) (Φ Ψ : A → Prop) :
  keeps h0 c Φ → (∀ a, Φ a → Ψ a) → keeps h0 c Ψ.
Proof. intros Hc Himp env w Hw. destruct (Hc env w Hw) as [? HΦ]. naive_solver. Qed.

Lemma keeps_ret {A} h0 (a : A) (Φ : A → Prop) : Φ a → keeps h0 (ret a) Φ.
Proof. intros Ha env w Hw. split; [done|]. cbn. by intros ? [= <-]. Qed.

Lemma keeps_raise {A} h0 e (Φ : A → Prop) : keeps h0 (raise e) Φ.
Proof. intros env w Hw. split; [done|]. cbn. by intros ? [=]. Qed.

Lemma keeps_bind {A B} h0 (c : Py A) (k : A → Py B) (Ψ : A → Prop) (Φ : B → Prop) :
  keeps h0 c Ψ → (∀ a, Ψ a → keeps h0 (k a) Φ) → keeps h0 (bind c k) Φ.
Proof.
  intros Hc Hk env w Hw. unfold bind. destruct (Hc env w Hw) as [Hpre HΨ].
  destruct (c env w) as [[a|e] w1]; cbn in *.
  - apply (Hk a (HΨ a eq_refl) env w1 Hpre).
  - split; [done|]. by intros ? [=].
Qed.

Lemma keeps_try_except {A} h0 (c : Py A) (h : Exn → Py A) (Φ : A → Prop) :
  keeps h0 c Φ → (∀ e, keeps h0 (h e) Φ) → keeps h0 (try_except c h) Φ.
Proof.
  intros Hc Hh env w Hw. unfold try_except. destruct (Hc env w Hw) as [Hpre HΦ].
  destruct (c env w) as [[a|e] w1]; cbn in *.
  - split; [done|]. intros ? [= <-]. by apply HΦ.
  - apply (Hh e env w1 Hpre).
Qed.

Lemma keeps_heap_blind {A} h0 (c : Py A) : heap_blind c → keeps h0 c (λ _, True).
Proof. intros Hc env w Hw. rewrite Hc. done. Qed.

Lemma keeps_lib {A} h0 (f : Env → Exn + A) : keeps h0 (lib f) (λ _, True).
Proof. apply keeps_heap_blind. intros env w. unfold lib. by destruct (f env). Qed.

Lemma keeps_ask h0 : keeps h0 ask (λ _, True).
Proof. by apply keeps_heap_blind. Qed.

Lemma keeps_time_time h0 : keeps h0 time_time (λ _, True).
Proof. by apply keeps_heap_blind. Qed.

Lemma keeps_random_random h0 : keeps h0 random_random (λ _, True).
Proof. by apply keeps_heap_blind. Qed.

Lemma keeps_print h0 l : keeps h0 (print l) (λ _, True).
Proof. by apply keeps_heap_blind. Qed.

Lemma keeps_asyncio_sleep h0 d : keeps h0 (asyncio_sleep d) (λ _, True).
Proof. by apply keeps_heap_blind. Qed.

Lemma keeps_enter_call_adk h0 : keeps h0 enter_call_adk (λ _, True).
Proof. by apply keeps_heap_blind. Qed.

Lemma keeps_models_generate_content h0 p :
  keeps h0 (models_generate_content p) (λ _, True).
Proof.
  apply keeps_heap_blind. intros env w. unfold models_generate_content.
  by destruct (generate_content env _ _).
Qed.

Lemma keeps_lookup_global h0 globals name : keeps h0 (lookup_global globals name) (λ _, True).
Proof.
  unfold lookup_global. case_bool_decide; [by apply keeps_ret | apply keeps_raise].
Qed.

Lemma keeps_get_frame h0 r : keeps h0 (get_frame r) (λ _, True).
Proof. apply keeps_heap_blind. intros env w. unfold get_frame. by destruct (heap w !! r). Qed.

Lemma keeps_new_frame h0 f : keeps h0 (new_frame f) (λ r, (length h0 ≤ r)%nat).
Proof.
  intros env w Hw. cbn. split.
  - by apply prefix_app_r.
  - intros ? [= <-]. by apply prefix_length.
Qed.

Lemma keeps_copy h0 r : keeps h0 (copy r) (λ r', (length h0 ≤ r')%nat).
Proof.
  unfold copy. eapply keeps_bind; [apply keeps_get_frame|]. intros f _. apply keeps_new_frame.
Qed.

Lemma prefix_insert_ge (h0 h : list DataFrame) (r : nat) (f : DataFrame) :
  (length h0 ≤ r)%nat → h0 `prefix_of` h → h0 `prefix_of` <[r := f]> h.
Proof.
  intros Hr [k ->]. exists (<[r - length h0 := f]> k).
  by rewrite insert_app_r_alt.
Qed.

Lemma keeps_setitem h0 r col s : (length h0 ≤ r)%nat → keeps h0 (setitem r col s) (λ _, True).
Proof.
  intros Hr. unfold setitem. eapply keeps_bind; [apply keeps_get_frame|]. intros f _.
  intros env w Hw. cbn. split; [|done]. by apply prefix_insert_ge.
Qed.

Lemma keeps_for_fold {A S} h0 (xs : list A) (body : S → A → Py S) (I : S → Prop) :
  (∀ acc x, I acc → keeps h0 (body acc x) I) →
  ∀ acc, I acc → keeps h0 (for_fold xs acc body) I.
Proof.
  intros Hbody. induction xs as [|x xs IH]; intros acc Hacc; cbn.
  - by apply keeps_ret.
  - eapply keeps_bind; [by apply Hbody|]. intros acc' Hacc'. by apply IH.
Qed.

Lemma keeps_for_return {A R} h0 (xs : list A) (body : A → Py (option R)) :
  (∀ x, keeps h0 (body x) (λ _, True)) → keeps h0 (for_return xs body) (λ _, True).
Proof.
  intros Hbody. induction xs as [|x xs IH]; cbn.
  - by apply keeps_ret.
  - eapply keeps_bind; [apply Hbody|]. intros [r|] _; [by apply keeps_ret | apply IH].
Qed.

Lemma keeps_bind_any {A B} h0 (c : Py A) (k : A → Py B) (Φ : B → Prop) :
  keeps h0 c (λ _, True) → (∀ a, keeps h0 (k a) Φ) → keeps h0 (bind c k) Φ.
Proof. intros Hc Hk. eapply keeps_bind; [exact Hc|]. intros a _. apply Hk. Qed.

Lemma keeps_any {A} h0 (c : Py A) (Φ : A → Prop) : keeps h0 c Φ → keeps h0 c (λ _, True).
Proof. intros Hc. by eapply keeps_weaken. Qed.

Create HintDb keeps_db.
#[local] Hint Resolve keeps_lib keeps_ask keeps_time_time keeps_random_random keeps_print
  keeps_asyncio_sleep keeps_enter_call_adk keeps_models_generate_content
  keeps_lookup_global keeps_get_frame keeps_raise : keeps_db.

(** Walks through a computation: binds, handlers and branches are split,
    the leaves are closed by the lemmas of [keeps_db]; what remains is the
    postcondition at the returns. *)
Ltac keeps_auto :=
  lazymatch goal with
  | |- keeps _ (bind _ _) _ =>
      eapply keeps_bind_any; [keeps_auto | intros ?; keeps_auto]
  | |- keeps _ (ret _) _ => apply keeps_ret; try done
  | |- keeps _ (raise _) _ => apply keeps_raise
  | |- keeps _ (try_except _ _) _ =>
      apply keeps_try_except; [keeps_auto | intros ?; keeps_auto]
  | |- keeps _ (if ?b then _ else _) _ => destruct b; keeps_auto
  | |- keeps _ (match ?x with _ => _ end) _ => destruct x; keeps_auto
  | |- keeps _ _ _ => try solve [eauto with keeps_db]
  end.

Lemma keeps_call_adk_with h0 client on_error prompt context :
  (∀ e, keeps h0 (on_error e) (λ _, True)) →
  keeps h0 (call_adk_with client on_error prompt context) (λ _, True).
Proof. intros Hon. unfold call_adk_with. keeps_auto. Qed.

Lemma keeps_safe_call_adk {A} `{HasCallAdk A} h0 (agent : A) prompt context retries base :
  (∀ p c, keeps h0 (call_adk agent p c) (λ _, True)) →
  keeps h0 (safe_call_adk agent prompt context retries base) (λ _, True).
Proof.
  intros Hcall. unfold safe_call_adk. eapply keeps_bind_any.
  - apply keeps_for_return. intros attempt. unfold attempt_once. keeps_auto.
  - intros r. unfold after_attempts. keeps_auto.
Qed.

Lemma keeps_call_adk_cleaning h0 (self : data_cleaning.DataCleaningAgent) p c :
  keeps h0 (call_adk self p c) (λ _, True).
Proof. apply keeps_call_adk_with. intros e. keeps_auto. Qed.

Lemma keeps_call_adk_eda h0 (self : eda.EDAAgent) p c :
  keeps h0 (call_adk self p c) (λ _, True).
Proof. apply keeps_call_adk_with. intros e. keeps_auto. Qed.

Lemma keeps_call_adk_anomaly h0 (self : anomaly.AnomalyAgent) p c :
  keeps h0 (call_adk self p c) (λ _, True).
Proof. apply keeps_call_adk_with. intros e. keeps_auto. Qed.

Lemma keeps_call_adk_ml h0 (self : ml_model.MLAgent) p c :
  keeps h0 (call_adk self p c) (λ _, True).
Proof. apply keeps_call_adk_with. intros e. keeps_auto. Qed.

Lemma keeps_call_adk_insights h0 (self : insights.BusinessInsightsAgent) p c :
  keeps h0 (call_adk self p c) (λ _, True).
Proof. apply keeps_call_adk_with. intros e. keeps_auto. Qed.

Lemma keeps_call_adk_report h0 (self : report.ReportAgent) p c :
  keeps h0 (call_adk self p c) (λ _, True).
Proof. apply keeps_call_adk_with. intros e. keeps_auto. Qed.

#[local] Hint Resolve keeps_call_adk_cleaning keeps_call_adk_eda keeps_call_adk_anomaly
  keeps_call_adk_ml keeps_call_adk_insights keeps_call_adk_report : keeps_db.

Lemma envelope_shape_success name p t :
  payload_keys p ≠ [] → envelope_shape (mkAgentResult name "success" (Some p) t None).
Proof. intros Hp. left. cbn. eauto. Qed.

Lemma envelope_shape_error name t description :
  envelope_shape (mkAgentResult name "error" None t (Some description)).
Proof. right. cbn. eauto. Qed.

#[local] Hint Resolve envelope_shape_success envelope_shape_error : keeps_db.

(** *** The cleaning task *)

Lemma keeps_fill_numeric h0 cleaned_df cols ops :
  (length h0 ≤ cleaned_df)%nat →
  keeps h0 (data_cleaning.fill_numeric cleaned_df cols ops) (λ _, True).
Proof.
  intros Hr. unfold data_cleaning.fill_numeric.
  apply keeps_for_fold; [|done]. intros acc col _.
  pose proof (keeps_setitem h0 cleaned_df) as Hset. keeps_auto.
Qed.

Lemma keeps_fill_categorical h0 cleaned_df cols ops :
  (length h0 ≤ cleaned_df)%nat →
  keeps h0 (data_cleaning.fill_categorical cleaned_df cols ops) (λ _, True).
Proof.
  intros Hr. unfold data_cleaning.fill_categorical.
  apply keeps_for_fold; [|done]. intros acc col _.
  pose proof (keeps_setitem h0 cleaned_df) as Hset. keeps_auto.
Qed.

Lemma keeps_cleaning_body h0 self df start :
  keeps h0 (data_cleaning.execute_body self df start) envelope_shape.
Proof.
  unfold data_cleaning.execute_body.
  eapply keeps_bind_any; [keeps_auto|]. intros frame.
  eapply keeps_bind_any; [keeps_auto|]. intros duplicates.
  eapply keeps_bind_any; [keeps_auto|]. intros env0.
  eapply keeps_bind_any.
  { destruct (bool_decide _); [|keeps_auto].
    eapply keeps_bind_any; [keeps_auto|]. intros _.
    apply keeps_safe_call_adk. eauto with keeps_db. }
  intros adk_resp.
  eapply keeps_bind; [apply keeps_copy|]. intros cleaned_df Hcleaned.
  eapply keeps_bind_any; [keeps_auto|]. intros frame'.
  eapply keeps_bind_any; [keeps_auto|]. intros recs.
  eapply keeps_bind_any; [keeps_auto|]. intros cleaned.
  eapply keeps_bind_any; [by apply keeps_fill_numeric|]. intros ops.
  eapply keeps_bind_any; [keeps_auto|]. intros cleaned'.
  eapply keeps_bind_any; [by apply keeps_fill_categorical|]. intros ops'.
  eapply keeps_bind_any; [keeps_auto|]. intros cleaned''.
  eapply keeps_bind_any; [keeps_auto|]. intros duplicates'.
  eapply keeps_bind_any.
  { destruct (0 <? duplicates')%nat; [|keeps_auto].
    eapply keeps_bind_any; [keeps_auto|]. intros unique.
    eapply keeps_bind_any; [eapply keeps_any, keeps_new_frame|]. intros r. keeps_auto. }
  intros [cleaned_df' ops''].
  keeps_auto. by apply envelope_shape_success.
Qed.

(** *** The other tasks *)

Lemma keeps_eda_body h0 self df start : keeps h0 (eda.execute_body self df start) envelope_shape.
Proof.
  unfold eda.execute_body.
  eapply keeps_bind_any; [keeps_auto|]. intros frame.
  eapply keeps_bind_any; [keeps_auto|]. intros basic_stats.
  eapply keeps_bind_any; [keeps_auto|]. intros env0.
  eapply keeps_bind_any; [keeps_auto|]. intros [correlations visualizations].
  eapply keeps_bind_any.
  { apply keeps_for_fold; [|done]. intros acc [col s] _. keeps_auto. }
  intros visualizations'.
  eapply keeps_bind_any; [keeps_auto|]. intros adk_insights.
  keeps_auto. by apply envelope_shape_success.
Qed.

Lemma keeps_detect h0 frame : keeps h0 (anomaly.detect frame) (λ _, True).
Proof.
  unfold anomaly.detect. apply keeps_for_fold; [|done].
  intros [[obc summary] total] [col s] _. keeps_auto.
Qed.

Lemma keeps_anomaly_body h0 self df start :
  keeps h0 (anomaly.execute_body self df start) envelope_shape.
Proof.
  unfold anomaly.execute_body.
  eapply keeps_bind_any; [keeps_auto|]. intros frame.
  eapply keeps_bind_any; [apply keeps_detect|]. intros [[obc summary] total].
  eapply keeps_bind_any.
  { destruct (bool_decide _); [|keeps_auto].
    apply keeps_try_except; [|intros e; keeps_auto].
    eapply keeps_bind_any; [keeps_auto|]. intros _.
    apply keeps_safe_call_adk. eauto with keeps_db. }
  intros adk_insights.
  keeps_auto. by apply envelope_shape_success.
Qed.

Lemma keeps_encode_categorical h0 X_pre cols :
  (length h0 ≤ X_pre)%nat → keeps h0 (ml_model.encode_categorical X_pre cols) (λ _, True).
Proof.
  intros Hr. unfold ml_model.encode_categorical.
  apply keeps_for_fold; [|done]. intros [] col _.
  pose proof (keeps_setitem h0 X_pre) as Hset. keeps_auto.
Qed.

Lemma keeps_ml_body h0 self df target start :
  keeps h0 (ml_model.execute_body self df target start) envelope_shape.
Proof.
  unfold ml_model.execute_body.
  eapply keeps_bind_any; [keeps_auto|]. intros frame.
  eapply keeps_bind.
  { instantiate (1 := λ chosen, match chosen with inl r => envelope_shape r | inr _ => True end).
    keeps_auto. by apply envelope_shape_success. }
  intros [early|chosen] Hchosen; [by apply keeps_ret|].
  destruct (negb _).
  { keeps_auto. apply envelope_shape_error. }
  eapply keeps_bind_any; [keeps_auto|]. intros y.
  eapply keeps_bind; [apply keeps_new_frame|]. intros X_pre HX.
  eapply keeps_bind_any; [by apply keeps_encode_categorical|]. intros _.
  keeps_auto. by apply envelope_shape_success.
Qed.

Lemma keeps_insights_body h0 self all_results start :
  keeps h0 (insights.execute_body self all_results start) envelope_shape.
Proof.
  unfold insights.execute_body, insights.get_original_shape, insights.get_total_anomalies,
    insights.get_insights.
  eapply keeps_bind_any; [keeps_auto|]. intros [[summary findings] recs].
  eapply keeps_bind_any; [keeps_auto|]. intros summary'.
  eapply keeps_bind_any; [keeps_auto|]. intros [findings' recs'].
  eapply keeps_bind_any; [keeps_auto|]. intros [findings'' recs''].
  keeps_auto. by apply envelope_shape_success.
Qed.

Lemma keeps_generate_agent_description h0 self agent_name agent_key :
  keeps h0 (report._generate_agent_description self agent_name agent_key) (λ _, True).
Proof. unfold report._generate_agent_description, report._clean_text. keeps_auto. Qed.

Lemma keeps_report_body h0 self all_results business_insights start :
  keeps h0 (report.execute_body self all_results business_insights start) envelope_shape.
Proof.
  unfold report.execute_body, report._generate_pdf_report.
  eapply keeps_bind_any.
  { eapply keeps_bind_any; [keeps_auto|]. intros _.
    eapply keeps_bind_any; [|intros; keeps_auto].
    apply keeps_for_fold; [|done]. intros acc [key result] _.
    eapply keeps_bind_any; [keeps_auto|]. intros _.
    eapply keeps_bind_any; [apply keeps_generate_agent_description|]. intros; keeps_auto. }
  intros pdf_path. keeps_auto. by apply envelope_shape_success.
Qed.

Lemma task_execute_guarded t : task_execute t = guarded (task_name t) (task_body t).
Proof. by destruct t. Qed.

Lemma keeps_task_body h0 t start : keeps h0 (task_body t start) envelope_shape.
Proof.
  destruct t; cbn [task_body];
    auto using keeps_cleaning_body, keeps_eda_body, keeps_anomaly_body, keeps_ml_body,
      keeps_insights_body, keeps_report_body.
Qed.

Lemma keeps_task_execute h0 t : keeps h0 (task_execute t) envelope_shape.
Proof.
  rewrite task_execute_guarded. unfold guarded.
  eapply keeps_bind_any; [keeps_auto|]. intros start.
  apply keeps_try_except; [apply keeps_task_body|]. intros e.
  keeps_auto. apply envelope_shape_error.
Qed.

Lemma guarded_returns name body env w :
  ∃ r w', guarded name body env w = (Returned r, w')
    ∧ (∀ e w1, body (clock env (clock_reads w)) env (tick w) = (Raised e, w1) →
         r = mkAgentResult name "error" None
               (clock env (clock_reads w1) - clock env (clock_reads w))%Q
               (Some (str_exn e))
         ∧ w' = tick w1)
    ∧ (∀ r1 w1, body (clock env (clock_reads w)) env (tick w) = (Returned r1, w1) →
         r = r1 ∧ w' = w1).
Proof.
  unfold guarded, bind, try_except, time_time. cbn. fold (tick w).
  destruct (body (clock env (clock_reads w)) env (tick w)) as [[r1|e] w1].
  - exists r1, w1. split; [done|]. split; [by intros ? ? [=] | by intros ? ? [= <- <-]].
  - eexists _, _. split; [reflexivity|]. split; [by intros ? ? [= <- <-] | by intros ? ? [=]].
Qed.

(** ** The task contract *)

(** C8: [execute] of every task returns an [AgentResult] and never raises;
    a fault raised inside the [try] block becomes a failure envelope whose
    error is the description of the fault and whose duration is the time
    from the start of the task to the handler. *)
Theorem task_execute_contains_faults (t : Task) env w :
  ∃ r w', task_execute t env w = (Returned r, w')
    ∧ ∀ e w1, task_body t (clock env (clock_reads w)) env (tick w) = (Raised e, w1) →
        r = mkAgentResult (task_name t) "error" None
              (clock env (clock_reads w1) - clock env (clock_reads w))%Q
              (Some (str_exn e)).
Proof.
  rewrite task_execute_guarded.
  destruct (guarded_returns (task_name t) (task_body t) env w) as (r & w' & Hrun & Hfault & _).
  exists r, w'. split; [exact Hrun|]. intros e w1 Hbody. by destruct (Hfault e w1 Hbody).
Qed.

(** C7, as stated, fails: a fault whose description is empty gives a
    failure envelope whose error is the empty string. *)
Lemma failure_envelope_with_empty_description :
  let env := sample_env silent_service (inl (Fault "")) [] in
  ∃ results w1 insights w2 r w3,
    main.run_phase sample_tasks env sample_world = (Returned results, w1)
    ∧ insights.execute (insights.init None None) results env w1 = (Returned insights, w2)
    ∧ report.execute (report.init "project" None None) results insights env w2
      = (Returned r, w3)
    ∧ status r = "error" ∧ data r = None ∧ error r = Some ""
    ∧ ¬ envelope_shape_nonempty r.
Proof.
  eexists _, _, _, _, _, _.
  split; [vm_compute; reflexivity|]. split; [vm_compute; reflexivity|].
  split; [vm_compute; reflexivity|]. cbn. repeat split.
  intros [(Hs & _) | (_ & _ & d & Hd & Hne)];
    [cbn in Hs; discriminate | cbn in Hd; injection Hd as <-; by apply Hne].
Qed.

(** C7, amended: every envelope that a task's [execute] produces, and every
    envelope that the scheduler builds in place of a task that raised, has
    status success or error; a success carries a payload with at least one
    key and no error; a failure carries no payload and an error description
    that is present, though it is empty when the description of the fault
    is. *)
Theorem envelopes_have_shape :
  (∀ t env w,
     match (task_execute t env w).1 with
     | Returned r => envelope_shape r
     | Raised _ => False
     end)
  ∧ (∀ k e, envelope_shape (main.R k e)).
Proof.
  split.
  - intros t env w.
    destruct (guarded_returns (task_name t) (task_body t) env w) as (r & w' & Hrun & _).
    rewrite <- task_execute_guarded in Hrun.
    destruct (keeps_task_execute [] t env w) as [_ Hshape]; [apply prefix_nil|].
    rewrite Hrun in Hshape |- *. cbn. by apply Hshape.
  - intros k e. apply envelope_shape_error.
Qed.

(** C9: no task changes an object that exists when it starts, the frame it
    is given in particular: after [execute] the frame behind every
    reference is the one that was there before. *)
Theorem task_execute_leaves_input_unchanged (t : Task) env w (df : Ref) (frame : DataFrame) :
  heap w !! df = Some frame → heap (task_execute t env w).2 !! df = Some frame.
Proof.
  intros Hdf. destruct (keeps_task_execute (heap w) t env w) as [[k Hk] _]; [done|].
  rewrite Hk. by apply lookup_app_l_Some.
Qed.

Lemma task_execute_leaves_input_unchanged_witness :
  let env := sample_env silent_service sample_pdf [] in
  let t := CleaningTask (data_cleaning.init sample_client sample_model) 0 in
  heap (task_execute t env sample_world).2 !! 0%nat = Some sample_frame.
Proof.
  intros env t.
  apply (task_execute_leaves_input_unchanged t env sample_world 0 sample_frame).
  reflexivity.
Defined.

(** The fills of the cleaning task land in its own copy. *)
Example cleaning_fills_its_copy :
  let env := sample_env silent_service sample_pdf [] in
  let t := CleaningTask (data_cleaning.init None None) 0 in
  heap (task_execute t env sample_world).2
  = [sample_frame;
     [("price", NumSeries [Some 1%Q; Some 2%Q; Some 3%Q]);
      ("city", ObjSeries [Some "Oslo"; Some "Rome"; Some "Oslo"]);
      ("profit", NumSeries [Some 2%Q; Some 4%Q; Some 6%Q])]].
Proof. vm_compute. reflexivity. Qed.

(** ** The anomaly task and the retry wrapper *)

Lemma anomaly_safe_call_adk_unbound :
  lookup_global anomaly.globals "safe_call_adk" = raise (NameError "safe_call_adk").
Proof. vm_compute. reflexivity. Qed.

Lemma cleaning_safe_call_adk_bound :
  lookup_global data_cleaning.globals "safe_call_adk" = ret tt.
Proof. vm_compute. reflexivity. Qed.

Lemma for_fold_world_blind {A S} (xs : list A) (body : S → A → Py S) :
  (∀ acc x, world_blind (body acc x)) → ∀ acc, world_blind (for_fold xs acc body).
Proof.
  intros Hbody. induction xs as [|x xs IH]; intros acc env w; cbn; [done|].
  unfold bind. specialize (Hbody acc x env w).
  destruct (body acc x env w) as [[acc'|e] w1]; cbn in *; subst; [apply IH | done].
Qed.

Lemma detect_world_blind frame : world_blind (anomaly.detect frame).
Proof.
  unfold anomaly.detect. apply for_fold_world_blind.
  intros [[obc summary] total] [col [cells|cells]] env w; [|done].
  unfold bind, lib, ask, ret.
  destruct (quantile env cells (1 # 4)); [done|].
  destruct (quantile env cells (3 # 4)); [done|].
  by destruct (0 <? _)%nat.
Qed.

Lemma anomaly_execute_run (self : anomaly.AnomalyAgent) (df : Ref) env w :
  ∃ o, anomaly.execute self df env w = (o, tick (tick w))
    ∧ ∀ r, o = Returned r → status r = "success" →
        ∃ report, data r = Some (AnomalyData report)
                  ∧ AnomalyReport.adk_insights report = None.
Proof.
  unfold anomaly.execute, anomaly.execute_body.
  rewrite anomaly_safe_call_adk_unbound.
  unfold bind at 1. cbn [time_time]. fold (tick w). unfold try_except at 1.
  unfold bind at 1. unfold get_frame at 1.
  destruct (heap (tick w) !! df) as [frame|].
  2: { eexists. split; [reflexivity|]. intros r [= <-] Hs. cbn in Hs. discriminate. }
  unfold bind at 1. pose proof (detect_world_blind frame env (tick w)) as Hdetect.
  destruct (anomaly.detect frame env (tick w)) as [[[[obc summary] total]|e] w1];
    cbn in Hdetect; subst w1.
  2: { eexists. split; [reflexivity|]. intros r [= <-] Hs. cbn in Hs. discriminate. }
  destruct (bool_decide (is_Some (anomaly.adk_client self)));
    (eexists; split; [reflexivity|]; intros r [= <-] _; eexists; split; reflexivity).
Qed.

(** C10: [AnomalyAgent.execute] never calls the model service, never
    retries and never sleeps, whatever its client: the name [safe_call_adk]
    is unbound in the module, the [NameError] is swallowed, and every
    success envelope has [adk_insights = None]. *)
Theorem anomaly_never_attaches_adk_insights (self : anomaly.AnomalyAgent) (df : Ref) env w :
  lookup_global anomaly.globals "safe_call_adk" env w
    = (Raised (NameError "safe_call_adk"), w)
  ∧ adk_calls (anomaly.execute self df env w).2 = adk_calls w
  ∧ adk_requests (anomaly.execute self df env w).2 = adk_requests w
  ∧ slept (anomaly.execute self df env w).2 = slept w
  ∧ ∀ r, (anomaly.execute self df env w).1 = Returned r → status r = "success" →
      ∃ report, data r = Some (AnomalyData report)
                ∧ AnomalyReport.adk_insights report = None.
Proof.
  split; [by rewrite anomaly_safe_call_adk_unbound|].
  destruct (anomaly_execute_run self df env w) as (o & -> & Ho).
  repeat split; try reflexivity. exact Ho.
Qed.

(** With a client, the cleaning task does go through the retry wrapper:
    against a service that never answers it makes five calls and sleeps
    five times; the anomaly task makes none. *)
Example cleaning_retries_anomaly_does_not :
  let env := sample_env silent_service sample_pdf [] in
  let cleaning := data_cleaning.execute (data_cleaning.init sample_client sample_model) 0 in
  let anomaly := anomaly.execute (anomaly.init sample_client sample_model) 0 in
  adk_calls (cleaning env sample_world).2 = 5%nat
  ∧ length (slept (cleaning env sample_world).2) = 5%nat
  ∧ adk_calls (anomaly env sample_world).2 = 0%nat
  ∧ slept (anomaly env sample_world).2 = [].
Proof. vm_compute. repeat split. Qed.

(** ** The phase scheduler *)

(** *** Completion orders *)

Lemma completion_order_perm n choices pending :
  length pending = n → completion_order n choices pending ≡ₚ pending.
Proof.
  revert choices pending. induction n as [|n IH]; intros choices pending Hlen; cbn.
  - by destruct pending.
  - assert (hd 0%nat choices `mod` length pending < length pending)%nat as Hi
      by (apply Nat.mod_upper_bound; lia).
    destruct (lookup_lt_is_Some_2 _ _ Hi) as [t Ht]. rewrite Ht.
    etransitivity; [|symmetry; apply (delete_Permutation pending _ t Ht)].
    constructor. apply IH. rewrite length_delete by eauto. lia.
Qed.

(** Every order of completion is one the event loop can choose. *)
Lemma every_completion_order_is_possible (order pending : list nat) :
  order ≡ₚ pending → ∃ choices, completion_order (length pending) choices pending = order.
Proof.
  revert pending. induction order as [|t order IH]; intros pending Hperm.
  - apply Permutation_nil in Hperm as ->. by exists (@nil nat).
  - assert (t ∈ pending) as Hin by (apply elem_of_Permutation; exists order; by symmetry).
    apply list_elem_of_lookup in Hin as [i Hi].
    pose proof (lookup_lt_Some _ _ _ Hi) as Hlt.
    destruct (IH (delete i pending)) as [choices Hchoices].
    { apply (Permutation_cons_inv (a := t)).
      etransitivity; [exact Hperm | by apply delete_Permutation]. }
    exists (i :: choices). destruct pending as [|p pending]; [by cbn in Hlt|].
    cbn [length completion_order hd tl]. rewrite Nat.mod_small by (cbn in Hlt; lia).
    rewrite Hi. f_equal. rewrite <- Hchoices. rewrite length_delete by eauto. cbn.
    by rewrite Nat.sub_0_r.
Qed.

(** *** gather *)

Lemma settle_runs {A} (aw : Py A) env w :
  settle aw env w = (Returned (gathered (as_value (aw env w).1)), (aw env w).2).
Proof. unfold settle, as_value. by destruct (aw env w) as [[a|e] w1]. Qed.

Lemma ran_later {A} (aws : list (Py A)) env j aw rest w i res :
  aws !! j = Some aw → j ≠ i →
  ran aws env rest (aw env w).2 i res → ran aws env (j :: rest) w i res.
Proof.
  intros Hj Hne (awi & wi & Hawi & Hstart & ->). exists awi, wi. split; [done|].
  split; [|done]. cbn [start_world]. rewrite bool_decide_eq_false_2 by done. by rewrite Hj.
Qed.

Lemma gather_fills {A} (aws : list (Py A)) env (order : list nat) :
  NoDup order → (∀ i, i ∈ order → (i < length aws)%nat) →
  ∀ slots w,
    length slots = length aws →
    ∃ slots' w',
      for_fold order slots (fun slots i =>
        match aws !! i with
        | Some aw => res <- settle aw ;; ret (<[i := Some res]> slots)
        | None => ret slots
        end) env w = (Returned slots', w')
      ∧ length slots' = length aws
      ∧ (∀ i, i ∉ order → slots' !! i = slots !! i)
      ∧ (∀ i, i ∈ order →
           ∃ res, ran aws env order w i res ∧ slots' !! i = Some (Some (gathered res))).
Proof.
  induction order as [|j order IH]; intros Hnd Hbound slots w Hlen.
  - exists slots, w. repeat split; try done. intros i Hi. by apply elem_of_nil in Hi.
  - apply NoDup_cons in Hnd as [Hj Hnd]. cbn [for_fold].
    assert (j < length aws)%nat as Hlt by (apply Hbound; left).
    destruct (lookup_lt_is_Some_2 _ _ Hlt) as [aw Haw]. rewrite Haw.
    unfold bind at 1 2. rewrite settle_runs. cbn [ret].
    set (res := as_value (aw env w).1). set (w1 := (aw env w).2).
    destruct (IH Hnd (λ i Hi, Hbound i (list_elem_of_further _ _ _ Hi))
                 (<[j := Some (gathered res)]> slots) w1)
      as (slots' & w' & Hrun & Hlen' & Hrest & Hran).
    { by rewrite length_insert. }
    exists slots', w'. split; [exact Hrun|]. split; [exact Hlen'|]. split.
    + intros i Hi. apply not_elem_of_cons in Hi as [Hne Hi].
      rewrite Hrest by done. by apply list_lookup_insert_ne.
    + intros i Hi. apply elem_of_cons in Hi as [->|Hi].
      * exists res. split.
        -- exists aw, w. split; [done|]. split; [|done]. cbn [start_world].
           by rewrite bool_decide_eq_true_2.
        -- rewrite Hrest by done. apply list_lookup_insert_eq. lia.
      * destruct (Hran i Hi) as (resi & Hresi & Hslot). exists resi. split; [|done].
        apply (ran_later aws env j aw); [done| |done]. intros ->. done.
Qed.

Lemma filled_slots {A} (slots : list (option (Gathered A))) :
  ∀ P : nat → Exn + A → Prop,
    (∀ i, (i < length slots)%nat →
       ∃ res, P i res ∧ slots !! i = Some (Some (gathered res))) →
    ∃ completed,
      omap id slots = map gathered completed
      ∧ length completed = length slots
      ∧ ∀ i res, completed !! i = Some res → P i res.
Proof.
  induction slots as [|slot slots IH]; intros P Hfilled.
  - exists []. repeat split. intros i res. by rewrite lookup_nil.
  - destruct (Hfilled 0%nat) as (res & Hres & Hslot); [cbn; lia|].
    cbn in Hslot. injection Hslot as ->.
    destruct (IH (λ i, P (S i))) as (completed & Hmap & Hlen & HP).
    { intros i Hi. apply (Hfilled (S i)). cbn. lia. }
    exists (res :: completed). cbn. rewrite Hmap, Hlen. repeat split.
    intros [|i] r; cbn; [by intros [= <-] | apply HP].
Qed.

Lemma gather_returns {A} (aws : list (Py A)) env w :
  ∃ completed w',
    gather aws env w = (Returned (map gathered completed), w')
    ∧ length completed = length aws
    ∧ ∀ i res, completed !! i = Some res →
        ran aws env (completion_of env (length aws)) w i res.
Proof.
  unfold gather. unfold bind at 1. cbn [ask]. fold (completion_of env (length aws)).
  set (order := completion_of env (length aws)).
  assert (order ≡ₚ seq 0 (length aws)) as Hperm
    by (apply completion_order_perm; by rewrite length_seq).
  destruct (gather_fills aws env order) with
    (slots := replicate (length aws) (@None (Gathered A))) (w := w)
    as (slots' & w' & Hrun & Hlen & _ & Hran).
  { rewrite Hperm. apply NoDup_seq. }
  { intros i Hi. rewrite Hperm in Hi. apply elem_of_seq in Hi. lia. }
  { by rewrite length_replicate. }
  unfold bind at 1. rewrite Hrun. cbn [ret].
  destruct (filled_slots slots' (ran aws env order w)) as (completed & -> & Hlen' & Hall).
  { intros i Hi. apply Hran. rewrite Hperm. apply elem_of_seq. lia. }
  exists completed, w'. split; [done|]. split; [congruence | exact Hall].
Qed.

(** *** The result set of a phase *)

Lemma lookup_map {X Y} (f : X → Y) (l : list X) (i : nat) :
  map f l !! i = f <$> l !! i.
Proof. revert i. induction l as [|x l IH]; intros [|i]; cbn; auto. Qed.

Lemma dict_set_fresh {V} (d : Dict V) k v :
  k ∉ dict_keys d → dict_set d k v = d ++ [(k, v)].
Proof.
  induction d as [|[k' v'] d IH]; intros Hk; cbn; [done|].
  apply not_elem_of_cons in Hk as [Hne Hk].
  destruct (String.eqb_spec k' k) as [->|_]; [done|]. by rewrite IH.
Qed.

Lemma dict_get_app_fresh {V} (d : Dict V) k v :
  k ∉ dict_keys d → dict_get (d ++ [(k, v)]) k = Some v.
Proof.
  induction d as [|[k' v'] d IH]; intros Hk; cbn.
  - by rewrite String.eqb_refl.
  - apply not_elem_of_cons in Hk as [Hne Hk].
    destruct (String.eqb_spec k' k) as [->|_]; [done|]. by apply IH.
Qed.


Lemma dict_keys_envelopes (kcs : list (string * (Exn + AgentResult))) :
  dict_keys (map (λ kr, (kr.1, envelope_of kr.1 kr.2)) kcs) = map fst kcs.
Proof. unfold dict_keys. rewrite map_map. by apply map_ext. Qed.

Lemma record_result_fresh (acc : Dict AgentResult) k res env w :
  k ∉ dict_keys acc →
  ∃ w', main.record_result acc (k, gathered res) env w
        = (Returned (acc ++ [(k, envelope_of k res)]), w').
Proof.
  intros Hk. unfold main.record_result.
  destruct res as [e|r]; cbn [gathered envelope_of]; unfold main.print_status;
    rewrite dict_set_fresh, dict_get_app_fresh by done; by eexists.
Qed.

Lemma run_phase_assembles env (kcs : list (string * (Exn + AgentResult))) :
  ∀ acc w, NoDup (dict_keys acc ++ map fst kcs) →
    ∃ w', for_fold (map (λ kr, (kr.1, gathered kr.2)) kcs) acc main.record_result env w
          = (Returned (acc ++ map (λ kr, (kr.1, envelope_of kr.1 kr.2)) kcs), w').
Proof.
  induction kcs as [|[k res] kcs IH]; intros acc w Hnd.
  - exists w. cbn. by rewrite app_nil_r.
  - assert (k ∉ dict_keys acc) as Hk.
    { apply NoDup_app in Hnd as (_ & Hdisj & _). intros Hin. apply (Hdisj k Hin). left. }
    cbn [map for_fold fst snd]. unfold bind at 1.
    destruct (record_result_fresh acc k res env w Hk) as [w1 ->].
    destruct (IH (acc ++ [(k, envelope_of k res)]) w1) as [w' Hrun].
    { unfold dict_keys. rewrite map_app. cbn. rewrite <- app_assoc. exact Hnd. }
    exists w'. rewrite Hrun. cbn. by rewrite <- app_assoc.
Qed.

Lemma zip_gathered {X A} (keys : list X) (completed : list (Exn + A)) :
  zip keys (map gathered completed) = map (λ kr, (kr.1, gathered kr.2)) (zip keys completed).
Proof.
  revert completed. induction keys as [|k keys IH]; intros [|res completed]; cbn; [done..|].
  by rewrite IH.
Qed.

Lemma run_phase_returns (tasks : Dict (Py AgentResult)) env w :
  NoDup (dict_keys tasks) →
  ∃ completed w',
    main.run_phase tasks env w
      = (Returned (map (λ kr, (kr.1, envelope_of kr.1 kr.2)) (zip (dict_keys tasks) completed)),
         w')
    ∧ length completed = length tasks
    ∧ ∀ i res, completed !! i = Some res →
        ran (map snd tasks) env (completion_of env (length tasks)) w i res.
Proof.
  intros Hnd. unfold main.run_phase. unfold bind at 1.
  destruct (gather_returns (map snd tasks) env w) as (completed & w1 & -> & Hlen & Hran).
  cbv beta iota.
  rewrite length_map in Hlen, Hran. rewrite zip_gathered.
  destruct (run_phase_assembles env (zip (dict_keys tasks) completed) [] w1) as [w' Hrun].
  { cbn. rewrite fst_zip; [done|]. unfold dict_keys. rewrite length_map. lia. }
  exists completed, w'. split; [exact Hrun | by split].
Qed.


(** C6: the keys of the result set of a phase come in the order in which
    the tasks were registered, whatever the order in which the tasks
    complete: two runs of the phase, with any two event loops and worlds,
    give result sets with the same keys in the same order. *)
Theorem run_phase_key_order_is_registration_order (tasks : Dict (Py AgentResult))
    env1 w1 env2 w2 :
  NoDup (dict_keys tasks) →
  ∃ results1 w1' results2 w2',
    main.run_phase tasks env1 w1 = (Returned results1, w1')
    ∧ main.run_phase tasks env2 w2 = (Returned results2, w2')
    ∧ dict_keys results1 = dict_keys tasks
    ∧ dict_keys results2 = dict_keys results1.
Proof.
  intros Hnd.
  destruct (run_phase_returns tasks env1 w1 Hnd) as (c1 & w1' & Hrun1 & Hlen1 & _).
  destruct (run_phase_returns tasks env2 w2 Hnd) as (c2 & w2' & Hrun2 & Hlen2 & _).
  eexists _, w1', _, w2'. split; [exact Hrun1|]. split; [exact Hrun2|].
  rewrite !dict_keys_envelopes, !fst_zip; [done|..];
    unfold dict_keys; rewrite length_map; lia.
Qed.

Lemma faulty_tasks_distinct : NoDup (dict_keys faulty_tasks).
Proof. apply (bool_decide_unpack _). vm_compute. exact I. Defined.



(** The scenario of four tasks of which the second faults: four entries in
    the order of registration, the second a failure with the description
    of the fault and no duration, the others successes, although the tasks
    complete in the order ml, cleaning, anomaly, eda. *)
Example four_tasks_second_faults :
  let env := sample_env silent_service sample_pdf [3; 0; 1] in
  completion_order 4 (completion env) (seq 0 4) = [3; 0; 2; 1]%nat
  ∧ ∃ results w',
      main.run_phase faulty_tasks env sample_world = (Returned results, w')
      ∧ map (λ kr, (kr.1, status kr.2, error kr.2)) results
        = [("cleaning", "success", None);
           ("eda", "error", Some "charts directory is gone");
           ("anomaly", "success", None);
           ("ml", "success", None)]
      ∧ (execution_time <$> dict_get results "eda") = Some 0%Q.
Proof. split; [reflexivity|]. eexists _, _. vm_compute. repeat split. Qed.

Lemma run_phase_key_order_is_registration_order_witness :
  let env1 := sample_env silent_service sample_pdf [3; 0; 1] in
  let env2 := sample_env empty_service sample_pdf [1; 1; 1] in
  ∃ results1 w1' results2 w2',
    main.run_phase faulty_tasks env1 sample_world = (Returned results1, w1')
    ∧ main.run_phase faulty_tasks env2 sample_world = (Returned results2, w2')
    ∧ dict_keys results1 = dict_keys faulty_tasks
    ∧ dict_keys results2 = dict_keys results1.
Proof.
  intros env1 env2.
  apply (run_phase_key_order_is_registration_order faulty_tasks env1 sample_world
           env2 sample_world).
  exact faulty_tasks_distinct.
Defined.

(** ** The pipeline orchestrator *)

Lemma bind_returned {A B} (c : Py A) (k : A → Py B) env w a w1 :
  c env w = (Returned a, w1) → bind c k env w = k a env w1.
Proof. intros Hc. unfold bind. by rewrite Hc. Qed.

Lemma bind_raised {A B} (c : Py A) (k : A → Py B) env w e w1 :
  c env w = (Raised e, w1) → bind c k env w = (Raised e, w1).
Proof. intros Hc. unfold bind. by rewrite Hc. Qed.

Lemma print_returns l env w : ∃ w', print l env w = (Returned tt, w').
Proof. by eexists. Qed.

Lemma time_time_returns env w : ∃ t w', time_time env w = (Returned t, w').
Proof. by eexists _, _. Qed.

(** Loading succeeds when the file can be read and parsed. *)
Lemma load_csv_returns path env w raw :
  read_bytes env path = inr raw →
  (∀ enc, ∃ frame, read_csv env path enc = inr frame) →
  ∃ df frame w', main.load_csv_with_fallback path env w = (Returned df, w')
                 ∧ heap w' !! df = Some frame.
Proof.
  intros Hraw Hcsv. unfold main.load_csv_with_fallback, bind, lib, ask, try_except.
  rewrite Hraw.
  destruct (Hcsv match chardet_detect env raw with
                 | Some e => if String.eqb e "" then "latin1" else e
                 | None => "latin1"
                 end) as [frame Hframe].
  rewrite Hframe. eexists _, frame, _. split; [reflexivity|].
  cbn. by apply list_lookup_middle.
Qed.

(** When reportlab fails, so does [_generate_pdf_report]. *)
Lemma generate_pdf_report_raises self all_results business_insights env w :
  (∀ dir results insights descriptions,
     ∃ e, build_pdf env dir results insights descriptions = inl e) →
  ∃ e w1, report._generate_pdf_report self all_results business_insights env w
          = (Raised e, w1).
Proof.
  intros Hpdf. unfold report._generate_pdf_report.
  unfold bind at 1. destruct (lib _ env w) as [[[]|e] w1]; [|by eauto].
  unfold bind at 1. destruct (for_fold _ _ _ env w1) as [[descriptions|e] w2]; [|by eauto].
  unfold lib.
  destruct (Hpdf (report.output_pdf_dir self) all_results business_insights descriptions)
    as [e ->].
  by eauto.
Qed.

Lemma report_execute_fails self all_results business_insights env w :
  (∀ dir results insights descriptions,
     ∃ e, build_pdf env dir results insights descriptions = inl e) →
  ∃ r w', report.execute self all_results business_insights env w = (Returned r, w')
          ∧ status r = "error" ∧ data r = None.
Proof.
  intros Hpdf.
  change (report.execute self all_results business_insights)
    with (guarded (report.name self)
            (report.execute_body self all_results business_insights)).
  destruct (guarded_returns (report.name self)
              (report.execute_body self all_results business_insights) env w)
    as (r & w' & Hrun & Hfault & _).
  exists r, w'. split; [exact Hrun|].
  destruct (generate_pdf_report_raises self all_results business_insights env (tick w) Hpdf)
    as (e & w1 & Hgen).
  destruct (Hfault e w1) as [-> _]; [|done].
  unfold report.execute_body. by apply bind_raised.
Qed.

(** One step of [run_pipeline] that cannot fail: a print or a reading of
    the clock. *)
Ltac pipeline_step :=
  lazymatch goal with
  | |- (bind (print ?l) _ ?env ?w0).1 = _ =>
      let w' := fresh "w" in
      let H := fresh "H" in
      destruct (print_returns l env w0) as [w' H];
      erewrite bind_returned by exact H; clear H
  | |- (bind time_time _ ?env ?w0).1 = _ =>
      let t := fresh "t" in
      let w' := fresh "w" in
      let H := fresh "H" in
      destruct (time_time_returns env w0) as (t & w' & H);
      erewrite bind_returned by exact H; clear H
  end.

(** C1 fails on the code: when the report task returns a failure envelope,
    [run_pipeline] does not return the result set: the last line it prints
    reads [report.data.get('pdf_path')], and [report.data] is [None]. *)
Theorem run_pipeline_raises_when_report_fails ADK_CLIENT ADK_MODEL csv_path target env w raw :
  read_bytes env csv_path = inr raw →
  (∀ enc, ∃ frame, read_csv env csv_path enc = inr frame) →
  os_makedirs env "project/charts" = inr tt →
  (∀ dir results insights descriptions,
     ∃ e, build_pdf env dir results insights descriptions = inl e) →
  (main.run_pipeline ADK_CLIENT ADK_MODEL csv_path target env w).1
  = Raised (AttributeError "'NoneType' object has no attribute 'get'").
Proof.
  intros Hraw Hcsv Hdirs Hpdf. unfold main.run_pipeline.
  pipeline_step. do 3 pipeline_step.
  lazymatch goal with |- (bind _ _ env ?w0).1 = _ =>
    destruct (load_csv_returns csv_path env w0 raw Hraw Hcsv)
      as (df & frame & wl & Hload & Hdf) end.
  erewrite bind_returned by exact Hload.
  unfold bind at 1. unfold get_frame at 1. rewrite Hdf.
  pipeline_step.
  unfold bind at 1. unfold eda.init at 1. unfold bind at 1, lib at 1. rewrite Hdirs.
  cbn [ret].
  lazymatch goal with |- (bind (main.run_phase ?tasks) _ env ?w0).1 = _ =>
    destruct (run_phase_returns tasks env w0) as (completed & wp & Hphase & _) end.
  { apply (bool_decide_unpack _). vm_compute. exact I. }
  erewrite bind_returned by exact Hphase.
  lazymatch goal with |- (bind (insights.execute ?self ?results) _ env wp).1 = _ =>
    destruct (guarded_returns (insights.name self) (insights.execute_body self results) env wp)
      as (ins & wi & Hins & _) end.
  erewrite bind_returned by exact Hins.
  pipeline_step.
  lazymatch goal with |- (bind (report.execute ?self ?results ins) _ env ?w0).1 = _ =>
    destruct (report_execute_fails self results ins env w0 Hpdf)
      as (rep & wr & Hrep & Hstatus & Hdata) end.
  erewrite bind_returned by exact Hrep.
  do 4 pipeline_step.
  rewrite Hdata. reflexivity.
Qed.

Lemma run_pipeline_raises_when_report_fails_witness :
  (main.run_pipeline sample_client sample_model "project/sample_data.csv" (Some "profit")
     (sample_env silent_service failing_pdf []) empty_world).1
  = Raised (AttributeError "'NoneType' object has no attribute 'get'").
Proof.
  apply (run_pipeline_raises_when_report_fails sample_client sample_model
           "project/sample_data.csv" (Some "profit")
           (sample_env silent_service failing_pdf []) empty_world "price,city,profit").
  - reflexivity.
  - intros enc. by exists sample_frame.
  - reflexivity.
  - intros dir results insights descriptions. by eexists.
Defined.

(** A failure in phase 1 does not stop the pipeline: with a target column
    that does not exist the ML task fails, and [run_pipeline] returns the
    result set, the failure in it. *)
Example run_pipeline_returns_with_failed_task :
  ∃ results w',
    main.run_pipeline sample_client sample_model "project/sample_data.csv" (Some "margin")
      (sample_env silent_service sample_pdf []) empty_world = (Returned results, w')
    ∧ map (λ kr, (kr.1, status kr.2, error kr.2)) (main.agent_results results)
      = [("cleaning", "success", None);
         ("eda", "success", None);
         ("anomaly", "success", None);
         ("ml", "error", Some "Target column margin not in dataframe")]
    ∧ status (main.insights results) = "success"
    ∧ status (main.report results) = "success".
Proof. eexists _, _. vm_compute. repeat split. Qed.

(** * Further properties *)

(** ** The retrying invoker, whatever the operation answers *)

Lemma attempts_bounded {A} `{HasCallAdk A} (agent : A) prompt context base_delay env :
  counts_calls env agent → never_sleeps env agent →
  (∀ p c w, ∃ o w', call_adk agent p c env w = (Returned o, w')) →
  ∀ n a w,
    (∀ k, (a ≤ k < a + n)%nat → ∃ x, float_of_int (base_delay * 2 ^ Z.of_nat k) = inr x) →
    ∃ r w',
      for_return (map Z.of_nat (seq a n)) (attempt_once agent prompt context base_delay) env w
        = (Returned r, w')
      ∧ match r with
        | None => adk_calls w' = (adk_calls w + n)%nat
                  ∧ length (slept w') = (length (slept w) + n)%nat
        | Some result =>
            (∃ text, result = Some text)
            ∧ ∃ failed, (failed < n)%nat
                ∧ adk_calls w' = (adk_calls w + S failed)%nat
                ∧ length (slept w') = (length (slept w) + failed)%nat
        end.
Proof.
  intros Hcount Hquiet Hret. induction n as [|n IH]; intros a w Hrange.
  - exists None, w. split; [reflexivity|]. split; lia.
  - cbn [seq map for_return]. unfold bind at 1.
    pose proof (Hcount prompt context w) as Hc. pose proof (Hquiet prompt context w) as Hq.
    destruct (Hret prompt context w) as (o & w1 & Hcall). rewrite Hcall in Hc, Hq.
    cbn in Hc, Hq. destruct o as [text|].
    + rewrite (attempt_once_answer _ _ _ _ _ _ _ _ _ Hcall).
      exists (Some (Some text)), w1. split; [reflexivity|]. split; [by eexists|].
      exists 0%nat. rewrite Hc, Hq. repeat split; lia.
    + destruct (Hrange a ltac:(lia)) as [x Hx].
      rewrite (attempt_once_empty _ _ _ _ _ _ _ _ _ Hcall (backoff_in_range _ _ _ _ Hx)).
      cbn [fst snd].
      match goal with |- context [for_return _ _ env ?w2] =>
        destruct (IH (S a) w2) as (r & w' & Hrun & Hr) end.
      { intros k Hk. apply Hrange. lia. }
      exists r, w'. rewrite Hrun. split; [by destruct r|].
      cbn [backed_off adk_calls slept] in Hr. rewrite length_app in Hr. cbn [length] in Hr.
      destruct r as [result|].
      * destruct Hr as (Htext & failed & Hlt & Hcalls & Hslept). split; [done|].
        exists (S failed). rewrite Hcalls, Hslept, Hc, Hq. repeat split; lia.
      * destruct Hr as (Hcalls & Hslept). rewrite Hcalls, Hslept, Hc, Hq. split; lia.
Qed.

(** Whatever an operation that does not raise answers, [safe_call_adk]
    returns, the delays of the attempts below [retries] being within the
    doubles; it gives [None] only after [retries] calls and as many sleeps,
    and a result only after at most [retries] calls, with one sleep less
    than calls. *)
Theorem safe_call_adk_attempts_bounded {A} `{HasCallAdk A} (agent : A) prompt context
    (retries : Z) base_delay env w :
  counts_calls env agent → never_sleeps env agent →
  (∀ p c w, ∃ o w', call_adk agent p c env w = (Returned o, w')) →
  delays_in_range base_delay retries →
  ∃ result w',
    safe_call_adk agent prompt context retries base_delay env w = (Returned result, w')
    ∧ match result with
      | None => adk_calls w' = (adk_calls w + Z.to_nat retries)%nat
                ∧ length (slept w') = (length (slept w) + Z.to_nat retries)%nat
      | Some _ =>
          ∃ failed, (failed < Z.to_nat retries)%nat
            ∧ adk_calls w' = (adk_calls w + S failed)%nat
            ∧ length (slept w') = (length (slept w) + failed)%nat
      end.
Proof.
  intros Hcount Hquiet Hret Hrange. unfold safe_call_adk, range. unfold bind at 1.
  destruct (attempts_bounded agent prompt context base_delay env Hcount Hquiet Hret
              (Z.to_nat retries) 0%nat w (delays_in_range_from_zero _ _ Hrange))
    as (r & w' & Hrun & Hr).
  rewrite Hrun. destruct r as [result|]; cbn.
  - destruct Hr as ([text ->] & Hfailed). by exists (Some text), w'.
  - eexists None, _. split; [reflexivity|]. cbn. exact Hr.
Qed.

(** ** [call_adk] *)

Lemma task_call_adk_with (t : Task) prompt context :
  ∃ on_error,
    task_call_adk t prompt context = call_adk_with (task_client t) on_error prompt context
    ∧ (∀ e env w, ∃ w', on_error e env w = (Returned tt, w')
                        ∧ adk_calls w' = adk_calls w
                        ∧ adk_requests w' = adk_requests w
                        ∧ slept w' = slept w).
Proof.
  destruct t; (eexists; split; [reflexivity|]); intros e env w; by eexists.
Qed.

(** [call_adk] of every agent returns and never raises; it sends at most
    one request, and none at all, answering [None], when the agent has no
    client or the SDK could not be imported; it does not sleep. *)
Theorem call_adk_never_raises (t : Task) prompt context env w :
  ∃ result w',
    task_call_adk t prompt context env w = (Returned result, w')
    ∧ adk_calls w' = S (adk_calls w)
    ∧ (adk_requests w' = adk_requests w ∨ adk_requests w' = S (adk_requests w))
    ∧ slept w' = slept w
    ∧ (task_client t = None ∨ adk_available env = false →
         result = None ∧ adk_requests w' = adk_requests w).
Proof.
  destruct (task_call_adk_with t prompt context) as (on_error & -> & Hon).
  unfold call_adk_with, bind, enter_call_adk, ask, try_except, lib, models_generate_content,
    ret. cbn.
  destruct (adk_available env), (task_client t) as [client|]; cbn.
  2-4: eexists _, _; split; [reflexivity|]; cbn; repeat split; auto.
  assert (∀ e w0, ∃ w1, (let (o, w') := on_error e env w0 in
                         match o with
                         | Returned _ => (Returned (@None string), w')
                         | Raised e0 => (Raised e0, w')
                         end) = (Returned None, w1)
                        ∧ adk_calls w1 = adk_calls w0 ∧ adk_requests w1 = adk_requests w0
                        ∧ slept w1 = slept w0) as Hhandled.
  { intros e w0. destruct (Hon e env w0) as (w1 & -> & ?). by exists w1. }
  destruct context as [c|]; [destruct (context_truthy c); [destruct (json_dumps env c)|]|];
    cbn; try destruct (generate_content env _ _); cbn;
    try (match goal with |- context [on_error ?e env ?w0] =>
           destruct (Hhandled e w0) as (w1 & -> & Hc & Hr & Hs) end);
    eexists _, _; (split; [reflexivity|]); cbn; rewrite ?Hc, ?Hr, ?Hs; cbn;
    (repeat split; auto;
     try (intros [?|?]; discriminate);
     try (match goal with Hor : _ ∨ _ |- _ => destruct Hor; discriminate end)).
Qed.

(** ** Retrying against a live service *)

Lemma live_call_adk (self : data_cleaning.DataCleaningAgent) prompt context env w :
  adk_available env = true → is_Some (data_cleaning.adk_client self) →
  (∀ c, ∃ dumped, json_dumps env c = inr dumped) →
  ∃ full_prompt,
    call_adk self prompt context env w
    = (Returned (answer env (adk_requests w) full_prompt), requested w).
Proof.
  intros Hsdk [client Hclient] Hdumps.
  unfold call_adk, data_cleaning.call_adk_cleaning, call_adk_with, bind, enter_call_adk, ask,
    try_except, lib, models_generate_content, ret, answer, requested. cbn.
  rewrite Hsdk, Hclient. cbn.
  destruct context as [c|]; [destruct (context_truthy c); [destruct (Hdumps c) as [j ->]|]|];
    cbn;
    match goal with |- context [generate_content env _ ?fp] => exists fp end;
    by destruct (generate_content env _ _).
Qed.

Lemma attempts_succeed_after_failures (self : data_cleaning.DataCleaningAgent) prompt context
    base_delay env (r : string) :
  adk_available env = true → is_Some (data_cleaning.adk_client self) →
  (∀ c, ∃ dumped, json_dumps env c = inr dumped) →
  ∀ k n a w,
    (k < n)%nat →
    (∀ i, (a ≤ i < a + k)%nat → ∃ x, float_of_int (base_delay * 2 ^ Z.of_nat i) = inr x) →
    (∀ i p, (i < k)%nat → answer env (adk_requests w + i) p = None) →
    (∀ p, answer env (adk_requests w + k) p = Some r) →
    ∃ w',
      for_return (map Z.of_nat (seq a n)) (attempt_once self prompt context base_delay) env w
        = (Returned (Some (Some r)), w')
      ∧ adk_requests w' = (adk_requests w + S k)%nat
      ∧ adk_calls w' = (adk_calls w + S k)%nat
      ∧ length (slept w') = (length (slept w) + k)%nat.
Proof.
  intros Hsdk Hclient Hdumps.
  induction k as [|k IH]; intros n a w Hlt Hrange Hnone Hsome;
    (destruct n as [|n]; [lia|]);
    cbn [seq map for_return]; unfold bind at 1;
    destruct (live_call_adk self prompt context env w Hsdk Hclient Hdumps) as [fp Hcall].
  - pose proof (Hsome fp) as Hfp. rewrite Nat.add_0_r in Hfp. rewrite Hfp in Hcall.
    rewrite (attempt_once_answer _ _ _ _ _ _ _ _ _ Hcall).
    eexists. split; [reflexivity|]. cbn. repeat split; lia.
  - pose proof (Hnone 0%nat fp ltac:(lia)) as Hfp. rewrite Nat.add_0_r in Hfp.
    rewrite Hfp in Hcall. destruct (Hrange a ltac:(lia)) as [x Hx].
    rewrite (attempt_once_empty _ _ _ _ _ _ _ _ _ Hcall (backoff_in_range _ _ _ _ Hx)).
    cbn [fst snd].
    match goal with |- context [for_return _ _ env ?w2] =>
      destruct (IH n (S a) w2) as (w' & Hrun & Hreq & Hcalls & Hslept) end.
    + lia.
    + intros i Hi. apply Hrange. lia.
    + intros i p Hi. cbn [adk_requests requested backed_off].
      replace (S (adk_requests w) + i)%nat with (adk_requests w + S i)%nat by lia.
      apply Hnone. lia.
    + intros p. cbn [adk_requests requested backed_off].
      replace (S (adk_requests w) + k)%nat with (adk_requests w + S k)%nat by lia.
      apply Hsome.
    + exists w'. rewrite Hrun. split; [reflexivity|].
      cbn in Hreq, Hcalls, Hslept. rewrite length_app in Hslept. cbn in Hslept.
      repeat split; lia.
Qed.

(** When the service gives no text to the first [k] requests of the
    cleaning agent and answers the next one, with [k] smaller than
    [retries] and the delays of the first [k] attempts within the doubles,
    [safe_call_adk] returns that answer after [k + 1] requests and [k]
    sleeps. *)
Theorem safe_call_adk_succeeds_after_failures (self : data_cleaning.DataCleaningAgent)
    prompt context (retries : Z) base_delay env w (k : nat) (r : string) :
  adk_available env = true → is_Some (data_cleaning.adk_client self) →
  (∀ c, ∃ dumped, json_dumps env c = inr dumped) →
  (Z.of_nat k < retries)%Z →
  delays_in_range base_delay (Z.of_nat k) →
  (∀ i p, (i < k)%nat → answer env (adk_requests w + i) p = None) →
  (∀ p, answer env (adk_requests w + k) p = Some r) →
  ∃ w',
    safe_call_adk self prompt context retries base_delay env w = (Returned (Some r), w')
    ∧ adk_requests w' = (adk_requests w + k + 1)%nat
    ∧ adk_calls w' = (adk_calls w + k + 1)%nat
    ∧ length (slept w') = (length (slept w) + k)%nat.
Proof.
  intros Hsdk Hclient Hdumps Hk Hrange Hnone Hsome. unfold safe_call_adk, range.
  unfold bind at 1.
  destruct (attempts_succeed_after_failures self prompt context base_delay env r
              Hsdk Hclient Hdumps k (Z.to_nat retries) 0%nat w) as (w' & -> & Hr & Hc & Hs);
    [lia | | done | done |].
  { intros i Hi. apply Hrange. lia. }
  exists w'. split; [reflexivity|]. repeat split; lia.
Qed.

Lemma safe_call_adk_succeeds_after_failures_witness :
  let env := sample_env slow_service sample_pdf [] in
  let self := data_cleaning.init sample_client sample_model in
  ∃ w',
    safe_call_adk self "Provide a JSON cleaning strategy for this dataset." None 5 5
                  env empty_world
    = (Returned (Some "Drop the duplicate rows."), w')
    ∧ adk_requests w' = (adk_requests empty_world + 3 + 1)%nat
    ∧ adk_calls w' = (adk_calls empty_world + 3 + 1)%nat
    ∧ length (slept w') = (length (slept empty_world) + 3)%nat.
Proof.
  intros env self.
  apply (safe_call_adk_succeeds_after_failures self _ None 5 5 env empty_world 3).
  - reflexivity.
  - by eexists.
  - intros c. by eexists.
  - lia.
  - intros attempt Hattempt. apply default_delays_in_range. lia.
  - intros i p Hi. do 3 (destruct i as [|i]; [reflexivity|]). lia.
  - intros p. reflexivity.
Defined.

Lemma safe_call_adk_attempts_bounded_witness :
  let env := sample_env slow_service sample_pdf [] in
  let self := data_cleaning.init sample_client sample_model in
  ∃ result w',
    safe_call_adk self "Provide a JSON cleaning strategy for this dataset." None 2 5
                  env empty_world = (Returned result, w')
    ∧ match result with
      | None => adk_calls w' = (adk_calls empty_world + Z.to_nat 2)%nat
                ∧ length (slept w') = (length (slept empty_world) + Z.to_nat 2)%nat
      | Some _ =>
          ∃ failed, (failed < Z.to_nat 2)%nat
            ∧ adk_calls w' = (adk_calls empty_world + S failed)%nat
            ∧ length (slept w') = (length (slept empty_world) + failed)%nat
      end.
Proof.
  intros env self.
  apply (safe_call_adk_attempts_bounded self _ None 2 5 env empty_world).
  - intros prompt context w. apply call_adk_with_counts. reflexivity.
  - intros prompt context w. apply call_adk_with_never_sleeps. reflexivity.
  - intros p c w.
    destruct (live_call_adk self p c env w) as [fp ->];
      [reflexivity | by eexists | intros ctx; by eexists | by eexists _, _].
  - intros attempt Hattempt. apply default_delays_in_range. lia.
Defined.

(** ** The time spent backing off *)

Lemma empty_attempts_total_delay {A} `{HasCallAdk A} (agent : A) prompt context base_delay
    env a w delays wk :
  (∀ n, (0 <= random env n)%Q) → (0 <= base_delay)%Z →
  empty_attempts agent prompt context base_delay env a w delays wk →
  (base_delay * 2 ^ Z.of_nat (a + length delays) <= 2 ^ 53)%Z →
  (inject_Z (base_delay * (2 ^ Z.of_nat (a + length delays) - 2 ^ Z.of_nat a))
   <= total_delay delays)%Q.
Proof.
  intros Hrand Hbase.
  induction 1 as [a w|a w w1 delay delays w' Hcall Hdelay _ IH]; intros Hsmall.
  - cbn [length total_delay foldr]. rewrite Nat.add_0_r, Z.sub_diag, Z.mul_0_r. done.
  - cbn [length] in Hsmall. cbn [length total_delay foldr]. fold (total_delay delays).
    replace (a + S (length delays))%nat with (S a + length delays)%nat in * by lia.
    specialize (IH Hsmall).
    assert (0 < 2 ^ Z.of_nat a)%Z as Hpa by (apply Z.pow_pos_nonneg; lia).
    assert (2 ^ Z.of_nat a <= 2 ^ Z.of_nat (S a + length delays))%Z as Hmono
      by (apply Z.pow_le_mono_r; lia).
    assert (2 ^ Z.of_nat (S a) = 2 * 2 ^ Z.of_nat a)%Z as Hsucc
      by (rewrite Nat2Z.inj_succ, Z.pow_succ_r; lia).
    pose proof (backoff_lower_bound base_delay (Z.of_nat a) _ delay
                  (Hrand (random_reads w1)) ltac:(nia) Hdelay) as Hlow.
    rewrite Hsucc in IH.
    replace (base_delay * (2 ^ Z.of_nat (S a + length delays) - 2 ^ Z.of_nat a))%Z
      with (base_delay * 2 ^ Z.of_nat a
            + base_delay * (2 ^ Z.of_nat (S a + length delays) - 2 * 2 ^ Z.of_nat a))%Z
      by lia.
    rewrite inject_Z_plus. lra.
Qed.

(** When every attempt fails, [safe_call_adk] sleeps after each of them,
    the last one included: [retries] sleeps, which add up to at least
    [base_delay * (2^retries - 1)], for a [base_delay] that is not negative
    and delays of at most 53 bits. *)
Theorem safe_call_adk_total_backoff {A} `{HasCallAdk A} (agent : A) prompt context
    (retries : Z) base_delay env w :
  (∀ n, (0 <= random env n)%Q) → always_empty env agent → never_sleeps env agent →
  (0 <= retries)%Z → (0 <= base_delay)%Z → (base_delay * 2 ^ retries <= 2 ^ 53)%Z →
  ∃ delays,
    slept (safe_call_adk agent prompt context retries base_delay env w).2 = slept w ++ delays
    ∧ Z.of_nat (length delays) = retries
    ∧ (inject_Z (base_delay * (2 ^ retries - 1)) <= total_delay delays)%Q.
Proof.
  intros Hrand Hempty Hquiet Hpos Hbase Hsmall.
  destruct (always_empty_attempts agent prompt context base_delay env Hempty
              (Z.to_nat retries) 0%nat w) as (delays & wk & Hrun & Hlen).
  { intros k Hk. eexists. apply float_of_int_exact.
    assert (0 < 2 ^ Z.of_nat k)%Z by (apply Z.pow_pos_nonneg; lia).
    assert (2 ^ Z.of_nat k <= 2 ^ retries)%Z by (apply Z.pow_le_mono_r; lia). nia. }
  exists delays. split; [|split; [lia|]].
  - unfold safe_call_adk, range, bind.
    pose proof (attempts_after_empty _ _ _ _ _ _ _ _ _ Hrun 0%nat) as Hgo.
    rewrite Nat.add_0_r, Hlen in Hgo. rewrite Hgo. cbn.
    apply (empty_attempts_slept _ _ _ _ _ _ _ _ _ Hquiet Hrun).
  - pose proof (empty_attempts_total_delay _ _ _ _ _ _ _ _ _ Hrand Hbase Hrun) as Hsum.
    cbn [Nat.add] in Hsum. rewrite Hlen, Z2Nat.id in Hsum by lia. by apply Hsum.
Qed.

Lemma safe_call_adk_total_backoff_witness :
  let env := sample_env silent_service sample_pdf [] in
  let agent := data_cleaning.init sample_client sample_model in
  ∃ delays,
    slept (safe_call_adk agent "Provide a JSON cleaning strategy for this dataset." None 5 5
                         env empty_world).2 = slept empty_world ++ delays
    ∧ Z.of_nat (length delays) = 5%Z
    ∧ (inject_Z (5 * (2 ^ 5 - 1)) <= total_delay delays)%Q.
Proof.
  intros env agent.
  apply (safe_call_adk_total_backoff agent _ None 5 5 env empty_world).
  - intros n. cbn. lra.
  - intros prompt context w. unfold call_adk, data_cleaning.call_adk_cleaning, call_adk_with.
    cbn. destruct context as [ctx|]; [destruct (context_truthy ctx)|]; reflexivity.
  - intros prompt context w. apply call_adk_with_never_sleeps. reflexivity.
  - lia.
  - lia.
  - vm_compute. discriminate.
Defined.

(** ** What the tasks spend on the model service *)

Lemma uses_mono {A} (c : Py A) a b a' b' :
  uses a b c → (a ≤ a')%nat → (b ≤ b')%nat → uses a' b' c.
Proof. intros Hc Ha Hb env w. destruct (Hc env w) as (? & ? & ?). repeat split; lia. Qed.

Lemma uses_ret {A} (x : A) : uses 0 0 (ret x).
Proof. intros env w. cbn. repeat split; lia. Qed.

Lemma uses_raise {A} e : uses 0 0 (@raise A e).
Proof. intros env w. cbn. repeat split; lia. Qed.

Lemma uses_bind {A B} (c : Py A) (k : A → Py B) a b a' b' :
  uses a b c → (∀ x, uses a' b' (k x)) → uses (a + a') (b + b') (bind c k).
Proof.
  intros Hc Hk env w. unfold bind. specialize (Hc env w).
  destruct (c env w) as [[x|e] w1]; cbn in *.
  - specialize (Hk x env w1). destruct Hc as (? & ? & ?), Hk as (? & ? & ?).
    repeat split; lia.
  - destruct Hc as (? & ? & ?). repeat split; lia.
Qed.

Lemma uses_bind_quiet {A B} (c : Py A) (k : A → Py B) a b :
  uses 0 0 c → (∀ x, uses a b (k x)) → uses a b (bind c k).
Proof. intros Hc Hk. apply (uses_bind c k 0 0 a b Hc Hk). Qed.

Lemma uses_then_quiet {A B} (c : Py A) (k : A → Py B) a b :
  uses a b c → (∀ x, uses 0 0 (k x)) → uses a b (bind c k).
Proof.
  intros Hc Hk. eapply uses_mono; [apply (uses_bind c k a b 0 0 Hc Hk) | lia | lia].
Qed.

Lemma uses_try_except {A} (c : Py A) (h : Exn → Py A) a b :
  uses a b c → (∀ e, uses 0 0 (h e)) → uses a b (try_except c h).
Proof.
  intros Hc Hh env w. unfold try_except. specialize (Hc env w).
  destruct (c env w) as [[x|e] w1]; cbn in *; [done|].
  specialize (Hh e env w1). destruct Hc as (? & ? & ?), Hh as (? & ? & ?).
  repeat split; lia.
Qed.

(** A computation that leaves the three counts as they are. *)
Lemma uses_unchanged {A} (c : Py A) :
  (∀ env w, adk_calls (c env w).2 = adk_calls w
            ∧ adk_requests (c env w).2 = adk_requests w
            ∧ slept (c env w).2 = slept w) →
  uses 0 0 c.
Proof. intros Hc env w. destruct (Hc env w) as (-> & -> & ->). repeat split; lia. Qed.

Lemma uses_lib {A} (f : Env → Exn + A) : uses 0 0 (lib f).
Proof. apply uses_unchanged. intros env w. unfold lib. by destruct (f env). Qed.

Lemma uses_ask : uses 0 0 ask.
Proof. by apply uses_unchanged. Qed.

Lemma uses_time_time : uses 0 0 time_time.
Proof. by apply uses_unchanged. Qed.

Lemma uses_random_random : uses 0 0 random_random.
Proof. by apply uses_unchanged. Qed.

Lemma uses_print l : uses 0 0 (print l).
Proof. by apply uses_unchanged. Qed.

Lemma uses_lookup_global globals name : uses 0 0 (lookup_global globals name).
Proof. unfold lookup_global. case_bool_decide; [apply uses_ret | apply uses_raise]. Qed.

Lemma uses_get_frame r : uses 0 0 (get_frame r).
Proof. apply uses_unchanged. intros env w. unfold get_frame. by destruct (heap w !! r). Qed.

Lemma uses_new_frame f : uses 0 0 (new_frame f).
Proof. by apply uses_unchanged. Qed.

Lemma uses_copy r : uses 0 0 (copy r).
Proof.
  unfold copy. apply uses_bind_quiet; [apply uses_get_frame|]. intros f. apply uses_new_frame.
Qed.

Lemma uses_setitem r col s : uses 0 0 (setitem r col s).
Proof.
  unfold setitem. apply uses_bind_quiet; [apply uses_get_frame|]. intros f.
  by apply uses_unchanged.
Qed.

Lemma uses_asyncio_sleep d : uses 0 1 (asyncio_sleep d).
Proof. intros env w. cbn. rewrite length_app. cbn. repeat split; lia. Qed.

Lemma uses_for_fold {A S} (xs : list A) (body : S → A → Py S) a b :
  (∀ acc x, uses a b (body acc x)) →
  ∀ acc, uses (length xs * a) (length xs * b) (for_fold xs acc body).
Proof.
  intros Hbody. induction xs as [|x xs IH]; intros acc; cbn [for_fold length].
  - apply uses_ret.
  - eapply uses_mono; [apply (uses_bind _ _ a b _ _ (Hbody acc x) IH) | lia | lia].
Qed.

Lemma uses_for_fold_quiet {A S} (xs : list A) (body : S → A → Py S) :
  (∀ acc x, uses 0 0 (body acc x)) → ∀ acc, uses 0 0 (for_fold xs acc body).
Proof.
  intros Hbody acc. eapply uses_mono; [apply (uses_for_fold xs body 0 0 Hbody) | lia | lia].
Qed.

Lemma uses_for_return {A R} (xs : list A) (body : A → Py (option R)) a b :
  (∀ x, uses a b (body x)) → uses (length xs * a) (length xs * b) (for_return xs body).
Proof.
  intros Hbody. induction xs as [|x xs IH]; cbn [for_return length].
  - apply uses_ret.
  - eapply uses_mono; [apply (uses_bind _ _ a b (length xs * a) (length xs * b) (Hbody x)) | lia | lia].
    intros [r|]; [|exact IH]. eapply uses_mono; [apply uses_ret | lia | lia].
Qed.

Create HintDb uses_db.
#[local] Hint Resolve uses_ret uses_raise uses_lib uses_ask uses_time_time uses_random_random
  uses_print uses_lookup_global uses_get_frame uses_new_frame uses_copy uses_setitem : uses_db.

(** Walks through a computation that spends nothing. *)
Ltac uses_quiet :=
  lazymatch goal with
  | |- uses 0 0 (bind _ _) => apply uses_bind_quiet; [uses_quiet | intros ?; uses_quiet]
  | |- uses 0 0 (try_except _ _) => apply uses_try_except; [uses_quiet | intros ?; uses_quiet]
  | |- uses 0 0 (for_fold _ _ _) => apply uses_for_fold_quiet; intros ? ?; uses_quiet
  | |- uses _ _ (if ?b then _ else _) => destruct b; uses_quiet
  | |- uses _ _ (match ?x with _ => _ end) => destruct x; uses_quiet
  | |- uses _ _ _ => try solve [eauto with uses_db]
  end.

Lemma uses_call_adk_with client on_error prompt context :
  (∀ e env w, adk_calls (on_error e env w).2 = adk_calls w
              ∧ adk_requests (on_error e env w).2 = adk_requests w
              ∧ slept (on_error e env w).2 = slept w) →
  uses 1 0 (call_adk_with client on_error prompt context).
Proof.
  intros Hon env w.
  unfold call_adk_with, bind, enter_call_adk, ask, try_except, lib,
    models_generate_content, ret. cbn.
  destruct (negb (adk_available env) || negb (bool_decide (is_Some client)));
    [cbn; repeat split; lia|].
  destruct context as [c|]; [destruct (context_truthy c); [destruct (json_dumps env c)|]|];
    cbn; try destruct (generate_content env _ _); cbn;
    try (match goal with |- context [on_error ?e env ?w0] =>
           destruct (Hon e env w0) as (Hc & Hr & Hs);
           destruct (on_error e env w0) as [[?|?] ?] end);
    cbn in *; rewrite ?Hc, ?Hr, ?Hs; cbn; repeat split; lia.
Qed.

Lemma uses_task_call_adk (t : Task) prompt context : uses 1 0 (task_call_adk t prompt context).
Proof.
  destruct (task_call_adk_with t prompt context) as (on_error & -> & Hon).
  apply uses_call_adk_with. intros e env w. by destruct (Hon e env w) as (w' & -> & ?).
Qed.

Lemma uses_range_length (retries : Z) : length (range retries) = Z.to_nat retries.
Proof. unfold range. by rewrite length_map, length_seq. Qed.

Lemma uses_safe_call_adk {A} `{HasCallAdk A} (agent : A) prompt context retries base_delay :
  (∀ p c, uses 1 0 (call_adk agent p c)) →
  uses (Z.to_nat retries) (Z.to_nat retries)
       (safe_call_adk agent prompt context retries base_delay).
Proof.
  intros Hcall. unfold safe_call_adk. apply uses_then_quiet.
  - rewrite <- (uses_range_length retries).
    rewrite <- (Nat.mul_1_r (length (range retries))).
    apply uses_for_return. intros attempt. unfold attempt_once.
    apply (uses_bind _ _ 1 0 0 1); [apply Hcall|]. intros [text|].
    + eapply uses_mono; [apply uses_ret | lia | lia].
    + apply uses_bind_quiet; [uses_quiet|]. intros jitter.
      apply uses_bind_quiet; [apply uses_lib|]. intros delay.
      apply uses_bind_quiet; [uses_quiet|]. intros _.
      apply uses_then_quiet; [apply uses_asyncio_sleep | intros; uses_quiet].
  - intros r. unfold after_attempts. uses_quiet.
Qed.

Ltac uses_skip :=
  lazymatch goal with
  | |- uses _ _ (bind _ _) => apply uses_bind_quiet; [solve [uses_quiet] | intros ?]
  end.

Lemma uses_guarded name (body : Q → Py AgentResult) a b :
  (∀ start, uses a b (body start)) → uses a b (guarded name body).
Proof.
  intros Hbody. unfold guarded. apply uses_bind_quiet; [apply uses_time_time|].
  intros start. apply uses_try_except; [apply Hbody|]. intros e. uses_quiet.
Qed.

Lemma uses_cleaning_body self df start : uses 5 5 (data_cleaning.execute_body self df start).
Proof.
  unfold data_cleaning.execute_body, data_cleaning.fill_numeric,
    data_cleaning.fill_categorical.
  do 3 uses_skip.
  apply uses_then_quiet.
  - destruct (bool_decide _); [|eapply uses_mono; [apply uses_ret | lia | lia]].
    apply uses_bind_quiet; [uses_quiet|]. intros _.
    apply (uses_safe_call_adk self _ _ 5 5). intros p c.
    apply (uses_task_call_adk (CleaningTask self df)).
  - intros adk_resp. uses_quiet.
Qed.

Lemma uses_eda_body self df start : uses 1 0 (eda.execute_body self df start).
Proof.
  unfold eda.execute_body.
  do 4 uses_skip. destruct x2 as [correlations visualizations]. uses_skip.
  apply uses_then_quiet; [|intros; uses_quiet].
  destruct (bool_decide _); [|eapply uses_mono; [apply uses_ret | lia | lia]].
  apply uses_try_except; [|intros e; uses_quiet].
  apply uses_bind_quiet; [uses_quiet|]. intros statistics.
  apply (uses_task_call_adk (EdaTask self df)).
Qed.

Lemma uses_anomaly_body self df start : uses 0 0 (anomaly.execute_body self df start).
Proof.
  unfold anomaly.execute_body, anomaly.detect. rewrite anomaly_safe_call_adk_unbound.
  uses_skip. uses_skip. destruct x0 as [[obc summary] total].
  apply uses_bind_quiet; [|intros; uses_quiet].
  destruct (bool_decide _); [|apply uses_ret].
  apply uses_try_except; [|intros e; uses_quiet].
  intros env w. cbn. repeat split; lia.
Qed.

Lemma uses_ml_body self df target start :
  uses 1 0 (ml_model.execute_body self df target start).
Proof.
  unfold ml_model.execute_body, ml_model.encode_categorical.
  uses_skip. uses_skip. destruct x0 as [early|chosen].
  { eapply uses_mono; [apply uses_ret | lia | lia]. }
  destruct (negb _).
  { eapply uses_mono with (a := 0%nat) (b := 0%nat); [uses_quiet | lia | lia]. }
  do 5 uses_skip.
  apply uses_bind_quiet; [uses_quiet|]. intros importances.
  apply uses_then_quiet; [|intros; uses_quiet].
  destruct (bool_decide _); [|eapply uses_mono; [apply uses_ret | lia | lia]].
  apply uses_try_except; [|intros e; uses_quiet].
  apply (uses_task_call_adk (MlTask self df target)).
Qed.

Lemma uses_insights_body self all_results start :
  uses 1 0 (insights.execute_body self all_results start).
Proof.
  unfold insights.execute_body, insights.get_original_shape, insights.get_total_anomalies,
    insights.get_insights.
  apply uses_then_quiet.
  - destruct (bool_decide _); [|eapply uses_mono; [apply uses_ret | lia | lia]].
    apply uses_then_quiet; [|intros; uses_quiet].
    apply (uses_task_call_adk (InsightsTask self all_results)).
  - intros [[summary findings] recs]. uses_quiet.
Qed.

Lemma uses_generate_agent_description self agent_name agent_key :
  uses 1 0 (report._generate_agent_description self agent_name agent_key).
Proof.
  unfold report._generate_agent_description, report._clean_text.
  apply uses_then_quiet; [|intros; uses_quiet].
  destruct (bool_decide _); [|eapply uses_mono; [apply uses_ret | lia | lia]].
  apply uses_try_except; [|intros e; uses_quiet].
  apply uses_then_quiet; [|intros; uses_quiet].
  unfold call_adk, report.call_adk_report. apply uses_call_adk_with. by intros e env w.
Qed.

Lemma uses_report_body self all_results business_insights start :
  uses (length all_results) 0
       (report.execute_body self all_results business_insights start).
Proof.
  unfold report.execute_body, report._generate_pdf_report.
  apply uses_then_quiet; [|intros; uses_quiet].
  apply uses_bind_quiet; [uses_quiet|]. intros _.
  apply uses_then_quiet; [|intros; uses_quiet].
  eapply uses_mono; [apply (uses_for_fold all_results _ 1 0) | lia | lia].
  intros acc [key result].
  apply uses_bind_quiet; [uses_quiet|]. intros _.
  apply uses_then_quiet; [|intros; uses_quiet].
  apply uses_generate_agent_description.
Qed.

Lemma uses_task_execute (t : Task) :
  uses (task_budget t).1 (task_budget t).2 (task_execute t).
Proof.
  rewrite task_execute_guarded. apply uses_guarded. intros start.
  destruct t; cbn [task_body task_budget fst snd];
    auto using uses_cleaning_body, uses_eda_body, uses_anomaly_body, uses_ml_body,
      uses_insights_body, uses_report_body.
Qed.

(** The budget of every task: [execute] awaits [call_adk], and so sends
    requests to the model service, at most as often as [task_budget] says,
    and sleeps at most as often: five calls and five sleeps for the
    cleaning task, one call and no sleep for the EDA, ML and insights
    tasks, nothing for the anomaly task, one call per result for the
    report task. *)
Theorem task_execute_within_budget (t : Task) env w :
  (adk_calls (task_execute t env w).2 ≤ adk_calls w + (task_budget t).1)%nat
  ∧ (adk_requests (task_execute t env w).2 ≤ adk_requests w + (task_budget t).1)%nat
  ∧ (length (slept (task_execute t env w).2) ≤ length (slept w) + (task_budget t).2)%nat.
Proof. apply uses_task_execute. Qed.

(** ** What a run of the pipeline spends *)

Lemma uses_bind_post {A B} (c : Py A) (k : A → Py B) (Φ : A → Prop) a b a' b' :
  uses a b c → (∀ env w x w', c env w = (Returned x, w') → Φ x) →
  (∀ x, Φ x → uses a' b' (k x)) → uses (a + a') (b + b') (bind c k).
Proof.
  intros Hc HΦ Hk env w. unfold bind. specialize (Hc env w). specialize (HΦ env w).
  destruct (c env w) as [[x|e] w1]; cbn in *.
  - specialize (Hk x (HΦ x w1 eq_refl) env w1). destruct Hc as (? & ? & ?), Hk as (? & ? & ?).
    repeat split; lia.
  - destruct Hc as (? & ? & ?). repeat split; lia.
Qed.

Lemma uses_settle {A} (aw : Py A) a b : uses a b aw → uses a b (settle aw).
Proof. intros Haw env w. rewrite settle_runs. apply Haw. Qed.

Lemma uses_gather_fold {A} (aws : list (Py A)) (calls_of sleeps_of : nat → nat) :
  (∀ i aw, aws !! i = Some aw → uses (calls_of i) (sleeps_of i) aw) →
  ∀ order (slots : list (option (Gathered A))),
    uses (sum_list_with calls_of order) (sum_list_with sleeps_of order)
      (for_fold order slots (fun (slots : list (option (Gathered A))) i =>
         match aws !! i with
         | Some aw => res <- settle aw ;; ret (<[i := Some res]> slots)
         | None => ret slots
         end)).
Proof.
  intros Haws. induction order as [|i order IH]; intros slots; cbn [for_fold sum_list_with].
  - apply uses_ret.
  - apply uses_bind; [|intros slots'; apply IH].
    destruct (aws !! i) as [aw|] eqn:Hi.
    + apply uses_then_quiet; [by apply uses_settle, Haws | intros; apply uses_ret].
    + eapply uses_mono; [apply uses_ret | lia | lia].
Qed.

Lemma uses_gather {A} (aws : list (Py A)) (calls_of sleeps_of : nat → nat) :
  (∀ i aw, aws !! i = Some aw → uses (calls_of i) (sleeps_of i) aw) →
  uses (sum_list_with calls_of (seq 0 (length aws)))
       (sum_list_with sleeps_of (seq 0 (length aws))) (gather aws).
Proof.
  intros Haws. unfold gather. apply uses_bind_quiet; [apply uses_ask|]. intros env.
  apply uses_then_quiet; [|intros; apply uses_ret].
  rewrite <- (sum_list_with_Permutation_proper calls_of _ _
                (completion_order_perm (length aws) (completion env) (seq 0 (length aws))
                   (length_seq _ _))).
  rewrite <- (sum_list_with_Permutation_proper sleeps_of _ _
                (completion_order_perm (length aws) (completion env) (seq 0 (length aws))
                   (length_seq _ _))).
  by apply uses_gather_fold.
Qed.

Lemma uses_record_result results kres : uses 0 0 (main.record_result results kres).
Proof.
  unfold main.record_result, main.print_status. destruct kres as [k res].
  destruct res; uses_quiet.
Qed.

Lemma uses_run_phase (tasks : Dict (Py AgentResult)) (calls_of sleeps_of : nat → nat) :
  (∀ i aw, map snd tasks !! i = Some aw → uses (calls_of i) (sleeps_of i) aw) →
  uses (sum_list_with calls_of (seq 0 (length tasks)))
       (sum_list_with sleeps_of (seq 0 (length tasks))) (main.run_phase tasks).
Proof.
  intros Htasks. unfold main.run_phase.
  apply uses_then_quiet.
  - rewrite <- (length_map snd tasks). by apply uses_gather.
  - intros completed. apply uses_for_fold_quiet. intros. apply uses_record_result.
Qed.

Lemma run_phase_length (tasks : Dict (Py AgentResult)) env w results w' :
  NoDup (dict_keys tasks) →
  main.run_phase tasks env w = (Returned results, w') → length results = length tasks.
Proof.
  intros Hnd Hrun.
  destruct (run_phase_returns tasks env w Hnd) as (completed & w1 & Hrun' & Hlen & _).
  rewrite Hrun in Hrun'. injection Hrun' as -> _.
  rewrite length_map, length_zip_with. unfold dict_keys. rewrite length_map. lia.
Qed.

Lemma uses_load_csv path : uses 0 0 (main.load_csv_with_fallback path).
Proof. unfold main.load_csv_with_fallback. uses_quiet. Qed.

Lemma uses_run_pipeline ADK_CLIENT ADK_MODEL csv_path target :
  uses 12 5 (main.run_pipeline ADK_CLIENT ADK_MODEL csv_path target).
Proof.
  unfold main.run_pipeline.
  do 4 uses_skip.
  apply uses_bind_quiet; [apply uses_load_csv|]. intros df.
  do 2 uses_skip.
  apply uses_bind_quiet; [unfold eda.init; uses_quiet|]. intros eda_agent.
  apply (uses_bind_post _ _ (λ results, length results = 4%nat) 7 5 5 0).
  - eapply uses_mono;
      [apply (uses_run_phase _ (λ i, nth i [5; 1; 0; 1] 0)%nat
                (λ i, nth i [5; 0; 0; 0] 0)%nat) | cbn; lia | cbn; lia].
    intros i aw Hi.
    destruct i as [|[|[|[|i]]]]; cbn in Hi; [injection Hi as <-..|discriminate].
    + apply (uses_task_execute (CleaningTask _ df)).
    + apply (uses_task_execute (EdaTask _ df)).
    + apply (uses_task_execute (AnomalyTask _ df)).
    + apply (uses_task_execute (MlTask _ df target)).
  - intros env w results w' Hrun. apply run_phase_length in Hrun; [done|].
    apply (bool_decide_unpack _). vm_compute. exact I.
  - intros results Hlen.
    apply (uses_bind _ _ 1 0 4 0); [apply (uses_task_execute (InsightsTask _ results))|].
    intros insights. uses_skip.
    apply uses_then_quiet; [|intros; uses_quiet].
    rewrite <- Hlen. apply (uses_task_execute (ReportTask _ results insights)).
Qed.

(** One run of the pipeline awaits [call_adk], and so sends requests to the
    model service, at most twelve times, and sleeps at most five times;
    all the sleeps are the cleaning task's. *)
Theorem run_pipeline_within_budget ADK_CLIENT ADK_MODEL csv_path target env w :
  let run := main.run_pipeline ADK_CLIENT ADK_MODEL csv_path target env w in
  (adk_calls run.2 ≤ adk_calls w + 12)%nat
  ∧ (adk_requests run.2 ≤ adk_requests w + 12)%nat
  ∧ (length (slept run.2) ≤ length (slept w) + 5)%nat.
Proof. apply uses_run_pipeline. Qed.

(** ** The ML task *)





(** A target that is not a column of the frame gives a failure envelope
    that says so; nothing is copied, fitted or asked of the model
    service. *)
Theorem ml_execute_missing_target self df (t : string) frame env w :
  heap w !! df = Some frame → t ∉ columns frame →
  ml_model.execute self df (Some t) env w
  = (Returned (mkAgentResult (ml_model.name self) "error" None
                 (clock env (S (clock_reads w)) - clock env (clock_reads w))%Q
                 (Some ("Target column " +:+ t +:+ " not in dataframe"))),
     tick (tick w)).
Proof.
  intros Hdf Ht. unfold ml_model.execute, ml_model.execute_body.
  unfold bind at 1. cbn [time_time]. fold (tick w). unfold try_except.
  unfold bind at 1. unfold get_frame. cbn [heap tick]. rewrite Hdf.
  unfold bind at 1. cbn [ret].
  rewrite bool_decide_eq_false_2 by done. cbn. reflexivity.
Qed.

Lemma ml_execute_missing_target_witness :
  let env := sample_env silent_service sample_pdf [] in
  ml_model.execute (ml_model.init sample_client sample_model) 0 (Some "margin") env sample_world
  = (Returned (mkAgentResult "ML Agent" "error" None
                 (clock env 1 - clock env 0)%Q
                 (Some ("Target column " +:+ "margin" +:+ " not in dataframe"))),
     tick (tick sample_world)).
Proof.
  intros env.
  apply (ml_execute_missing_target (ml_model.init sample_client sample_model) 0 "margin"
           sample_frame env sample_world).
  - reflexivity.
  - apply (bool_decide_unpack _). vm_compute. exact I.
Defined.

(** Without a target, a frame with fewer than two numeric columns gives a
    success envelope with no feature ranked and no target; nothing is
    copied, fitted or asked of the model service. *)
Theorem ml_execute_too_few_numeric_columns self df frame env w :
  heap w !! df = Some frame → (length (select_numeric frame) < 2)%nat →
  ml_model.execute self df None env w
  = (Returned (mkAgentResult (ml_model.name self) "success"
                 (Some (MlData (MlResult.mk "feature_importance" [] None [] None)))
                 (clock env (S (clock_reads w)) - clock env (clock_reads w))%Q None),
     tick (tick w)).
Proof.
  intros Hdf Hfew. unfold ml_model.execute, ml_model.execute_body.
  unfold bind at 1. cbn [time_time]. fold (tick w). unfold try_except.
  unfold bind at 1. unfold get_frame. cbn [heap tick]. rewrite Hdf.
  unfold bind at 1. cbn [shape snd].
  apply Nat.ltb_lt in Hfew. rewrite Hfew. cbn. reflexivity.
Qed.

Lemma ml_execute_too_few_numeric_columns_witness :
  let env := sample_env silent_service sample_pdf [] in
  let frame := [("city", ObjSeries [Some "Oslo"]); ("price", NumSeries [Some 1%Q])] in
  let w := mkWorld [frame] 0 0 0 0 [] [] in
  ml_model.execute (ml_model.init sample_client sample_model) 0 None env w
  = (Returned (mkAgentResult "ML Agent" "success"
                 (Some (MlData (MlResult.mk "feature_importance" [] None [] None)))
                 (clock env 1 - clock env 0)%Q None),
     tick (tick w)).
Proof.
  intros env frame w.
  apply (ml_execute_too_few_numeric_columns (ml_model.init sample_client sample_model) 0
           frame env w).
  - reflexivity.
  - vm_compute. lia.
Defined.

(** ** The anomaly task *)

Lemma outlier_values_outside cells lower upper :
  Forall (λ v, anomaly.Qlt_bool v lower = true ∨ anomaly.Qlt_bool upper v = true)
         (anomaly.outlier_values cells lower upper).
Proof.
  unfold anomaly.outlier_values. induction cells as [|[x|] cells IH]; cbn; [done| |done].
  destruct (anomaly.Qlt_bool x lower || anomaly.Qlt_bool upper x) eqn:E; cbn; [|done].
  constructor; [|done]. by apply orb_true_iff.
Qed.

Lemma detect_step_entry rows cells lower upper :
  (0 <? length (anomaly.outlier_values cells lower upper))%nat = true →
  outliers_entry rows
    (mkOutliers (length (anomaly.outlier_values cells lower upper))
       (inject_Z (Z.of_nat (length (anomaly.outlier_values cells lower upper)))
        / inject_Z (Z.of_nat rows) * 100)%Q
       lower upper (take 10 (anomaly.outlier_values cells lower upper))).
Proof.
  intros Hpos. apply Nat.ltb_lt in Hpos. repeat split; cbn.
  - lia.
  - by rewrite length_take.
  - apply Forall_take, outlier_values_outside.
Qed.

Lemma detect_records (frame : DataFrame) env :
  ∀ (todo : DataFrame) seen acc w,
    NoDup (seen ++ columns todo) →
    detected (shape frame).1 seen acc →
    ∀ result w',
      for_fold todo acc (fun acc cs =>
        let '(outliers_by_column, anomaly_summary, total_anomalies) := acc in
        let '(col, s) := cs in
        match s with
        | ObjSeries _ => ret acc
        | NumSeries cells =>
            q1 <- lib (fun env => quantile env cells (1#4)) ;;
            q3 <- lib (fun env => quantile env cells (3#4)) ;;
            let iqr := (q3 - q1)%Q in
            let lower_bound := (q1 - (3#2) * iqr)%Q in
            let upper_bound := (q3 + (3#2) * iqr)%Q in
            let outliers := anomaly.outlier_values cells lower_bound upper_bound in
            if (0 <? length outliers)%nat then
              env <- ask ;;
              let pct := (inject_Z (Z.of_nat (length outliers))
                          / inject_Z (Z.of_nat (shape frame).1) * 100)%Q in
              ret (dict_set outliers_by_column col
                     (mkOutliers (length outliers) pct lower_bound upper_bound
                                 (take 10 outliers)),
                   anomaly_summary ++
                     [col +:+ ": " +:+ pretty (length outliers) +:+ " outliers ("
                      +:+ format_float env 2 pct +:+ "%)"],
                   (total_anomalies + length outliers)%nat)
            else ret acc
        end) env w = (Returned result, w') →
      detected (shape frame).1 (seen ++ columns todo) result.
Proof.
  induction todo as [|[col s] todo IH]; intros seen acc w Hnd Hacc result w' Hrun.
  - cbn in Hrun. injection Hrun as <- _. by rewrite app_nil_r.
  - cbn [for_fold] in Hrun. unfold bind at 1 in Hrun.
    destruct acc as [[obc summary] total].
    change (columns ((col, s) :: todo)) with (col :: columns todo) in *.
    assert (col ∉ seen) as Hcol.
    { apply NoDup_app in Hnd as (_ & Hdisj & _). intros Hin. apply (Hdisj col Hin). left. }
    assert (NoDup ((seen ++ [col]) ++ columns todo)) as Hnd'
      by (rewrite <- app_assoc; exact Hnd).
    cut (detected (shape frame).1 ((seen ++ [col]) ++ columns todo) result);
      [by rewrite <- app_assoc|].
    clear Hnd. rename Hnd' into Hnd.
    assert (detected (shape frame).1 (seen ++ [col]) (obc, summary, total)) as Hweak.
    { unfold detected in Hacc |- *. destruct Hacc as (? & Hsub & ? & ?). repeat split; try done.
      intros k Hk. apply elem_of_app. left. by apply Hsub. }
    destruct s as [cells|cells]; [|exact (IH _ _ _ Hnd Hweak _ _ Hrun)].
    unfold bind at 1, lib at 1 in Hrun.
    destruct (quantile env cells (1 # 4)) as [e|q1]; [discriminate|].
    unfold bind at 1, lib at 1 in Hrun.
    destruct (quantile env cells (3 # 4)) as [e|q3]; [discriminate|].
    cbv zeta in Hrun.
    destruct (0 <? _)%nat eqn:Hpos; [|exact (IH _ _ _ Hnd Hweak _ _ Hrun)].
    cbn [bind ask ret] in Hrun.
    eapply (IH _ _ _ Hnd); [|exact Hrun].
    unfold detected in Hacc |- *. destruct Hacc as (Hentries & Hsub & Hlen & Htotal).
    assert (col ∉ dict_keys obc) as Hfresh by (intros Hin; by apply Hcol, Hsub).
    rewrite dict_set_fresh by done. repeat split.
    + apply Forall_app. split; [done|]. constructor; [|done].
      by apply detect_step_entry.
    + unfold dict_keys. rewrite map_app. cbn. intros k Hk.
      apply elem_of_app in Hk as [Hk|Hk]; apply elem_of_app; [left; by apply Hsub | by right].
    + rewrite !length_app. cbn. lia.
    + rewrite sum_list_with_app. cbn. lia.
Qed.

Lemma select_numeric_distinct (frame : DataFrame) :
  NoDup (columns frame) → NoDup (columns (select_numeric frame)).
Proof.
  intros Hnd. refine (sublist_NoDup _ _ _ _); [exact Hnd|].
  clear Hnd. unfold columns, select_numeric, DataFrame in *.
  induction frame as [|[col s] frame IH]; [constructor|].
  destruct (decide (is_numeric s = true)) as [Hs|Hs].
  - rewrite filter_cons_True by done. cbn. by apply sublist_skip.
  - rewrite filter_cons_False by done. cbn. by apply sublist_cons.
Qed.

(** The report of a success envelope of the anomaly task, for a frame with
    distinct column labels: every entry of [outliers_by_column] belongs to
    a numeric column, counts at least one outlier, keeps the first ten
    values, all of them outside the bounds of the entry, and gives their
    share of the rows; there is one summary line per entry, and
    [total_anomalies] is the sum of the counts. *)
Theorem anomaly_execute_report_consistent self df frame env w r w' :
  heap w !! df = Some frame → NoDup (columns frame) →
  anomaly.execute self df env w = (Returned r, w') → status r = "success" →
  ∃ report,
    data r = Some (AnomalyData report)
    ∧ detected (shape frame).1 (columns (select_numeric frame))
        (AnomalyReport.outliers_by_column report, AnomalyReport.anomaly_summary report,
         AnomalyReport.total_anomalies report).
Proof.
  intros Hdf Hnd Hrun Hstatus. revert Hrun.
  unfold anomaly.execute, anomaly.execute_body.
  rewrite anomaly_safe_call_adk_unbound.
  unfold bind at 1. cbn [time_time]. fold (tick w). unfold try_except at 1.
  unfold bind at 1. unfold get_frame at 1. cbn [heap tick]. rewrite Hdf.
  unfold bind at 1.
  pose proof (detect_records frame env (select_numeric frame) [] ([], [], 0%nat) (tick w))
    as Hdetect.
  unfold anomaly.detect.
  destruct (for_fold _ _ _ env (tick w)) as [[[[obc summary] total]|e] w1].
  2: { cbn. intros [= <- _]. cbn in Hstatus. discriminate. }
  specialize (Hdetect (select_numeric_distinct frame Hnd)).
  assert (detected (shape frame).1 [] ([], [], 0%nat)) as H0 by (by repeat split).
  specialize (Hdetect H0 _ _ eq_refl). cbn [app] in Hdetect.
  destruct (bool_decide (is_Some (anomaly.adk_client self)));
    cbn; intros [= <- _]; eexists; (split; [reflexivity|]); exact Hdetect.
Qed.

Lemma anomaly_execute_report_consistent_witness :
  let env := sample_env silent_service sample_pdf [] in
  let run := anomaly.execute (anomaly.init sample_client sample_model) 0 env sample_world in
  ∃ r w',
    run = (Returned r, w')
    ∧ ∃ report,
        data r = Some (AnomalyData report)
        ∧ detected (shape sample_frame).1 (columns (select_numeric sample_frame))
            (AnomalyReport.outliers_by_column report, AnomalyReport.anomaly_summary report,
             AnomalyReport.total_anomalies report).
Proof.
  intros env run. eexists _, _. split; [vm_compute; reflexivity|].
  eapply (anomaly_execute_report_consistent (anomaly.init sample_client sample_model) 0
            sample_frame env sample_world).
  - reflexivity.
  - apply (bool_decide_unpack _). vm_compute. exact I.
  - vm_compute. reflexivity.
  - reflexivity.
Defined.

(** ** Reading a run backwards *)

Lemma bind_inv {A B} (c : Py A) (k : A → Py B) env w b w' :
  bind c k env w = (Returned b, w') →
  ∃ a w1, c env w = (Returned a, w1) ∧ k a env w1 = (Returned b, w').
Proof.
  unfold bind. destruct (c env w) as [[a|e] w1]; [|discriminate]. intros Hk. by exists a, w1.
Qed.

Lemma try_except_inv {A} (c : Py A) (h : Exn → Py A) env w a w' :
  try_except c h env w = (Returned a, w') →
  c env w = (Returned a, w')
  ∨ ∃ e w1, c env w = (Raised e, w1) ∧ h e env w1 = (Returned a, w').
Proof.
  unfold try_except. destruct (c env w) as [[a0|e] w1]; [by left|]. intros Hh. right.
  by exists e, w1.
Qed.

Lemma guarded_success name body env w r w' :
  guarded name body env w = (Returned r, w') → status r = "success" →
  body (clock env (clock_reads w)) env (tick w) = (Returned r, w').
Proof.
  intros Hrun Hstatus.
  destruct (guarded_returns name body env w) as (r0 & w0 & Hrun0 & Hfault & Hret).
  rewrite Hrun in Hrun0. injection Hrun0 as <- <-.
  destruct (body (clock env (clock_reads w)) env (tick w)) as [[r1|e] w1] eqn:Hbody.
  - by destruct (Hret r1 w1 eq_refl) as [-> ->].
  - destruct (Hfault e w1 eq_refl) as [-> _]. cbn in Hstatus. discriminate.
Qed.

Lemma get_frame_inv r env w frame w' :
  get_frame r env w = (Returned frame, w') → heap w !! r = Some frame ∧ w' = w.
Proof. unfold get_frame. destruct (heap w !! r); [|discriminate]. by intros [= <- <-]. Qed.

Lemma lib_inv {A} (f : Env → Exn + A) env w a w' :
  lib f env w = (Returned a, w') → f env = inr a ∧ w' = w.
Proof. unfold lib. destruct (f env); [discriminate|]. by intros [= <- <-]. Qed.

(** ** The EDA task *)




(** ** The insights task *)

Lemma insights_from_adk_bounds (self : insights.BusinessInsightsAgent) context env w
    summary findings recs w' :
  (if bool_decide (is_Some (insights.adk_client self)) then
     let prompt :=
       "Generate a concise executive summary, top key findings, "
       +:+ "and actionable recommendations based on the dataset analysis results." in
     adk_text <- call_adk self prompt (Some (CtxResults context)) ;;
     match adk_text with
     | Some text =>
         match stripped_lines text with
         | first :: rest => ret (first, take 5 rest, take 5 (drop 6 (first :: rest)))
         | [] => ret ("", [], [])
         end
     | None => ret ("", [], [])
     end
   else ret ("", [], [])) env w = (Returned (summary, findings, recs), w') →
  (length findings ≤ 5)%nat ∧ (length recs ≤ 5)%nat
  ∧ (insights.adk_client self = None → findings = [] ∧ recs = []).
Proof.
  destruct (insights.adk_client self) as [client|]; cbn [bool_decide decide_rel]; cycle 1.
  { rewrite bool_decide_eq_false_2 by (by intros [? [=]]).
    cbn. intros [= <- <- <- _]. cbn. repeat split; try lia; done. }
  rewrite bool_decide_eq_true_2 by (by eexists).
  intros Hrun. apply bind_inv in Hrun as (adk_text & w1 & _ & Hrun).
  destruct adk_text as [text|]; [destruct (stripped_lines text) as [|first rest]|];
    cbn in Hrun; injection Hrun as <- <- <- _; cbn [length];
    rewrite ?length_take; repeat split; try lia; try discriminate.
Qed.

(** The payload of a success envelope of the insights task: the executive
    summary is never empty; there are at most eleven key findings and at
    most seven recommendations, and without a client at most six and two;
    the structured insights repeat the three parts. *)
Theorem insights_execute_payload_bounds self all_results env w r w' :
  insights.execute self all_results env w = (Returned r, w') → status r = "success" →
  ∃ ins,
    data r = Some (InsightsData ins)
    ∧ Insights.executive_summary ins ≠ ""
    ∧ (length (Insights.key_findings ins) ≤ 11)%nat
    ∧ (length (Insights.recommendations ins) ≤ 7)%nat
    ∧ (insights.adk_client self = None →
         (length (Insights.key_findings ins) ≤ 6)%nat
         ∧ (length (Insights.recommendations ins) ≤ 2)%nat)
    ∧ Insights.adk_insights_structured ins
      = (Insights.executive_summary ins, Insights.key_findings ins,
         Insights.recommendations ins).
Proof.
  intros Hrun Hstatus.
  apply (guarded_success (insights.name self) (insights.execute_body self all_results))
    in Hrun; [|done].
  unfold insights.execute_body in Hrun.
  apply bind_inv in Hrun as ([[summary0 findings0] recs0] & w1 & Hadk & Hrun).
  apply insights_from_adk_bounds in Hadk as (Hf0 & Hr0 & Hnone).
  apply bind_inv in Hrun as (summary1 & w2 & _ & Hrun).
  apply bind_inv in Hrun as ([findings1 recs1] & w3 & Hanomaly & Hrun).
  apply bind_inv in Hrun as ([findings2 recs2] & w4 & Hml & Hrun).
  apply bind_inv in Hrun as (now & w5 & _ & Hrun).
  cbn in Hrun. injection Hrun as <- _.
  assert (length findings1 ≤ length findings0 + 1
          ∧ length recs1 ≤ length recs0 + 1)%nat as [Hf1 Hr1].
  { destruct (insights.succeeded all_results "anomaly") as [v|];
      [|cbn in Hanomaly; injection Hanomaly as <- <- _; lia].
    apply bind_inv in Hanomaly as (total & w6 & _ & Hanomaly).
    destruct (0 <? total)%nat; cbn in Hanomaly; injection Hanomaly as <- <- _;
      rewrite ?length_app; cbn; lia. }
  assert (length findings2 ≤ length findings1 + 5
          ∧ length recs2 ≤ length recs1 + 1)%nat as [Hf2 Hr2].
  { destruct (insights.succeeded all_results "ml") as [v|];
      [|cbn in Hml; injection Hml as <- <- _; lia].
    apply bind_inv in Hml as (ml_insights & w6 & _ & Hml).
    destruct ml_insights as [|i ml_insights]; cbn in Hml; injection Hml as <- <- _;
      rewrite ?length_app; cbn [length]; rewrite ?length_take; lia. }
  eexists. split; [reflexivity|]. cbn. repeat split.
  - destruct (String.eqb_spec summary1 ""); [discriminate | done].
  - lia.
  - lia.
  - destruct (Hnone H) as [-> ->]. cbn in *. lia.
  - destruct (Hnone H) as [-> ->]. cbn in *. lia.
Qed.

Lemma insights_execute_payload_bounds_witness :
  let env := sample_env silent_service sample_pdf [] in
  let results :=
    match main.run_phase sample_tasks env sample_world with
    | (Returned results, _) => results
    | _ => []
    end in
  ∃ r w',
    insights.execute (insights.init None None) results env sample_world = (Returned r, w')
    ∧ ∃ ins,
        data r = Some (InsightsData ins)
        ∧ Insights.executive_summary ins ≠ ""
        ∧ (length (Insights.key_findings ins) ≤ 11)%nat
        ∧ (length (Insights.recommendations ins) ≤ 7)%nat
        ∧ (insights.adk_client (insights.init None None) = None →
             (length (Insights.key_findings ins) ≤ 6)%nat
             ∧ (length (Insights.recommendations ins) ≤ 2)%nat)
        ∧ Insights.adk_insights_structured ins
          = (Insights.executive_summary ins, Insights.key_findings ins,
             Insights.recommendations ins).
Proof.
  intros env results. eexists _, _. split; [vm_compute; reflexivity|].
  eapply (insights_execute_payload_bounds (insights.init None None) results env sample_world).
  - vm_compute. reflexivity.
  - reflexivity.
Defined.

(** ** Insights after phase 1 *)

Lemma call_adk_with_returns client on_error prompt context env w :
  (∀ e w0, ∃ w1, on_error e env w0 = (Returned tt, w1)) →
  ∃ a w', call_adk_with client on_error prompt context env w = (Returned a, w').
Proof.
  intros Hon.
  unfold call_adk_with, bind, enter_call_adk, ask, try_except, lib, models_generate_content,
    ret. cbn.
  destruct (negb (adk_available env) || negb (bool_decide (is_Some client)));
    [by eexists _, _|].
  destruct context as [c|]; [destruct (context_truthy c); [destruct (json_dumps env c)|]|];
    cbn; try destruct (generate_content env _ _); cbn;
    try (match goal with |- context [on_error ?e env ?w0] =>
           destruct (Hon e w0) as (w1 & ->) end);
    by eexists _, _.
Qed.

Lemma get_original_shape_returns v env w :
  is_Some (data v) → ∃ rc, insights.get_original_shape v env w = (Returned rc, w).
Proof. intros [p Hp]. unfold insights.get_original_shape. rewrite Hp. destruct p; by eexists. Qed.

Lemma get_total_anomalies_returns v env w :
  is_Some (data v) → ∃ n, insights.get_total_anomalies v env w = (Returned n, w).
Proof. intros [p Hp]. unfold insights.get_total_anomalies. rewrite Hp. destruct p; by eexists. Qed.

Lemma get_insights_returns v env w :
  is_Some (data v) → ∃ l, insights.get_insights v env w = (Returned l, w).
Proof. intros [p Hp]. unfold insights.get_insights. rewrite Hp. destruct p; by eexists. Qed.

Lemma dict_get_elem_of {V} (d : Dict V) k v : dict_get d k = Some v → (k, v) ∈ d.
Proof.
  induction d as [|[k' v'] d IH]; cbn; [done|].
  destruct (String.eqb_spec k' k) as [->|_].
  - intros [= ->]. left.
  - intros Hget. right. by apply IH.
Qed.

Lemma succeeded_elem_of all_results k v :
  insights.succeeded all_results k = Some v → (k, v) ∈ all_results ∧ status v = "success".
Proof.
  unfold insights.succeeded. destruct (dict_get all_results k) as [v'|] eqn:Hget; [|done].
  destruct (String.eqb_spec (status v') "success") as [Hs|_]; [|done].
  intros [= <-]. split; [by apply dict_get_elem_of | done].
Qed.

Lemma insights_body_returns self all_results start env w :
  (∀ k v, insights.succeeded all_results k = Some v → is_Some (data v)) →
  ∃ r w', insights.execute_body self all_results start env w = (Returned r, w')
          ∧ status r = "success".
Proof.
  intros Hdata. unfold insights.execute_body.
  match goal with |- context [bind ?c _] =>
    assert (∃ x w1, c env w = (Returned x, w1)) as ([[s0 f0] r0] & w1 & Hadk) end.
  { destruct (bool_decide _); [|by eexists _, _].
    destruct (call_adk_with_returns (insights.adk_client self) (λ _, ret tt)
                ("Generate a concise executive summary, top key findings, "
                 +:+ "and actionable recommendations based on the dataset analysis results.")
                (Some (CtxResults
                   (map (λ '(k, v), (k, if String.eqb (status v) "success" then data v
                                        else None)) all_results))) env w)
      as (a & w1 & Hcall); [by eexists|].
    unfold call_adk, insights.call_adk_insights.
    erewrite bind_returned by exact Hcall.
    destruct a as [text|]; [destruct (stripped_lines text)|]; by eexists _, _. }
  erewrite bind_returned by exact Hadk. cbv beta iota.
  match goal with |- context [bind ?c _] =>
    assert (∃ x, c env w1 = (Returned x, w1)) as (s1 & Hsummary) end.
  { destruct (String.eqb s0 ""); [|by eexists].
    destruct (insights.succeeded all_results "cleaning") as [v|] eqn:Hv; [|by eexists].
    destruct (get_original_shape_returns v env w1) as ([rows cols] & Hshape); [by eapply Hdata|].
    erewrite bind_returned by exact Hshape. by eexists. }
  erewrite bind_returned by exact Hsummary.
  match goal with |- context [bind ?c _] =>
    assert (∃ x, c env w1 = (Returned x, w1)) as ([f1 r1] & Hanomaly) end.
  { destruct (insights.succeeded all_results "anomaly") as [v|] eqn:Hv; [|by eexists].
    destruct (get_total_anomalies_returns v env w1) as (n & Hn); [by eapply Hdata|].
    erewrite bind_returned by exact Hn. destruct (0 <? n)%nat; by eexists. }
  erewrite bind_returned by exact Hanomaly. cbv beta iota.
  match goal with |- context [bind ?c _] =>
    assert (∃ x, c env w1 = (Returned x, w1)) as ([f2 r2] & Hml) end.
  { destruct (insights.succeeded all_results "ml") as [v|] eqn:Hv; [|by eexists].
    destruct (get_insights_returns v env w1) as (l & Hl); [by eapply Hdata|].
    erewrite bind_returned by exact Hl. destruct l; by eexists. }
  erewrite bind_returned by exact Hml. cbv beta iota zeta.
  by eexists _, _.
Qed.

(** The insights task succeeds whenever every result it is given that
    succeeded carries data, whatever the model service does. *)
Theorem insights_execute_succeeds self all_results env w :
  (∀ k v, insights.succeeded all_results k = Some v → is_Some (data v)) →
  ∃ r w', insights.execute self all_results env w = (Returned r, w')
          ∧ status r = "success" ∧ error r = None ∧ is_Some (data r).
Proof.
  intros Hdata.
  destruct (guarded_returns (insights.name self) (insights.execute_body self all_results)
              env w) as (r & w' & Hrun & _ & Hbody).
  destruct (insights_body_returns self all_results (clock env (clock_reads w)) env (tick w)
              Hdata) as (r1 & w1 & Hr1 & Hstatus).
  destruct (Hbody r1 w1 Hr1) as [-> ->].
  exists r1, w1. split; [exact Hrun|]. split; [done|].
  pose proof (keeps_insights_body [] self all_results (clock env (clock_reads w))
                env (tick w) (prefix_nil _)) as [_ Hshape].
  specialize (Hshape r1). rewrite Hr1 in Hshape. specialize (Hshape eq_refl).
  destruct Hshape as [(_ & (p & -> & _) & ->)|(Herr & _)]; [by eauto|].
  rewrite Hstatus in Herr. discriminate.
Qed.

Lemma insights_execute_succeeds_witness :
  let env := sample_env silent_service sample_pdf [] in
  let results :=
    match main.run_phase faulty_tasks env sample_world with
    | (Returned results, _) => results
    | _ => []
    end in
  ∃ r w', insights.execute (insights.init None None) results env sample_world
          = (Returned r, w')
          ∧ status r = "success" ∧ error r = None ∧ is_Some (data r).
Proof.
  intros env results.
  apply (insights_execute_succeeds (insights.init None None) results env sample_world).
  assert (Forall (λ kv : string * AgentResult,
                    status kv.2 = "success" → is_Some (data kv.2)) results) as Hall.
  { vm_compute. repeat constructor; intros; try discriminate; eauto. }
  intros k v Hs. apply succeeded_elem_of in Hs as [Hin Hstatus].
  rewrite Forall_forall in Hall. exact (Hall (k, v) Hin Hstatus).
Defined.

(** ** The report task *)

Lemma call_adk_with_unavailable client on_error prompt context env w :
  client = None ∨ adk_available env = false →
  call_adk_with client on_error prompt context env w
  = (Returned None, (enter_call_adk env w).2).
Proof.
  intros Hoff. unfold call_adk_with. unfold bind at 1. cbn [enter_call_adk].
  unfold bind at 1. cbn [ask].
  destruct Hoff as [->| ->]; [|done]. by destruct (adk_available env).
Qed.

Lemma remove_char_absent c s : c ∉ list_ascii_of_string (remove_char c s).
Proof.
  unfold remove_char. rewrite list_ascii_of_string_of_list_ascii.
  intros Hin. apply list_elem_of_filter in Hin as [Hne _]. by apply Hne.
Qed.

Lemma remove_char_keeps_absent c c' s :
  c ∉ list_ascii_of_string s → c ∉ list_ascii_of_string (remove_char c' s).
Proof.
  unfold remove_char. rewrite list_ascii_of_string_of_list_ascii.
  intros Hs Hin. apply list_elem_of_filter in Hin as [_ Hin]. by apply Hs.
Qed.

Lemma generate_agent_description_returns self agent_name agent_key env w :
  ∃ d w',
    report._generate_agent_description self agent_name agent_key env w = (Returned d, w')
    ∧ plain_description agent_key d
    ∧ (report.adk_client self = None → d = report._get_fallback_description agent_key ∧ w' = w)
    ∧ (adk_available env = false →
         d = report._get_fallback_description agent_key
         ∧ adk_requests w' = adk_requests w).
Proof.
  unfold report._generate_agent_description.
  destruct (report.adk_client self) as [client|] eqn:Hclient; cycle 1.
  { rewrite bool_decide_eq_false_2 by (by intros [? [=]]). cbn.
    eexists _, _. split; [reflexivity|]. repeat split; auto. by left. }
  rewrite bool_decide_eq_true_2 by (by eexists).
  set (prompt := report.description_prompt _ _).
  unfold call_adk, report.call_adk_report. rewrite Hclient.
  destruct (call_adk_with_returns (Some client) (λ e, print (LineAdkError (str_exn e)))
              prompt None env w) as (a & w1 & Hcall); [intros e w0; by eexists|].
  unfold bind at 1. unfold try_except. erewrite bind_returned by exact Hcall.
  destruct a as [text|]; cycle 1.
  { cbn. eexists _, _. split; [reflexivity|]. split; [by left|]. split; [done|].
    intros Hoff. split; [done|].
    rewrite call_adk_with_unavailable in Hcall by auto. by injection Hcall as <-. }
  assert (adk_available env = false → False) as Hon.
  { intros Hoff. rewrite call_adk_with_unavailable in Hcall by auto. discriminate. }
  destruct (String.eqb_spec text "") as [->|Hne].
  { cbn. eexists _, _. split; [reflexivity|]. split; [by left|]. split; [done|].
    intros Hoff. by destruct Hon. }
  unfold report._clean_text. rewrite (proj2 (String.eqb_neq _ _) Hne). cbn.
  eexists _, _. split; [reflexivity|]. split; [|split; [done|intros Hoff; by destruct Hon]].
  right. eexists. split; [reflexivity|]. split.
  - apply remove_char_keeps_absent, remove_char_absent.
  - apply remove_char_absent.
Qed.

(** [_generate_agent_description] never raises. What it gives is the
    fallback for the key or a generated text without asterisks and hashes;
    it is the fallback, and nothing is asked of the service, when the agent
    has no client or the SDK is missing. *)
Theorem generate_agent_description_plain self agent_name agent_key env w :
  ∃ d w',
    report._generate_agent_description self agent_name agent_key env w = (Returned d, w')
    ∧ plain_description agent_key d
    ∧ (report.adk_client self = None → d = report._get_fallback_description agent_key ∧ w' = w)
    ∧ (adk_available env = false →
         d = report._get_fallback_description agent_key
         ∧ adk_requests w' = adk_requests w).
Proof. apply generate_agent_description_returns. Qed.

Lemma sections_described self (results : Dict AgentResult) insights env
    (rest : Dict AgentResult) :
  ∀ acc w, ∃ o w' more,
    for_fold rest acc (λ descriptions '(key, result),
      lib (λ env, build_pdf env (report.output_pdf_dir self) results insights descriptions) ;;
      description <- report._generate_agent_description self (agent_name result) key ;;
      ret (descriptions ++ [description])) env w = (o, w')
    ∧ (adk_calls w' ≤ adk_calls w + length more)%nat
    ∧ (∀ i, (i < length more)%nat →
         ∃ p, build_pdf env (report.output_pdf_dir self) results insights
                (acc ++ take i more) = inr p)
    ∧ match o with
      | Returned descriptions => descriptions = acc ++ more ∧ length more = length rest
      | Raised e =>
          (length more < length rest)%nat
          ∧ build_pdf env (report.output_pdf_dir self) results insights (acc ++ more) = inl e
      end.
Proof.
  induction rest as [|[key result] rest IH]; intros acc w.
  - exists (Returned acc), w, []. split; [done|]. split; [cbn; lia|].
    split; [cbn; lia|]. by rewrite app_nil_r.
  - cbn [for_fold]. unfold bind at 1. unfold bind at 1. unfold lib at 1.
    destruct (build_pdf env (report.output_pdf_dir self) results insights acc)
      as [e|p] eqn:Hstage.
    { exists (Raised e), w, []. split; [done|]. split; [cbn; lia|].
      split; [cbn; lia|]. rewrite app_nil_r. split; [cbn; lia | done]. }
    destruct (generate_agent_description_returns self (agent_name result) key env w)
      as (d & w1 & Hd & _).
    pose proof (uses_generate_agent_description self (agent_name result) key env w)
      as (Hcalls & _). rewrite Hd in Hcalls. cbn [snd] in Hcalls.
    unfold bind at 1. rewrite Hd. cbn [ret].
    destruct (IH (acc ++ [d]) w1) as (o & w' & more & Hrun & Hbound & Hstages & Hend).
    exists o, w', (d :: more). split; [exact Hrun|]. split; [cbn; lia|]. split.
    + intros [|i] Hi; cbn [take].
      * rewrite app_nil_r. by exists p.
      * rewrite (cons_middle d acc), app_assoc. apply Hstages. cbn in Hi. lia.
    + rewrite (cons_middle d acc), app_assoc.
      destruct o as [descriptions|e]; destruct Hend as [Hend1 Hend2];
        (split; [first [exact Hend1 | cbn; lia] | first [exact Hend2 | cbn; lia]]).
Qed.

(** The report task fails only when the output directory cannot be made
    or reportlab fails; the envelope then carries that exception. Reportlab
    works on the story before, between and after the requests for the
    descriptions: when it fails, the descriptions that were still to come
    are not asked for. The task succeeds, with the path reportlab gives,
    when reportlab accepted every part and has one description for each
    result. *)
Theorem report_execute_outcome self all_results business_insights env w :
  ∃ r w',
    report.execute self all_results business_insights env w = (Returned r, w')
    ∧ ((∃ e, os_makedirs env (report.output_pdf_dir self) = inl e
             ∧ status r = "error" ∧ data r = None ∧ error r = Some (str_exn e)
             ∧ adk_calls w' = adk_calls w)
       ∨ (∃ descriptions,
            os_makedirs env (report.output_pdf_dir self) = inr tt
            ∧ (length descriptions ≤ length all_results)%nat
            ∧ (adk_calls w' ≤ adk_calls w + length descriptions)%nat
            ∧ (∀ i, (i < length descriptions)%nat →
                 ∃ p, build_pdf env (report.output_pdf_dir self) all_results
                        business_insights (take i descriptions) = inr p)
            ∧ match build_pdf env (report.output_pdf_dir self) all_results
                      business_insights descriptions with
              | inr path =>
                  length descriptions = length all_results
                  ∧ status r = "success" ∧ data r = Some (ReportData path) ∧ error r = None
              | inl e => status r = "error" ∧ data r = None ∧ error r = Some (str_exn e)
              end)).
Proof.
  change (report.execute self all_results business_insights)
    with (guarded (report.name self)
            (report.execute_body self all_results business_insights)).
  destruct (guarded_returns (report.name self)
              (report.execute_body self all_results business_insights) env w)
    as (r & w' & Hrun & Hfault & Hbody).
  exists r, w'. split; [exact Hrun|].
  unfold report.execute_body, report._generate_pdf_report in Hfault, Hbody.
  destruct (os_makedirs env (report.output_pdf_dir self)) as [e|[]] eqn:Hdir.
  - left. exists e. split; [done|].
    destruct (Hfault e (tick w)) as [-> ->]; [|done].
    unfold bind at 1. unfold bind at 1. unfold lib at 1. by rewrite Hdir.
  - right.
    destruct (sections_described self all_results business_insights env all_results []
                (tick w)) as (o & w1 & descriptions & Hloop & Hcalls & Hstages & Hend).
    cbn [app] in Hstages, Hend. cbn [adk_calls tick] in Hcalls.
    exists descriptions. split; [done|].
    destruct o as [ds|e].
    + destruct Hend as [-> Hlen]. split; [lia|].
      destruct (build_pdf env (report.output_pdf_dir self) all_results business_insights
                  descriptions) as [e|path] eqn:Hpdf.
      * destruct (Hfault e w1) as [-> ->].
        { unfold bind at 1. unfold bind at 1. unfold lib at 1. rewrite Hdir.
          unfold bind at 1. rewrite Hloop. unfold lib. by rewrite Hpdf. }
        by repeat split.
      * destruct (Hbody (mkAgentResult (report.name self) "success"
                           (Some (ReportData path))
                           (clock env (clock_reads w1) - clock env (clock_reads w))%Q None)
                        (tick w1)) as [-> ->].
        { unfold bind at 1. unfold bind at 1. unfold bind at 1. unfold lib at 1.
          rewrite Hdir. rewrite Hloop. unfold lib at 1. rewrite Hpdf. reflexivity. }
        by repeat split.
    + destruct Hend as [Hlen Hpdf]. split; [lia|]. rewrite Hpdf.
      destruct (Hfault e w1) as [-> ->].
      { unfold bind at 1. unfold bind at 1. unfold lib at 1. rewrite Hdir.
        unfold bind at 1. by rewrite Hloop. }
      by repeat split.
Qed.

(** ** Loading the file *)

(** What [load_csv_with_fallback] does, case by case. It returns a new
    frame object: the file parsed under the detected encoding, or under
    latin1 when that parse raised. It raises when the file cannot be read,
    or when the latin1 parse raises after the first one did; the exception
    is then that of the latin1 parse, and no object has been made. *)
Theorem load_csv_with_fallback_outcome path env w :
  match main.load_csv_with_fallback path env w with
  | (Returned df, w') =>
      ∃ raw loaded,
        read_bytes env path = inr raw
        ∧ df = length (heap w) ∧ w' = set_heap w (heap w ++ [loaded])
        ∧ (read_csv env path (detected_encoding env raw) = inr loaded
           ∨ (∃ e, read_csv env path (detected_encoding env raw) = inl e)
             ∧ read_csv env path "latin1" = inr loaded)
  | (Raised e, w') =>
      w' = w
      ∧ (read_bytes env path = inl e
         ∨ ∃ raw e0,
             read_bytes env path = inr raw
             ∧ read_csv env path (detected_encoding env raw) = inl e0
             ∧ read_csv env path "latin1" = inl e)
  end.
Proof.
  unfold main.load_csv_with_fallback, bind, lib, ask, try_except.
  destruct (read_bytes env path) as [e|raw]; [by auto|].
  fold (detected_encoding env raw).
  destruct (read_csv env path (detected_encoding env raw)) as [e0|loaded] eqn:Hfirst.
  - destruct (read_csv env path "latin1") as [e|loaded] eqn:Hlatin.
    + split; [done|]. right. by exists raw, e0.
    + exists raw, loaded. cbn. repeat split; eauto.
  - exists raw, loaded. cbn. repeat split; eauto.
Qed.

(** ** The pipeline and the data *)

Lemma load_csv_loads env path loaded w :
  loads env path loaded →
  main.load_csv_with_fallback path env w
  = (Returned (length (heap w)), set_heap w (heap w ++ [loaded])).
Proof.
  intros (raw & Hraw & Hcsv).
  unfold main.load_csv_with_fallback, bind, lib, ask, try_except. rewrite Hraw.
  fold (detected_encoding env raw).
  destruct Hcsv as [->|[[e ->] ->]]; reflexivity.
Qed.

Lemma keeps_settle {A} h0 (aw : Py A) :
  keeps h0 aw (λ _, True) → keeps h0 (settle aw) (λ _, True).
Proof.
  intros Haw env w Hw. destruct (Haw env w Hw) as [Hpre _]. unfold settle.
  by destruct (aw env w) as [[a|e] w1].
Qed.

Lemma keeps_gather {A} h0 (aws : list (Py A)) :
  (∀ aw, aw ∈ aws → keeps h0 aw (λ _, True)) → keeps h0 (gather aws) (λ _, True).
Proof.
  intros Haws. unfold gather. eapply keeps_bind_any; [apply keeps_ask|]. intros env.
  cbv zeta. eapply keeps_bind_any; [|intros slots; by apply keeps_ret].
  apply (keeps_for_fold h0 _ _ (λ _, True)); [|done]. intros slots i _.
  destruct (aws !! i) as [aw|] eqn:Hi; [|by apply keeps_ret].
  eapply keeps_bind_any; [|intros res; by apply keeps_ret].
  apply keeps_settle, Haws. by eapply list_elem_of_lookup_2.
Qed.

Lemma keeps_record_result h0 results kres :
  keeps h0 (main.record_result results kres) (λ _, True).
Proof.
  unfold main.record_result, main.print_status. destruct kres as [k res].
  destruct res; keeps_auto.
Qed.

Lemma keeps_run_phase h0 (tasks : Dict (Py AgentResult)) :
  (∀ k task, (k, task) ∈ tasks → keeps h0 task (λ _, True)) →
  keeps h0 (main.run_phase tasks) (λ _, True).
Proof.
  intros Htasks. unfold main.run_phase. eapply keeps_bind_any.
  - apply keeps_gather. intros aw Haw. apply list_elem_of_fmap in Haw as ([k task] & -> & Hin).
    by eapply Htasks.
  - intros completed. apply (keeps_for_fold h0 _ _ (λ _, True)); [|done].
    intros acc kres _. apply keeps_record_result.
Qed.

Lemma keeps_task_execute_any h0 t : keeps h0 (task_execute t) (λ _, True).
Proof. eapply keeps_any, keeps_task_execute. Qed.

(** [run_pipeline] leaves the data it loaded, and every object that was
    there before, as they were, whether it returns or raises: the agents
    work on copies. *)
Theorem run_pipeline_keeps_loaded_data ADK_CLIENT ADK_MODEL csv_path target env w loaded :
  loads env csv_path loaded →
  (heap w ++ [loaded])
    `prefix_of` heap (main.run_pipeline ADK_CLIENT ADK_MODEL csv_path target env w).2.
Proof.
  intros Hloads. unfold main.run_pipeline.
  unfold bind at 1. cbn [time_time].
  unfold bind at 1. cbn [print]. unfold bind at 1. cbn [print]. unfold bind at 1. cbn [print].
  unfold bind at 1. rewrite (load_csv_loads _ _ _ _ Hloads). cbn [heap set_heap].
  match goal with |- _ `prefix_of` heap (?c env ?w0).2 =>
    assert (keeps (heap w ++ [loaded]) c (λ _, True)) as Hkeeps end.
  { eapply keeps_bind_any; [apply keeps_get_frame|]. intros frame.
    eapply keeps_bind_any; [apply keeps_print|]. intros _.
    eapply keeps_bind_any; [unfold eda.init; keeps_auto|]. intros eda_agent.
    eapply keeps_bind_any.
    { apply keeps_run_phase. intros k task Hin.
      apply elem_of_cons in Hin as [[= -> ->]|Hin];
        [apply (keeps_task_execute_any _ (CleaningTask _ _))|].
      apply elem_of_cons in Hin as [[= -> ->]|Hin];
        [apply (keeps_task_execute_any _ (EdaTask _ _))|].
      apply elem_of_cons in Hin as [[= -> ->]|Hin];
        [apply (keeps_task_execute_any _ (AnomalyTask _ _))|].
      apply elem_of_cons in Hin as [[= -> ->]|Hin];
        [apply (keeps_task_execute_any _ (MlTask _ _ _))|].
      by apply elem_of_nil in Hin. }
    intros results.
    eapply keeps_bind_any; [apply (keeps_task_execute_any _ (InsightsTask _ _))|].
    intros insights.
    eapply keeps_bind_any; [apply keeps_print|]. intros _.
    eapply keeps_bind_any; [apply (keeps_task_execute_any _ (ReportTask _ _ _))|].
    intros report. keeps_auto. }
  apply Hkeeps. done.
Qed.

Lemma run_pipeline_keeps_loaded_data_witness :
  let env := sample_env silent_service sample_pdf [2; 0; 1] in
  loads env "project/sample_data.csv" sample_frame
  ∧ (heap sample_world ++ [sample_frame])
      `prefix_of` heap (main.run_pipeline sample_client sample_model "project/sample_data.csv"
                          (Some "profit") env sample_world).2.
Proof.
  intros env.
  assert (loads env "project/sample_data.csv" sample_frame) as Hloads.
  { exists "price,city,profit". split; [reflexivity|]. left. reflexivity. }
  split; [exact Hloads|].
  exact (run_pipeline_keeps_loaded_data sample_client sample_model "project/sample_data.csv"
           (Some "profit") env sample_world sample_frame Hloads).
Defined.

(** ** The pipeline from end to end *)

Lemma run_phase_envelopes (tasks : Dict (Py AgentResult)) env w :
  NoDup (dict_keys tasks) →
  (∀ k task, (k, task) ∈ tasks → keeps [] task envelope_shape) →
  ∃ results w',
    main.run_phase tasks env w = (Returned results, w')
    ∧ dict_keys results = dict_keys tasks
    ∧ ∀ k v, (k, v) ∈ results → envelope_shape v.
Proof.
  intros Hnd Htasks.
  destruct (run_phase_returns tasks env w Hnd) as (completed & w' & Hrun & Hlen & Hran).
  eexists _, w'. split; [exact Hrun|]. split.
  { rewrite dict_keys_envelopes. apply fst_zip. unfold dict_keys. rewrite length_map. lia. }
  intros k v Hin. apply list_elem_of_fmap in Hin as ([k' res] & [= -> ->] & Hin). cbn.
  apply list_elem_of_lookup in Hin as [i Hi].
  apply lookup_zip_with_Some in Hi as (k0 & res0 & [= <- <-] & Hk & Hres).
  destruct (Hran i res Hres) as (aw & wk & Haw & _ & ->).
  rewrite lookup_map in Haw.
  destruct (tasks !! i) as [[k1 task]|] eqn:Htask; cbn in Haw; [|discriminate].
  injection Haw as <-.
  destruct (Htasks k1 task (list_elem_of_lookup_2 _ _ _ Htask) env wk (prefix_nil _))
    as [_ Hshape].
  destruct ((task env wk).1) as [r|e] eqn:Hout; cbn.
  - by apply Hshape.
  - apply envelope_shape_error.
Qed.

Lemma report_execute_succeeds self all_results business_insights env w :
  os_makedirs env (report.output_pdf_dir self) = inr tt →
  (∀ descriptions, ∃ path,
     build_pdf env (report.output_pdf_dir self) all_results business_insights descriptions
     = inr path) →
  ∃ r w' path,
    report.execute self all_results business_insights env w = (Returned r, w')
    ∧ status r = "success" ∧ data r = Some (ReportData path).
Proof.
  intros Hdir Hpdf.
  change (report.execute self all_results business_insights)
    with (guarded (report.name self)
            (report.execute_body self all_results business_insights)).
  destruct (guarded_returns (report.name self)
              (report.execute_body self all_results business_insights) env w)
    as (r & w' & Hrun & _ & Hbody).
  destruct (sections_described self all_results business_insights env all_results []
              (tick w)) as (o & w1 & more & Hloop & _ & _ & Hend).
  destruct o as [descriptions|e]; cycle 1.
  { destruct Hend as [_ Hfail]. destruct (Hpdf ([] ++ more)) as [path Hpath]. congruence. }
  destruct (Hpdf descriptions) as [path Hpath].
  exists r, w', path. split; [exact Hrun|].
  destruct (Hbody (mkAgentResult (report.name self) "success" (Some (ReportData path))
                     (clock env (clock_reads w1) - clock env (clock_reads w))%Q None)
                  (tick w1)) as [-> _]; [|done].
  unfold report.execute_body, report._generate_pdf_report.
  unfold bind at 1. unfold bind at 1. unfold bind at 1. unfold lib at 1. rewrite Hdir.
  rewrite Hloop. unfold lib at 1. rewrite Hpath. reflexivity.
Qed.

Lemma get_frame_new env w frame :
  get_frame (length (heap w)) env (set_heap w (heap w ++ [frame]))
  = (Returned frame, set_heap w (heap w ++ [frame])).
Proof. unfold get_frame. cbn [heap set_heap]. by rewrite lookup_app_r, Nat.sub_diag by lia. Qed.

(** One step of [run_pipeline] that cannot fail, anywhere in the goal. *)
Ltac pipeline_next :=
  lazymatch goal with
  | |- context [bind (print ?l) _ ?env ?w0] =>
      let w' := fresh "w" in
      let H := fresh "H" in
      destruct (print_returns l env w0) as [w' H];
      erewrite bind_returned by exact H; clear H
  | |- context [bind time_time _ ?env ?w0] =>
      let t := fresh "t" in
      let w' := fresh "w" in
      let H := fresh "H" in
      destruct (time_time_returns env w0) as (t & w' & H);
      erewrite bind_returned by exact H; clear H
  end.

(** [run_pipeline] returns the whole result set whenever the file loads,
    the two output directories can be made and reportlab builds the PDF,
    whatever pandas, scikit-learn, matplotlib and the model service do in
    the agents: the result set has the four entries of phase 1, each a
    well-formed envelope, the insights succeeded, and the report carries
    the path of the PDF. *)
Theorem run_pipeline_returns ADK_CLIENT ADK_MODEL csv_path target env w loaded :
  loads env csv_path loaded →
  os_makedirs env "project/charts" = inr tt →
  os_makedirs env "project" = inr tt →
  (∀ results insights descriptions,
     ∃ path, build_pdf env "project" results insights descriptions = inr path) →
  ∃ res w',
    main.run_pipeline ADK_CLIENT ADK_MODEL csv_path target env w = (Returned res, w')
    ∧ dict_keys (main.agent_results res) = ["cleaning"; "eda"; "anomaly"; "ml"]
    ∧ (∀ k v, (k, v) ∈ main.agent_results res → envelope_shape v)
    ∧ status (main.insights res) = "success"
    ∧ status (main.report res) = "success"
    ∧ ∃ path, data (main.report res) = Some (ReportData path).
Proof.
  intros Hloads Hcharts Hproject Hpdf. unfold main.run_pipeline.
  do 4 pipeline_next.
  erewrite bind_returned by (by apply load_csv_loads).
  erewrite bind_returned by apply get_frame_new.
  pipeline_next.
  unfold bind at 1. unfold eda.init at 1. unfold bind at 1, lib at 1. rewrite Hcharts.
  cbn [ret].
  lazymatch goal with |- context [bind (main.run_phase ?tasks) _ env ?w0] =>
    destruct (run_phase_envelopes tasks env w0) as (results & wp & Hphase & Hkeys & Hshape) end.
  { apply (bool_decide_unpack _). vm_compute. exact I. }
  { intros k task Hin.
    apply elem_of_cons in Hin as [[= -> ->]|Hin];
      [apply (keeps_task_execute _ (CleaningTask _ _))|].
    apply elem_of_cons in Hin as [[= -> ->]|Hin];
      [apply (keeps_task_execute _ (EdaTask _ _))|].
    apply elem_of_cons in Hin as [[= -> ->]|Hin];
      [apply (keeps_task_execute _ (AnomalyTask _ _))|].
    apply elem_of_cons in Hin as [[= -> ->]|Hin];
      [apply (keeps_task_execute _ (MlTask _ _ _))|].
    by apply elem_of_nil in Hin. }
  erewrite bind_returned by exact Hphase.
  lazymatch goal with |- context [bind (insights.execute ?self results) _ env wp] =>
    destruct (guarded_returns (insights.name self) (insights.execute_body self results) env wp)
      as (ins & wi & Hins & _ & Hbody);
    destruct (insights_body_returns self results (clock env (clock_reads wp)) env (tick wp))
      as (ins1 & wi1 & Hins1 & Hsuccess) end.
  { intros k v Hv. apply succeeded_elem_of in Hv as [Hin Hstatus].
    destruct (Hshape k v Hin) as [(_ & (p & -> & _) & _)|(Herr & _)]; [by eexists|].
    rewrite Hstatus in Herr. discriminate. }
  destruct (Hbody ins1 wi1 Hins1) as [-> ->].
  change (guarded _ _) with (insights.execute (insights.init ADK_CLIENT ADK_MODEL) results)
    in Hins.
  erewrite bind_returned by exact Hins.
  pipeline_next.
  lazymatch goal with |- context [bind (report.execute ?self results ins1) _ env ?w0] =>
    destruct (report_execute_succeeds self results ins1 env w0)
      as (rep & wr & path & Hrep & Hstatus & Hdata) end.
  { exact Hproject. }
  { intros descriptions. apply Hpdf. }
  erewrite bind_returned by exact Hrep.
  do 4 pipeline_next.
  rewrite Hdata. unfold bind at 1. cbn [ret].
  pipeline_next. cbn [ret].
  eexists _, _. split; [reflexivity|].
  cbn [main.agent_results main.insights main.report].
  split; [by rewrite Hkeys|]. repeat split; eauto.
Qed.

Lemma run_pipeline_returns_witness :
  let env := sample_env silent_service sample_pdf [2; 0; 1] in
  ∃ res w',
    main.run_pipeline sample_client sample_model "project/sample_data.csv" (Some "profit")
      env empty_world = (Returned res, w')
    ∧ dict_keys (main.agent_results res) = ["cleaning"; "eda"; "anomaly"; "ml"]
    ∧ (∀ k v, (k, v) ∈ main.agent_results res → envelope_shape v)
    ∧ status (main.insights res) = "success"
    ∧ status (main.report res) = "success"
    ∧ ∃ path, data (main.report res) = Some (ReportData path).
Proof.
  intros env.
  apply (run_pipeline_returns sample_client sample_model "project/sample_data.csv"
           (Some "profit") env empty_world sample_frame).
  - exists "price,city,profit". split; [reflexivity|]. left. reflexivity.
  - reflexivity.
  - reflexivity.
  - intros results insights descriptions. by eexists.
Defined.

(** The containment of faults covers the agents, not what comes before
    them: when the file cannot be loaded or the charts directory cannot be
    made, [run_pipeline] raises that exception; no agent has run by then,
    nothing was asked of the model service and the clock was read once. *)
Theorem run_pipeline_stops_when_setup_fails ADK_CLIENT ADK_MODEL csv_path target env w e :
  setup_fails env csv_path e →
  ∃ w',
    main.run_pipeline ADK_CLIENT ADK_MODEL csv_path target env w = (Raised e, w')
    ∧ clock_reads w' = S (clock_reads w)
    ∧ adk_calls w' = adk_calls w
    ∧ adk_requests w' = adk_requests w
    ∧ slept w' = slept w.
Proof.
  intros Hfails. unfold main.run_pipeline.
  unfold bind at 1. cbn [time_time].
  unfold bind at 1. cbn [print]. unfold bind at 1. cbn [print]. unfold bind at 1. cbn [print].
  unfold bind at 1.
  destruct Hfails as [Hraw|[(raw & e0 & Hraw & Hfirst & Hlatin)|(loaded & Hloads & Hdir)]].
  - unfold main.load_csv_with_fallback. unfold bind at 1. unfold lib at 1. rewrite Hraw.
    by eexists.
  - unfold main.load_csv_with_fallback, bind, lib, ask, try_except. rewrite Hraw.
    fold (detected_encoding env raw). rewrite Hfirst, Hlatin. by eexists.
  - rewrite (load_csv_loads _ _ _ _ Hloads).
    erewrite bind_returned by apply get_frame_new.
    unfold bind at 1. cbn [print].
    unfold bind at 1. unfold eda.init at 1. unfold bind at 1, lib at 1. rewrite Hdir.
    by eexists.
Qed.

Lemma run_pipeline_stops_when_setup_fails_witness :
  ∃ w',
    main.run_pipeline sample_client sample_model "project/sample_data.csv" (Some "profit")
      missing_file_env empty_world
    = (Raised (Fault "[Errno 2] No such file or directory"), w')
    ∧ clock_reads w' = S (clock_reads empty_world)
    ∧ adk_calls w' = adk_calls empty_world
    ∧ adk_requests w' = adk_requests empty_world
    ∧ slept w' = slept empty_world.
Proof.
  apply (run_pipeline_stops_when_setup_fails sample_client sample_model
           "project/sample_data.csv" (Some "profit") missing_file_env empty_world).
  left. reflexivity.
Defined.

(** ** The cleaning task *)

Lemma fills_series_refl s : fills_series s s.
Proof. destruct s; cbn; apply Forall2_same_length_lookup_2; auto; intros; simplify_eq; auto. Qed.

Lemma fills_cells_trans {X} (a b c : list (option X)) :
  Forall2 (λ x y, x = None ∨ y = x) a b → Forall2 (λ x y, x = None ∨ y = x) b c →
  Forall2 (λ x y, x = None ∨ y = x) a c.
Proof.
  intros Hab. revert c. induction Hab as [|x y a b Hxy Hab IH]; intros c Hbc.
  - by inversion Hbc.
  - inversion Hbc as [|? z ? c' Hyz Hbc']; subst. constructor; [|by apply IH].
    destruct Hxy as [->| ->]; [by left|]. exact Hyz.
Qed.

Lemma fills_series_trans s1 s2 s3 :
  fills_series s1 s2 → fills_series s2 s3 → fills_series s1 s3.
Proof.
  destruct s1, s2, s3; cbn; try done; apply fills_cells_trans.
Qed.

Lemma fills_refl f : fills f f.
Proof.
  unfold fills. induction f as [|cs f IH]; constructor; [|exact IH].
  split; [done | apply fills_series_refl].
Qed.

Lemma fills_trans f1 f2 f3 : fills f1 f2 → fills f2 f3 → fills f1 f3.
Proof.
  unfold fills. intros H12. revert f3.
  induction H12 as [|x y f1 f2 [Hl Hs] H12 IH]; intros f3 H23.
  - by inversion H23.
  - inversion H23 as [|? z ? f3' [Hl' Hs'] H23']; subst. constructor; [|by apply IH].
    split; [congruence | by eapply fills_series_trans].
Qed.

Lemma fills_columns f f' : fills f f' → columns f' = columns f.
Proof.
  unfold fills, columns. induction 1 as [|x y f f' [Hl _] _ IH]; cbn; [done|].
  by rewrite IH, Hl.
Qed.

Lemma with_column_fills f col s s' :
  getitem f col = Some s → fills_series s s' → fills f (with_column f col s').
Proof.
  unfold fills. induction f as [|[c s0] f IH]; cbn; [done|].
  destruct (String.eqb c col).
  - intros [= ->] Hs. constructor; [by split|]. apply fills_refl.
  - intros Hget Hs. constructor; [split; [done | apply fills_series_refl]|]. by apply IH.
Qed.

Lemma getitem_with_column f col s s' :
  getitem f col = Some s → getitem (with_column f col s') col = Some s'.
Proof.
  induction f as [|[c s0] f IH]; cbn; [done|].
  destruct (String.eqb c col) eqn:Hc; cbn; rewrite Hc; [done | exact IH].
Qed.

Lemma fills_getitem f f' col s :
  fills f f' → getitem f col = Some s →
  ∃ s', getitem f' col = Some s' ∧ fills_series s s'.
Proof.
  unfold fills. induction 1 as [|[c s0] [c' s0'] f f' [Hl Hs] _ IH]; cbn in *; [done|].
  subst c'. destruct (String.eqb c col); [|exact IH].
  intros [= ->]. by exists s0'.
Qed.

Lemma getitem_elem_of f col s :
  NoDup (columns f) → (col, s) ∈ f → getitem f col = Some s.
Proof.
  unfold columns. induction f as [|[c s0] f IH]; cbn; intros Hnd Hin.
  - by apply elem_of_nil in Hin.
  - apply NoDup_cons in Hnd as [Hc Hnd].
    apply elem_of_cons in Hin as [[= -> ->]|Hin]; [by rewrite String.eqb_refl|].
    destruct (String.eqb_spec c col) as [->|_]; [|by apply IH].
    exfalso. apply Hc. apply list_elem_of_fmap. by exists (col, s).
Qed.

Lemma fills_object_column f f' col cells' :
  fills f f' → (col, ObjSeries cells') ∈ f' → col ∈ columns (select_object f).
Proof.
  unfold fills, columns, select_object, DataFrame.
  induction 1 as [|[c s] [c' s'] f f' [Hl Hs] _ IH]; intros Hin.
  - by apply elem_of_nil in Hin.
  - cbn in Hl, Hs. subst c'. apply elem_of_cons in Hin as [[= -> <-]|Hin].
    + destruct s as [a|a]; [done|]. rewrite filter_cons_True by done. left.
    + destruct s as [a|a].
      * rewrite filter_cons_False by done. by apply IH.
      * rewrite filter_cons_True by done. right. by apply IH.
Qed.

Lemma fills_series_complete a b :
  fills_series (ObjSeries a) (ObjSeries b) → None ∉ a → None ∉ b.
Proof.
  cbn. induction 1 as [|x y a b Hxy _ IH]; [done|].
  intros Ha. apply not_elem_of_cons in Ha as [Hx Ha].
  apply not_elem_of_cons. split; [|by apply IH].
  destruct Hxy as [->| ->]; [done | done].
Qed.

Lemma null_count_zero cells : null_count (ObjSeries cells) = 0%nat → None ∉ cells.
Proof.
  cbn. induction cells as [|c cells IH]; [intros _; apply not_elem_of_nil|].
  destruct c as [x|].
  - rewrite filter_cons_False by done. intros H0. apply not_elem_of_cons. split; [done|auto].
  - rewrite filter_cons_True by done. done.
Qed.

Lemma fillna_obj_fills cells v :
  fills_series (ObjSeries cells) (ObjSeries (fillna_obj cells v))
  ∧ None ∉ fillna_obj cells v.
Proof.
  cbn. unfold fillna_obj. induction cells as [|c cells [IHf IHn]]; cbn.
  - split; [constructor | apply not_elem_of_nil].
  - split.
    + constructor; [|exact IHf]. destruct c; auto.
    + apply not_elem_of_cons. split; [by destruct c | exact IHn].
Qed.

Lemma fillna_num_fills cells v :
  fills_series (NumSeries cells) (NumSeries (fillna_num cells v)).
Proof.
  cbn. unfold fillna_num. induction cells as [|c cells IH]; cbn; constructor; [|exact IH].
  destruct c; auto.
Qed.

Lemma setitem_inv r col s env w u w' :
  setitem r col s env w = (Returned u, w') →
  ∃ f, heap w !! r = Some f ∧ w' = set_heap w (<[r := with_column f col s]> (heap w)).
Proof.
  unfold setitem. intros Hrun. apply bind_inv in Hrun as (f & w1 & Hget & Hrun).
  apply get_frame_inv in Hget as [Hf ->]. injection Hrun as _ <-. by exists f.
Qed.

Lemma copy_inv r env w r' w' :
  copy r env w = (Returned r', w') →
  ∃ f, heap w !! r = Some f ∧ r' = length (heap w) ∧ w' = set_heap w (heap w ++ [f]).
Proof.
  unfold copy. intros Hrun. apply bind_inv in Hrun as (f & w1 & Hget & Hrun).
  apply get_frame_inv in Hget as [Hf ->]. injection Hrun as <- <-. by exists f.
Qed.


Lemma refilled_refl ref f w : heap w !! ref = Some f → refilled ref f w w f.
Proof. intros Hf. split; [done|]. split; [apply fills_refl|]. done. Qed.

Lemma refilled_trans ref f1 f2 f3 w1 w2 w3 :
  refilled ref f1 w1 w2 f2 → refilled ref f2 w2 w3 f3 → refilled ref f1 w1 w3 f3.
Proof.
  intros (_ & Hf12 & Hl12 & Ho12) (H3 & Hf23 & Hl23 & Ho23).
  split; [done|]. split; [by eapply fills_trans|]. split; [congruence|].
  intros r Hr. by rewrite Ho23, Ho12.
Qed.

Lemma refilled_setitem ref f col s s' w :
  heap w !! ref = Some f → getitem f col = Some s → fills_series s s' →
  refilled ref f w (set_heap w (<[ref := with_column f col s']> (heap w)))
           (with_column f col s').
Proof.
  intros Hf Hget Hs. unfold refilled. cbn [heap set_heap]. split.
  - apply list_lookup_insert_eq. by eapply lookup_lt_Some.
  - split; [by eapply with_column_fills|]. split; [by rewrite length_insert|].
    intros r Hr. by apply list_lookup_insert_ne.
Qed.

Lemma fill_numeric_refills ref env cols :
  ∀ ops w f ops' w',
    heap w !! ref = Some f →
    data_cleaning.fill_numeric ref cols ops env w = (Returned ops', w') →
    ∃ f', refilled ref f w w' f'.
Proof.
  unfold data_cleaning.fill_numeric.
  induction cols as [|col cols IH]; intros ops w f ops' w' Hf Hrun; cbn [for_fold] in Hrun.
  - injection Hrun as _ <-. exists f. by apply refilled_refl.
  - apply bind_inv in Hrun as (ops1 & w1 & Hbody & Hrun).
    assert (∃ f1, refilled ref f w w1 f1) as (f1 & Hstep).
    { apply bind_inv in Hbody as (f0 & w0 & Hget & Hbody).
      apply get_frame_inv in Hget as [Hf0 ->]. rewrite Hf in Hf0. injection Hf0 as <-.
      destruct (getitem f col) as [[cells|cells]|] eqn:Hcol;
        [|injection Hbody as _ <-; exists f; by apply refilled_refl..].
      destruct (0 <? null_count (NumSeries cells))%nat;
        [|injection Hbody as _ <-; exists f; by apply refilled_refl].
      apply bind_inv in Hbody as (median_val & w0 & Hmedian & Hbody).
      apply lib_inv in Hmedian as [_ ->].
      apply bind_inv in Hbody as ([] & w0 & Hset & Hbody).
      apply setitem_inv in Hset as (f0 & Hf0 & ->). rewrite Hf in Hf0. injection Hf0 as <-.
      cbn in Hbody. injection Hbody as _ <-.
      eexists. eapply refilled_setitem; [done..|]. apply fillna_num_fills. }
    destruct (IH ops1 w1 f1 ops' w') as (f' & Hrest); [apply Hstep | exact Hrun|].
    exists f'. by eapply refilled_trans.
Qed.

Lemma fill_categorical_refills ref env cols :
  ∀ ops w f ops' w',
    heap w !! ref = Some f →
    data_cleaning.fill_categorical ref cols ops env w = (Returned ops', w') →
    ∃ f', refilled ref f w w' f'
          ∧ ∀ col cells, col ∈ cols → getitem f' col = Some (ObjSeries cells) → None ∉ cells.
Proof.
  unfold data_cleaning.fill_categorical.
  induction cols as [|col cols IH]; intros ops w f ops' w' Hf Hrun; cbn [for_fold] in Hrun.
  - injection Hrun as _ <-. exists f. split; [by apply refilled_refl|].
    intros col cells Hin. by apply elem_of_nil in Hin.
  - apply bind_inv in Hrun as (ops1 & w1 & Hbody & Hrun).
    assert (∃ f1, refilled ref f w w1 f1
                  ∧ ∀ cells, getitem f1 col = Some (ObjSeries cells) → None ∉ cells)
      as (f1 & Hstep & Hcol1).
    { apply bind_inv in Hbody as (f0 & w0 & Hget & Hbody).
      apply get_frame_inv in Hget as [Hf0 ->]. rewrite Hf in Hf0. injection Hf0 as <-.
      destruct (getitem f col) as [[cells|cells]|] eqn:Hcol.
      - injection Hbody as _ <-. exists f. split; [by apply refilled_refl|].
        intros cells' Hget. congruence.
      - destruct (0 <? null_count (ObjSeries cells))%nat eqn:Hnull.
        + apply bind_inv in Hbody as (modes & w0 & Hmode & Hbody).
          apply lib_inv in Hmode as [_ ->].
          apply bind_inv in Hbody as ([] & w0 & Hset & Hbody).
          apply setitem_inv in Hset as (f0 & Hf0 & ->). rewrite Hf in Hf0.
          injection Hf0 as <-. cbn in Hbody. injection Hbody as _ <-.
          eexists. split.
          * eapply refilled_setitem; [done..|]. apply fillna_obj_fills.
          * intros cells'. erewrite getitem_with_column by exact Hcol.
            intros [= <-]. apply fillna_obj_fills.
        + injection Hbody as _ <-. exists f. split; [by apply refilled_refl|].
          intros cells'. rewrite Hcol. intros [= <-]. apply null_count_zero.
          apply Nat.ltb_ge in Hnull. lia.
      - injection Hbody as _ <-. exists f. split; [by apply refilled_refl|].
        intros cells' Hget. congruence. }
    destruct (IH ops1 w1 f1 ops' w') as (f' & Hrest & Hcols); [apply Hstep | exact Hrun|].
    exists f'. split; [by eapply refilled_trans|].
    intros c cells Hin Hget. apply elem_of_cons in Hin as [->|Hin]; [|by eapply Hcols].
    destruct Hrest as (_ & Hfills & _).
    destruct (getitem f1 col) as [s1|] eqn:Hs1.
    + destruct (fills_getitem _ _ _ _ Hfills Hs1) as (s' & Hs' & Hrel).
      rewrite Hget in Hs'. injection Hs' as <-.
      destruct s1 as [a|a]; [done|]. eapply fills_series_complete; [exact Hrel|].
      by apply Hcol1.
    + exfalso. clear -Hfills Hs1 Hget. unfold fills in Hfills.
      induction Hfills as [|[c s] [c' s'] f1 f' [Hl _] _ IH]; cbn in *; [done|].
      subst c'. destruct (String.eqb c col); [done | by apply IH].
Qed.

(** A success of the cleaning task, for a frame with distinct column
    labels. The input is copied, and the copy is the input with missing
    cells filled: the same columns, every value where it was, and no
    missing cell left in an object column. The frame of the payload is
    that copy, or, when pandas counted duplicate rows, a further object
    that [drop_duplicates] made of it. The report gives the shape and the
    missing counts of the input and of the frame of the payload. *)
Theorem cleaning_execute_fills self df frame env w r w' :
  heap w !! df = Some frame → NoDup (columns frame) →
  data_cleaning.execute self df env w = (Returned r, w') → status r = "success" →
  ∃ cleaned_df report copy filled cleaned,
    data r = Some (CleaningData cleaned_df report)
    ∧ (length (heap w) ≤ copy)%nat ∧ heap w' !! copy = Some filled
    ∧ fills frame filled ∧ text_complete filled
    ∧ heap w' !! cleaned_df = Some cleaned
    ∧ ((cleaned_df = copy ∧ cleaned = filled ∧ duplicated_sum env filled = inr 0%nat)
       ∨ ((copy < cleaned_df)%nat ∧ drop_duplicates env filled = inr cleaned))
    ∧ CleaningReport.original_shape report = shape frame
    ∧ CleaningReport.missing_values_before report = isnull_sum frame
    ∧ CleaningReport.cleaned_shape report = shape cleaned
    ∧ CleaningReport.missing_values_after report = isnull_sum cleaned.
Proof.
  intros Hdf Hnd Hrun Hstatus. unfold Ref in *.
  apply (guarded_success (data_cleaning.name self) (data_cleaning.execute_body self df))
    in Hrun; [|done].
  unfold data_cleaning.execute_body in Hrun.
  apply bind_inv in Hrun as (frame0 & w0 & Hget & Hrun).
  apply get_frame_inv in Hget as [Hframe0 ->]. unfold Ref in *. cbn [heap tick] in Hframe0.
  rewrite Hdf in Hframe0. injection Hframe0 as <-.
  apply bind_inv in Hrun as (duplicates0 & w0 & Hdup0 & Hrun).
  apply lib_inv in Hdup0 as [_ ->].
  apply bind_inv in Hrun as (env0 & w0 & Hask & Hrun). injection Hask as <- <-.
  apply bind_inv in Hrun as (adk_resp & w1 & Hadk & Hrun).
  assert (heap w `prefix_of` heap w1) as Hpre.
  { match type of Hadk with ?c env _ = _ =>
      assert (keeps (heap w) c (λ _, True)) as Hkeeps end.
    { destruct (bool_decide _); [|by apply keeps_ret].
      eapply keeps_bind_any; [apply keeps_lookup_global|]. intros _.
      apply keeps_safe_call_adk. intros p c. apply keeps_call_adk_cleaning. }
    destruct (Hkeeps env (tick w)) as [Hpre _]; [done|]. by rewrite Hadk in Hpre. }
  assert (heap w1 !! df = Some frame) as Hdf1 by (by eapply prefix_lookup_Some).
  apply bind_inv in Hrun as (copy_ref & w2 & Hcopy & Hrun).
  apply copy_inv in Hcopy as (f & Hf & -> & ->). unfold Ref in *. rewrite Hdf1 in Hf. injection Hf as <-.
  set (w2 := set_heap w1 (heap w1 ++ [frame])) in *.
  assert (heap w2 !! df = Some frame) as Hdf2.
  { subst w2. cbn [heap set_heap]. by apply lookup_app_l_Some. }
  assert (heap w2 !! length (heap w1) = Some frame) as Hcopy2.
  { subst w2. cbn [heap set_heap]. by rewrite lookup_app_r, Nat.sub_diag by lia. }
  apply bind_inv in Hrun as (frame1 & w0 & Hget & Hrun).
  apply get_frame_inv in Hget as [Hframe1 ->]. unfold Ref in *. rewrite Hdf2 in Hframe1.
  injection Hframe1 as <-.
  apply bind_inv in Hrun as (adk_recommendations & w3 & Hrec & Hrun).
  assert (w3 = w2) as ->.
  { destruct adk_resp as [text|]; [destruct (negb (String.eqb text ""))|];
      [|by injection Hrec..].
    unfold try_except, bind, lib in Hrec. destruct (json_loads env text); by injection Hrec. }
  apply bind_inv in Hrun as (cleaned0 & w0 & Hget & Hrun).
  apply get_frame_inv in Hget as [Hcleaned0 ->]. unfold Ref in *. rewrite Hcopy2 in Hcleaned0.
  injection Hcleaned0 as <-.
  apply bind_inv in Hrun as (ops1 & w3 & Hnum & Hrun).
  destruct (fill_numeric_refills _ _ _ _ _ _ _ _ Hcopy2 Hnum) as (f1 & Hf1 & Hfills1 & Hlen1 & Hothers1).
  apply bind_inv in Hrun as (cleaned1 & w0 & Hget & Hrun).
  apply get_frame_inv in Hget as [Hcleaned1 ->]. unfold Ref in *. rewrite Hf1 in Hcleaned1.
  injection Hcleaned1 as <-.
  apply bind_inv in Hrun as (ops2 & w4 & Hcat & Hrun).
  destruct (fill_categorical_refills _ _ _ _ _ _ _ _ Hf1 Hcat)
    as (f2 & (Hf2 & Hfills2 & Hlen2 & Hothers2) & Hcomplete).
  assert (fills frame f2) as Hfills by (by eapply fills_trans).
  assert (text_complete f2) as Htext.
  { intros col cells Hin. eapply Hcomplete.
    - by eapply fills_object_column.
    - apply getitem_elem_of; [|done]. by rewrite (fills_columns _ _ Hfills). }
  apply bind_inv in Hrun as (cleaned2 & w0 & Hget & Hrun).
  apply get_frame_inv in Hget as [Hcleaned2 ->]. unfold Ref in *. rewrite Hf2 in Hcleaned2.
  injection Hcleaned2 as <-.
  apply bind_inv in Hrun as (duplicates & w0 & Hdup & Hrun).
  apply lib_inv in Hdup as [Hdup ->].
  apply bind_inv in Hrun as ([cleaned_df ops3] & w5 & Hdedup & Hrun).
  apply bind_inv in Hrun as (cleaned & w0 & Hget & Hrun).
  apply get_frame_inv in Hget as [Hcleaned ->]. unfold Ref in *.
  apply bind_inv in Hrun as (now & w6 & Htime & Hrun).
  injection Htime as _ <-. cbn in Hrun. injection Hrun as <- <-.
  assert (length (heap w) ≤ length (heap w1))%nat as Hle by (by apply prefix_length).
  exists cleaned_df. eexists. exists (length (heap w1)), f2, cleaned.
  split; [reflexivity|]. cbn [CleaningReport.original_shape
    CleaningReport.missing_values_before CleaningReport.cleaned_shape
    CleaningReport.missing_values_after heap tick].
  destruct (0 <? duplicates)%nat eqn:Hsome.
  - apply bind_inv in Hdedup as (unique & w0 & Hunique & Hdedup).
    apply lib_inv in Hunique as [Hunique ->].
    cbn in Hdedup. injection Hdedup as <- _ <-. cbn [heap set_heap] in Hcleaned |- *.
    rewrite lookup_app_r, Nat.sub_diag in Hcleaned by lia. injection Hcleaned as <-.
    assert (length (heap w1) < length (heap w4))%nat as Hlt.
    { rewrite Hlen2, Hlen1. subst w2. cbn [heap set_heap]. rewrite length_app. cbn. lia. }
    repeat split; try done.
    + apply lookup_app_l_Some. exact Hf2.
    + by rewrite lookup_app_r, Nat.sub_diag by lia.
    + right. by split.
  - injection Hdedup as <- _ <-. rewrite Hf2 in Hcleaned. injection Hcleaned as <-.
    apply Nat.ltb_ge in Hsome. assert (duplicates = 0%nat) as -> by lia.
    repeat split; try done. left. by repeat split.
Qed.

Lemma cleaning_execute_fills_witness :
  let env := sample_env silent_service sample_pdf [] in
  ∃ r w',
    data_cleaning.execute (data_cleaning.init None None) 0 env sample_world = (Returned r, w')
    ∧ ∃ cleaned_df report copy filled cleaned,
        data r = Some (CleaningData cleaned_df report)
        ∧ (length (heap sample_world) ≤ copy)%nat ∧ heap w' !! copy = Some filled
        ∧ fills sample_frame filled ∧ text_complete filled
        ∧ heap w' !! cleaned_df = Some cleaned
        ∧ ((cleaned_df = copy ∧ cleaned = filled
            ∧ duplicated_sum env filled = inr 0%nat)
           ∨ ((copy < cleaned_df)%nat ∧ drop_duplicates env filled = inr cleaned))
        ∧ CleaningReport.original_shape report = shape sample_frame
        ∧ CleaningReport.missing_values_before report = isnull_sum sample_frame
        ∧ CleaningReport.cleaned_shape report = shape cleaned
        ∧ CleaningReport.missing_values_after report = isnull_sum cleaned.
Proof.
  intros env. eexists _, _. split; [vm_compute; reflexivity|].
  eapply (cleaning_execute_fills (data_cleaning.init None None) 0 sample_frame env
            sample_world).
  - reflexivity.
  - apply (bool_decide_unpack _). vm_compute. exact I.
  - vm_compute. reflexivity.
  - reflexivity.
Defined.

(** ** The ML task, from the frame to the ranking *)





(** ** The web application *)

(** Splits a handler into its paths: every call of the host is a case. *)
Ltac web_cases :=
  unfold app.validate, app.run_and_render, app.wbind, app.wtry, app.flash, app.save,
    app.remove, app.host_call, app.wask, app.wret, app.wraise, app.asyncio_run_pipeline;
  repeat (cbn [fst snd app.flashed app.saved app.removed app.remove_calls app.runs app.world];
          match goal with
          | |- context [match ?x with _ => _ end] =>
              lazymatch x with
              | context [match _ with _ => _ end] => fail
              | _ => destruct x eqn:?
              end
          end);
  cbn [fst snd app.flashed app.saved app.removed app.remove_calls app.runs app.world].

(** An upload that fails a check made before saving is turned away with one
    error message, or with the exception of [flash] when the session is not
    available; nothing is saved, removed or run. *)
Theorem analyze_rejects_bad_upload ADK_CLIENT ADK_MODEL request host s :
  bad_upload request →
  ∃ o s',
    app.analyze ADK_CLIENT ADK_MODEL request host s = (o, s')
    ∧ app.saved s' = app.saved s ∧ app.removed s' = app.removed s
    ∧ app.runs s' = app.runs s ∧ app.world s' = app.world s
    ∧ match app.flash_session host with
      | inr _ =>
          o = Returned (app.Redirect "/")
          ∧ ∃ message, app.flashed s' = app.flashed s ++ [(message, "error")]
      | inl e => o = Raised e ∧ s' = s
      end.
Proof.
  unfold bad_upload, app.analyze. intros Hbad.
  destruct (dict_get (app.files request) "file") as [file|].
  - destruct Hbad as (name & -> & [->|Hcsv]).
    + cbn [String.eqb]. unfold app.wbind, app.flash, app.wret.
      destruct (app.flash_session host); eexists _, _; (split; [reflexivity|]); cbn; eauto 10.
    + rewrite Hcsv. cbn [negb].
      destruct (String.eqb name ""); unfold app.wbind, app.flash, app.wret;
        destruct (app.flash_session host); eexists _, _; (split; [reflexivity|]); cbn;
        eauto 10.
  - unfold app.wbind, app.flash, app.wret.
    destruct (app.flash_session host); eexists _, _; (split; [reflexivity|]); cbn; eauto 10.
Qed.

Lemma analyze_rejects_bad_upload_witness :
  ∃ o s',
    app.analyze sample_client sample_model bad_request
      (sample_host (sample_env silent_service sample_pdf [])) empty_server = (o, s')
    ∧ app.saved s' = app.saved empty_server ∧ app.removed s' = app.removed empty_server
    ∧ app.runs s' = app.runs empty_server ∧ app.world s' = app.world empty_server
    ∧ match app.flash_session (sample_host (sample_env silent_service sample_pdf [])) with
      | inr _ =>
          o = Returned (app.Redirect "/")
          ∧ ∃ message, app.flashed s' = app.flashed empty_server ++ [(message, "error")]
      | inl e => o = Raised e ∧ s' = empty_server
      end.
Proof.
  apply (analyze_rejects_bad_upload sample_client sample_model bad_request).
  cbn. exists "sales.xlsx". split; [reflexivity|]. right. vm_compute. reflexivity.
Defined.

(** [analyze] runs the pipeline at most once, and only on an upload that
    passed every check: on the path the file was saved to, with the target
    of the form, which is then [None] or a column of the file. *)
Theorem analyze_runs_pipeline_on_accepted_upload ADK_CLIENT ADK_MODEL request host s :
  let s' := (app.analyze ADK_CLIENT ADK_MODEL request host s).2 in
  app.runs s' = app.runs s
  ∨ ∃ df,
      accepted host request df
      ∧ app.runs s'
        = app.runs s ++ [(app.upload_path (app.uuid4 host), app.form_target request)].
Proof.
  cbn zeta. destruct (app.analyze ADK_CLIENT ADK_MODEL request host s) as [o s'] eqn:Hrun.
  cbn [snd]. revert Hrun. unfold app.analyze.
  destruct (dict_get (app.files request) "file") as [file|] eqn:Hfile;
    [|web_cases; intros; simplify_eq; by left].
  destruct (app.filename file) as [name|] eqn:Hname;
    [|unfold app.wraise; intros; simplify_eq; by left].
  destruct (String.eqb name "") eqn:Hne; [web_cases; intros; simplify_eq; by left|].
  apply String.eqb_neq in Hne.
  destruct (endswith name ".csv") eqn:Hcsv; cbn [negb];
    [|web_cases; intros; simplify_eq; by left].
  unfold app.wbind at 1. cbn [app.wask]. unfold app.wbind at 1. unfold app.save at 1.
  destruct (app.file_save host file (app.upload_path (app.uuid4 host))) as [e|[]] eqn:Hsave;
    [intros; simplify_eq; by left|].
  unfold app.wbind at 1. unfold app.validate, app.wtry at 1. unfold app.wbind at 1.
  unfold app.host_call at 1.
  destruct (app.pd_read_csv host (app.upload_path (app.uuid4 host))) as [e|df] eqn:Hread.
  { web_cases; intros; simplify_eq; by left. }
  destruct (app.form_target request) as [t|] eqn:Htarget.
  - case_bool_decide as Hcol; [web_cases; intros; simplify_eq; by left|].
    destruct (getitem df t) as [series|] eqn:Hseries;
      [|web_cases; intros; simplify_eq; by left].
    assert (accepted host request df) as Haccepted.
    { exists file, name. repeat split; try done.
      intros t' Ht'. rewrite Htarget in Ht'. by injection Ht' as <-. }
    web_cases; intros; simplify_eq; cbn; solve [by left | right; by exists df].
  - assert (accepted host request df) as Haccepted.
    { exists file, name. repeat split; try done.
      intros t' Ht'. rewrite Htarget in Ht'. discriminate. }
    web_cases; intros; simplify_eq; cbn; solve [by left | right; by exists df].
Qed.

(** When [analyze] answers, it is with the results page or with a redirect
    to the form. The results page means that the upload passed the checks,
    that the pipeline returned on it and that the file stays where it was
    saved. A redirect means that nothing was saved, or that the saved file
    was removed again, or that it no longer existed when the analysis had
    failed. *)
Theorem analyze_keeps_upload_only_on_success ADK_CLIENT ADK_MODEL request host s
    response s' :
  app.analyze ADK_CLIENT ADK_MODEL request host s = (Returned response, s') →
  let path := app.upload_path (app.uuid4 host) in
  match response with
  | app.Html body =>
      app.saved s' = app.saved s ++ [path] ∧ app.removed s' = app.removed s
      ∧ ∃ df results pdf_path,
          accepted host request df
          ∧ main.run_pipeline ADK_CLIENT ADK_MODEL path (app.form_target request)
              (app.pipeline_env host) (app.world s) = (Returned results, app.world s')
          ∧ app.render_template host
              (app.ResultsPage pdf_path (main.agent_results results) (main.insights results)
                               (app.form_target request) (shape df)) = inr body
  | app.Redirect location =>
      location = "/"
      ∧ (app.saved s' = app.saved s ∧ app.removed s' = app.removed s
         ∨ app.saved s' = app.saved s ++ [path]
           ∧ (app.removed s' = app.removed s ++ [path]
              ∨ app.os_path_exists host path = false ∧ app.removed s' = app.removed s))
  | app.Attachment _ => False
  end.
Proof.
  cbn zeta. unfold app.analyze.
  destruct (dict_get (app.files request) "file") as [file|] eqn:Hfile;
    [|web_cases; intros; simplify_eq; cbn; auto].
  destruct (app.filename file) as [name|] eqn:Hname;
    [|unfold app.wraise; intros; simplify_eq].
  destruct (String.eqb name "") eqn:Hne; [web_cases; intros; simplify_eq; cbn; auto|].
  apply String.eqb_neq in Hne.
  destruct (endswith name ".csv") eqn:Hcsv; cbn [negb];
    [|web_cases; intros; simplify_eq; cbn; auto].
  unfold app.wbind at 1. cbn [app.wask]. unfold app.wbind at 1. unfold app.save at 1.
  destruct (app.file_save host file (app.upload_path (app.uuid4 host))) as [e|[]] eqn:Hsave;
    [intros; simplify_eq|].
  unfold app.wbind at 1. unfold app.validate, app.wtry at 1. unfold app.wbind at 1.
  unfold app.host_call at 1.
  destruct (app.pd_read_csv host (app.upload_path (app.uuid4 host))) as [e|df] eqn:Hread.
  { web_cases; intros; simplify_eq; cbn; auto. }
  destruct (app.form_target request) as [t|] eqn:Htarget.
  - case_bool_decide as Hcol; [web_cases; intros; simplify_eq; cbn; auto|].
    destruct (getitem df t) as [series|] eqn:Hseries;
      [|web_cases; intros; simplify_eq; cbn; auto].
    assert (accepted host request df) as Haccepted.
    { exists file, name. repeat split; try done.
      intros t' Ht'. rewrite Htarget in Ht'. by injection Ht' as <-. }
    web_cases; intros; simplify_eq; cbn;
      try solve [auto 6 | split; [done|]; split; [done|]; eauto 10].
  - assert (accepted host request df) as Haccepted.
    { exists file, name. repeat split; try done.
      intros t' Ht'. rewrite Htarget in Ht'. discriminate. }
    web_cases; intros; simplify_eq; cbn;
      try solve [auto 6 | split; [done|]; split; [done|]; eauto 10].
Qed.

Lemma analyze_keeps_upload_only_on_success_witness :
  let host := sample_host (sample_env silent_service sample_pdf []) in
  ∃ body s',
    app.analyze sample_client sample_model sample_request host empty_server
    = (Returned (app.Html body), s')
    ∧ app.saved s' = app.saved empty_server ++ [app.upload_path (app.uuid4 host)]
    ∧ app.removed s' = app.removed empty_server
    ∧ ∃ df results pdf_path,
        accepted host sample_request df
        ∧ main.run_pipeline sample_client sample_model (app.upload_path (app.uuid4 host))
            (app.form_target sample_request) (app.pipeline_env host)
            (app.world empty_server) = (Returned results, app.world s')
        ∧ app.render_template host
            (app.ResultsPage pdf_path (main.agent_results results) (main.insights results)
                             (app.form_target sample_request) (shape df)) = inr body.
Proof.
  intros host.
  assert (∃ body s', app.analyze sample_client sample_model sample_request host empty_server
                     = (Returned (app.Html body), s')) as (body & s' & Hrun).
  { eexists _, _. vm_compute. reflexivity. }
  exists body, s'. split; [exact Hrun|].
  exact (analyze_keeps_upload_only_on_success sample_client sample_model sample_request host
           empty_server (app.Html body) s' Hrun).
Defined.

Lemma getitem_is_Some (df : DataFrame) col : col ∈ columns df → is_Some (getitem df col).
Proof.
  unfold columns. induction df as [|[c s] df IH]; cbn; intros Hin.
  - by apply elem_of_nil in Hin.
  - destruct (String.eqb_spec c col) as [->|Hne]; [by eexists|].
    apply elem_of_cons in Hin as [->|Hin]; [done | by apply IH].
Qed.

(** [strip] drops what [str.strip] drops: blanks, the separators FS to US,
    NEL and the no-break space. *)
Example strip_drops_separators :
  strip (String (ascii_of_nat 31)
           (" profit" +:+ String (ascii_of_nat 160) (String (ascii_of_nat 133) "")))
  = "profit".
Proof. reflexivity. Qed.

(** An exception of the pipeline on an upload that passed the checks. With
    a working session it does not escape [analyze]: the last message
    flashed is the exception's text after "Error during analysis: ", the
    saved file is removed if it still exists, and the answer is a redirect
    to the form; only a failure of that [os.remove] escapes. Without a
    session, which is how the application is configured, it has no secret
    key, the exception [flash] raises escapes instead: no message is
    stored, nothing is removed and the saved file stays. *)
Theorem analyze_reports_pipeline_exception ADK_CLIENT ADK_MODEL request host s df e w' :
  accepted host request df →
  main.run_pipeline ADK_CLIENT ADK_MODEL (app.upload_path (app.uuid4 host))
    (app.form_target request) (app.pipeline_env host) (app.world s) = (Raised e, w') →
  ∃ o s',
    app.analyze ADK_CLIENT ADK_MODEL request host s = (o, s')
    ∧ app.saved s' = app.saved s ++ [app.upload_path (app.uuid4 host)]
    ∧ match app.flash_session host with
      | inr _ =>
          last (app.flashed s') = Some ("Error during analysis: " +:+ str_exn e, "error")
          ∧ app.world s' = w'
          ∧ app.runs s'
            = app.runs s ++ [(app.upload_path (app.uuid4 host), app.form_target request)]
          ∧ (o = Returned (app.Redirect "/")
             ∧ (if app.os_path_exists host (app.upload_path (app.uuid4 host))
                then app.removed s' = app.removed s ++ [app.upload_path (app.uuid4 host)]
                else app.removed s' = app.removed s)
             ∨ ∃ e', o = Raised e'
                 ∧ app.os_remove host (app.remove_calls s) (app.upload_path (app.uuid4 host))
                   = inl e')
      | inl no_session =>
          o = Raised no_session
          ∧ app.flashed s' = app.flashed s
          ∧ app.removed s' = app.removed s
          ∧ app.remove_calls s' = app.remove_calls s
      end.
Proof.
  intros (file & name & Hfile & Hname & Hne & Hcsv & Hsave & Hread & Htarget) Hrun.
  assert (∀ t, app.form_target request = Some t →
            bool_decide (t ∉ columns df) = false ∧ is_Some (getitem df t)) as Hcolumn.
  { intros t Ht. split; [|by apply getitem_is_Some, Htarget].
    apply bool_decide_eq_false_2. intros Hnot. by apply Hnot, Htarget. }
  destruct (app.flash_session host) as [no_session|[]] eqn:Hflash;
    unfold app.analyze; rewrite Hfile, Hname, (proj2 (String.eqb_neq _ _) Hne), Hcsv;
    cbn [negb];
    unfold app.validate, app.run_and_render, app.wbind, app.wtry, app.flash, app.save,
      app.remove, app.host_call, app.wask, app.wret, app.wraise, app.asyncio_run_pipeline;
    rewrite Hsave, Hread;
    (destruct (app.form_target request) as [t|] eqn:Ht;
     [destruct (Hcolumn t eq_refl) as [-> [series ->]];
      destruct (bool_decide (app.dtype_name host series ∉ ["int64"; "float64"]))|]);
    repeat (progress
              (cbn [app.flashed app.saved app.removed app.remove_calls app.runs app.world];
               rewrite ?Hflash, ?Hrun));
    try (destruct (app.os_path_exists host (app.upload_path (app.uuid4 host)));
         cbn [app.flashed app.saved app.removed app.remove_calls app.runs app.world];
         try destruct (app.os_remove host (app.remove_calls s)
                         (app.upload_path (app.uuid4 host))) as [e'|[]]);
    eexists _, _; (split; [reflexivity|]);
    cbn [app.flashed app.saved app.removed app.remove_calls app.runs app.world];
    rewrite ?last_snoc; repeat split; eauto.
Qed.

Lemma analyze_reports_pipeline_exception_witness :
  let host := no_session_host (sample_env silent_service failing_pdf []) in
  ∃ o s',
    app.analyze sample_client sample_model sample_request host empty_server = (o, s')
    ∧ app.saved s' = app.saved empty_server ++ [app.upload_path (app.uuid4 host)]
    ∧ o = Raised no_session
    ∧ app.flashed s' = app.flashed empty_server
    ∧ app.removed s' = app.removed empty_server
    ∧ app.remove_calls s' = app.remove_calls empty_server.
Proof.
  intros host.
  eapply (analyze_reports_pipeline_exception sample_client sample_model sample_request host
            empty_server sample_frame
            (AttributeError "'NoneType' object has no attribute 'get'")).
  - exists (app.mkFileStorage (Some "sales.csv") "price,city,profit"), "sales.csv".
    repeat split; try reflexivity; [discriminate|].
    intros t Ht. vm_compute in Ht. injection Ht as <-.
    cbn. do 2 apply list_elem_of_further. apply list_elem_of_here.
  - vm_compute. reflexivity.
Defined.
